(** * MiniCash: the aggregation and mutation logic of [app.py]

    A shallow embedding of the request handlers of [app.py]
    ([index], [register], [login], [logout], [setup_balance], [dashboard],
    [add_transaction], [edit_transaction], [delete_transaction]), of the
    helpers [parse_decimal] and [create_default_categories] and of the
    template filter [currency_filter], followed by the properties proved
    about them.

    What lies outside [app.py] is modelled as follows.

    - Form strings are sequences of characters with code points below 256,
      none of them NUL (which the store does not accept).  On these,
      [str.strip], [str.replace], [str.lower], [int] and [Decimal] behave
      as written below: [\d] is [0-9]; [str.strip] and [Decimal] take as
      white space what [str.isspace] accepts, [int] skips less (it keeps
      the separators [0x1c] to [0x1f]) and refuses a number of more than
      4300 digits.
    - [decimal.Decimal] is the C implementation: a value is a sign, a
      coefficient and an exponent, or an infinity, or a NaN; a string whose
      number cannot be represented exactly within the largest and the
      smallest exponent ([Emax = 999999999999999999]) is refused.
      Arithmetic is that of the default context (precision 28,
      ROUND_HALF_EVEN, InvalidOperation trapped).
    - A [Numeric(14, 2)] column of PostgreSQL, the store of the default
      [DATABASE_URL], holds a whole number of hundredths of magnitude below
      [10^14].  The driver writes a finite decimal as the literal [str(d)]:
      the server refuses a literal with more than 16383 digits after the
      point or an exponent of [INT_MAX / 2] or more, rounds the value to two
      decimals, ties away from zero, and refuses it when the rounded value
      does not fit.  A refused write is an unhandled persistence error: the
      response is a server error and the store is left as it was.
    - The driver writes an infinity or a NaN as NaN, which the column
      accepts.  A column that holds NaN is outside this model: its stored
      values are numbers, and it answers such a write like a refused one.
      The statements below about a single write take a store that accepts
      the value as a hypothesis, and describe stores that hold numbers.
    - An [UPDATE] writes a new version of the row, so that a query without
      [ORDER BY] may return the rows in another order than before;
      [update_transaction] puts the new version last, and nothing is stated
      about the place of a row.  Likewise [GROUP BY] lists its groups in no
      stated order.
    - [float] is binary64, and [float(d)] of a decimal is the nearest
      binary64 number, ties to even.
    - An [Integer] primary key is a 32-bit serial.
    - The clock ([date.today()], [datetime.utcnow()]) and the logged-in
      user id are inputs of the handlers.
    - The session cookie holds the id of a user or nothing;
      [login_required] lets a request through when [load_user] finds that
      user.
    - A [String(n)] column holds at most [n] characters: a longer value
      fails the insert.
    - werkzeug's [generate_password_hash] and [check_password_hash] are
      parameters; the random salt of the former is an input of
      [register]. *)

From Stdlib Require Import ZArith NArith List String Ascii Bool Lia.
From Stdlib Require Import Permutation Sorted.
Import ListNotations.

Open Scope Z_scope.

(** ** Exceptions and fallible results *)

Inductive exn : Type :=
| InvalidOperation
| TypeError
| ValueError
| OverflowError.

Inductive result (A : Type) : Type :=
| Ok (a : A)
| Raise (e : exn).

Arguments Ok {A} a.
Arguments Raise {A} e.

Definition bind {A B : Type} (r : result A) (k : A -> result B) : result B :=
  match r with
  | Ok a => k a
  | Raise e => Raise e
  end.

Notation "x <- r ;; k" := (bind r (fun x => k))
  (at level 61, r at next level, right associativity).

(** ** Python strings *)

Module Str.

Definition chars : Type := list ascii.

Definition ord (c : ascii) : N := N_of_ascii c.

(** [str.isspace] on one character (code points below 256). *)
Definition isspace (c : ascii) : bool :=
  let n := ord c in
  (((9 <=? n) && (n <=? 13)) || ((28 <=? n) && (n <=? 32))
   || (n =? 133) || (n =? 160))%N.

(** [\d] on one character. *)
Definition isdigit (c : ascii) : bool :=
  let n := ord c in ((48 <=? n) && (n <=? 57))%N.

Definition digit_value (c : ascii) : N := (ord c - 48)%N.

Definition lower (c : ascii) : ascii :=
  let n := ord c in
  if ((65 <=? n) && (n <=? 90))%N then ascii_of_N (n + 32) else c.

Fixpoint lstrip (s : chars) : chars :=
  match s with
  | c :: s' => if isspace c then lstrip s' else s
  | [] => []
  end.

Definition rstrip (s : chars) : chars := rev (lstrip (rev s)).

(** [s.strip()] *)
Definition strip (s : chars) : chars := rstrip (lstrip s).

(** [s.replace(old, new)] for a one-character [old]. *)
Definition replace (old : ascii) (new : chars) (s : chars) : chars :=
  flat_map (fun c => if Ascii.eqb c old then new else [c]) s.

Fixpoint chars_eqb (s t : chars) : bool :=
  match s, t with
  | [], [] => true
  | c :: s', d :: t' => Ascii.eqb c d && chars_eqb s' t'
  | _, _ => false
  end.

(** The longest prefix of digits, and what follows it. *)
Fixpoint span_digits (s : chars) : chars * chars :=
  match s with
  | c :: s' =>
      if isdigit c
      then let (ds, r) := span_digits s' in (c :: ds, r)
      else ([], s)
  | [] => ([], [])
  end.

(** [int(ds)] for a string of digits ([0] for the empty string). *)
Definition digits_value (ds : chars) : N :=
  fold_left (fun acc c => (10 * acc + digit_value c)%N) ds 0%N.

Definition of_string (s : string) : chars := list_ascii_of_string s.

End Str.

(** ** [decimal.Decimal] *)

(** [Finite s c e] is [(-1)^s * c * 10^e]; [NaN] carries its sign, whether
    it is signaling, and its diagnostic digits. *)
Inductive Decimal : Type :=
| Finite (sign : bool) (coeff : N) (exp : Z)
| Infinity (sign : bool)
| NaN (sign : bool) (signaling : bool) (diag : N).

Module Dec.

Import Str.

Definition parse_sign (s : chars) : bool * chars :=
  match s with
  | "-"%char :: r => (true, r)
  | "+"%char :: r => (false, r)
  | _ => (false, s)
  end.

(** The optional exponent and the end of the string: nothing, or the
    letter E, an optional sign and at least one digit. *)
Definition parse_exponent (s : chars) : option Z :=
  match s with
  | [] => Some 0
  | e :: r =>
      if Ascii.eqb (lower e) "e"%char then
        let (neg, r') := parse_sign r in
        let (ds, rest) := span_digits r' in
        match ds, rest with
        | _ :: _, [] =>
            let v := Z.of_N (digits_value ds) in
            Some (if neg then - v else v)
        | _, _ => None
        end
      else None
  end.

(** [len(str(c))] *)
Fixpoint ndigits_fuel (fuel : nat) (c : N) : Z :=
  match fuel with
  | O => 1
  | S fuel' => if (c <? 10)%N then 1 else 1 + ndigits_fuel fuel' (c / 10)%N
  end.

Definition ndigits (c : N) : Z := ndigits_fuel (N.to_nat (N.size c)) c.

(** The interpreter's [decimal] is the C implementation, which converts a
    string exactly in a context of precision [10^18 - 1] whose exponents
    reach [EMAX]: a number whose adjusted exponent is above [EMAX], and any
    exponent below [ETINY], is refused. *)
Definition EMAX : Z := 999999999999999999.
Definition ETINY : Z := -1999999999999999997.

Definition representable (c : N) (e : Z) : bool :=
  (ETINY <=? e)
  && (if (c =? 0)%N then e <=? EMAX else e + ndigits c - 1 <=? EMAX).

(** A finite number: digits, an optional point followed by digits, with at
    least one digit in all, then the optional exponent.  The coefficient is
    [int(intpart + fracpart)], the exponent [exp - len(fracpart)].  Only an
    exponent part can take a number out of the limits: without one the
    string would need [10^18] characters. *)
Definition parse_number (sign : bool) (s : chars) : option Decimal :=
  let (intpart, r1) := span_digits s in
  let (fracpart, r2) :=
    match r1 with
    | "."%char :: r => span_digits r
    | _ => ([], r1)
    end in
  match intpart, fracpart with
  | [], [] => None
  | _, _ =>
      let c := digits_value (intpart ++ fracpart) in
      match r2 with
      | [] => Some (Finite sign c (- Z.of_nat (List.length fracpart)))
      | _ =>
          match parse_exponent r2 with
          | Some e =>
              let exp := e - Z.of_nat (List.length fracpart) in
              if representable c exp then Some (Finite sign c exp) else None
          | None => None
          end
      end
  end.

(** [Inf] or [Infinity]; or [NaN], optionally preceded by [s] and followed
    by diagnostic digits; both ignoring case. *)
Definition parse_special (sign : bool) (s : chars) : option Decimal :=
  let l := map lower s in
  if chars_eqb l (of_string "inf") || chars_eqb l (of_string "infinity")
  then Some (Infinity sign)
  else
    match l with
    | "s"%char :: "n"%char :: "a"%char :: "n"%char :: d =>
        if forallb isdigit d then Some (NaN sign true (digits_value d))
        else None
    | "n"%char :: "a"%char :: "n"%char :: d =>
        if forallb isdigit d then Some (NaN sign false (digits_value d))
        else None
    | _ => None
    end.

(** [Decimal(value)] for a string: white space around it and underscores
    are dropped, and no context rounding applies to construction.  A string
    that does not match, or that spells a number beyond the limits, raises
    [InvalidOperation]. *)
Definition of_chars (value : chars) : result Decimal :=
  let (sign, body) := parse_sign (replace "_"%char [] (strip value)) in
  match parse_number sign body with
  | Some d => Ok d
  | None =>
      match parse_special sign body with
      | Some d => Ok d
      | None => Raise InvalidOperation
      end
  end.

(** [Decimal(n)] for an integer. *)
Definition of_int (n : Z) : Decimal :=
  Finite (n <? 0) (Z.abs_N n) 0.

(** [bool(d)]: [self._is_special or self._int != '0']. *)
Definition truth (d : Decimal) : bool :=
  match d with
  | Finite _ c _ => negb (c =? 0)%N
  | _ => true
  end.

(** [d <= 0]: an ordering comparison that involves a NaN signals
    [InvalidOperation]. *)
Definition le_zero (d : Decimal) : result bool :=
  match d with
  | Finite s c _ => Ok ((c =? 0)%N || s)
  | Infinity s => Ok s
  | NaN _ _ _ => Raise InvalidOperation
  end.


(** *** Arithmetic in the default context *)

Definition prec : Z := 28.

(** [_fix]: a coefficient of more than [prec] digits is rounded to [prec]
    digits, ties to even; a carry out of the top digit drops one more digit.
    The exponent limits [Emin] and [Emax] (of magnitude 999999) are not
    modelled. *)
Definition fix_ (s : bool) (c : N) (e : Z) : Decimal :=
  if (c <? 10 ^ Z.to_N prec)%N then Finite s c e
  else
    let k := ndigits c - prec in
    let p := (10 ^ Z.to_N k)%N in
    let q := (c / p)%N in
    let r := (c mod p)%N in
    let up := ((p <? 2 * r) || ((2 * r =? p) && N.odd q))%N in
    let q' := if up then (q + 1)%N else q in
    if (q' <? 10 ^ Z.to_N prec)%N then Finite s q' (e + k)
    else Finite s (q' / 10)%N (e + k + 1).

Definition signed (s : bool) (c : N) : Z :=
  if s then - Z.of_N c else Z.of_N c.

(** [_check_nans]: a signaling NaN raises, a quiet NaN is the result. *)
Definition check_nans (a b : Decimal) : option (result Decimal) :=
  match a, b with
  | NaN _ true _, _ => Some (Raise InvalidOperation)
  | _, NaN _ true _ => Some (Raise InvalidOperation)
  | NaN s false d, _ => Some (Ok (NaN s false (d mod 10 ^ Z.to_N prec)%N))
  | _, NaN s false d => Some (Ok (NaN s false (d mod 10 ^ Z.to_N prec)%N))
  | _, _ => None
  end.

Definition negate (d : Decimal) : Decimal :=
  match d with
  | Finite s c e => Finite (negb s) c e
  | Infinity s => Infinity (negb s)
  | NaN s g d => NaN (negb s) g d
  end.

(** [a + b]: the exact sum at the smaller exponent, then [_fix]. *)
Definition add (a b : Decimal) : result Decimal :=
  match check_nans a b with
  | Some r => r
  | None =>
      match a, b with
      | Finite s1 c1 e1, Finite s2 c2 e2 =>
          let e := Z.min e1 e2 in
          let v := signed s1 c1 * 10 ^ (e1 - e) + signed s2 c2 * 10 ^ (e2 - e) in
          let s := if ((c1 =? 0) && (c2 =? 0))%N then s1 && s2 else v <? 0 in
          Ok (fix_ s (Z.abs_N v) e)
      | Infinity s1, Infinity s2 =>
          if Bool.eqb s1 s2 then Ok (Infinity s1) else Raise InvalidOperation
      | Infinity s1, _ => Ok (Infinity s1)
      | _, Infinity s2 => Ok (Infinity s2)
      | _, _ => Raise InvalidOperation
      end
  end.

(** [a - b] is [a + b.copy_negate()] once the NaNs are dealt with. *)
Definition sub (a b : Decimal) : result Decimal :=
  match check_nans a b with
  | Some r => r
  | None => add a (negate b)
  end.

(** [x or y] on decimals. *)
Definition or_else (x y : Decimal) : Decimal :=
  if truth x then x else y.

(** The value of a finite decimal in hundredths, when it is a whole number
    of hundredths. *)
Definition cents (d : Decimal) : option Z :=
  match d with
  | Finite s c e =>
      if 0 <=? e + 2 then Some (signed s c * 10 ^ (e + 2))
      else if (Z.of_N c mod 10 ^ (- (e + 2)) =? 0)
           then Some (signed s c / 10 ^ (- (e + 2)))
           else None
  | _ => None
  end.

End Dec.

(** ** [parse_decimal] *)

(** A form field is absent ([None]) or a string. *)
Definition parse_decimal (raw : option string) : result Decimal :=
  match raw with
  | None => Raise InvalidOperation
  | Some raw =>
      let cleaned :=
        Str.replace ","%char ["."%char]
          (Str.replace " "%char [] (Str.of_string raw)) in
      Dec.of_chars cleaned
  end.


(** ** The [Numeric(14, 2)] column *)

Module Numeric.

(** A stored value, in hundredths. *)
Definition t : Type := Z.

Definition limit : Z := 10 ^ 14.

Definition in_range (c : t) : Prop := - limit < c < limit.

(** [c * 10^k] rounded to a whole number, ties away from zero. *)
Definition round_scaled (c : N) (k : Z) : Z :=
  if 0 <=? k then Z.of_N c * 10 ^ k
  else
    let p := 10 ^ (- k) in
    let q := Z.of_N c / p in
    let r := Z.of_N c mod p in
    if p <=? 2 * r then q + 1 else q.

(** The server reads a numeric literal with at most [MAX_DSCALE] digits
    after the decimal point and an exponent below [MAX_EXPONENT]
    ([INT_MAX / 2]).  The driver writes [str(d)], whose digits after the
    point are as many as the exponent of [d] is below zero. *)
Definition MAX_DSCALE : Z := 16383.
Definition MAX_EXPONENT : Z := 1073741823.

(** Writing a decimal.  For a finite one: [None] when the server refuses
    the literal or the rounded value does not fit the column.  (A number
    that is not zero and has an exponent of [MAX_EXPONENT] or more is too
    large for the column as well.)  An infinity or a NaN, which the driver
    writes as NaN, has no value in [t]: stores that hold NaN are outside
    the model, which gives [None] there as well. *)
Definition store (d : Decimal) : option t :=
  match d with
  | Finite s c e =>
      if (e <? - MAX_DSCALE) || (MAX_EXPONENT <=? e) then None
      else
        let m := round_scaled c (e + 2) in
        if m <? limit then Some (if s then - m else m) else None
  | _ => None
  end.

(** Reading a value back: the driver returns the decimal with two
    fractional digits. *)
Definition load (c : t) : Decimal :=
  Finite (c <? 0) (Z.abs_N c) (-2).

End Numeric.

(** ** [float(d)] *)

Module Float.

(** A binary64 number: a NaN, an infinity, or [m * 2^e] with its sign,
    where [m < 2^53] and [MIN_EXP <= e <= MAX_EXP], and [2^52 <= m] unless
    [e = MIN_EXP] (zero is [m = 0] at [e = MIN_EXP]). *)
Inductive t : Type :=
| Nan
| Inf (neg : bool)
| Num (neg : bool) (m : N) (e : Z).

Definition MIN_EXP : Z := -1074.
Definition MAX_EXP : Z := 971.

(** [n / d] rounded to a whole number, ties to the even one. *)
Definition div_half_even (n d : Z) : Z :=
  let q := n / d in
  let r := n mod d in
  if 2 * r <? d then q
  else if d <? 2 * r then q + 1
  else if Z.even q then q else q + 1.

(** The largest [l] with [2^l <= n / d], for positive [n] and [d]. *)
Definition floor_log2 (n d : Z) : Z :=
  let l := Z.log2 n - Z.log2 d in
  if (if 0 <=? l then d * 2 ^ l <=? n else d <=? n * 2 ^ (- l))
  then l else l - 1.

(** The binary64 number nearest to [n / d], for positive [n] and [d]. *)
Definition of_ratio (neg : bool) (n d : Z) : t :=
  let e := Z.max MIN_EXP (floor_log2 n d - 52) in
  let m := if 0 <=? e then div_half_even n (d * 2 ^ e)
           else div_half_even (n * 2 ^ (- e)) d in
  let e' := if m =? 2 ^ 53 then e + 1 else e in
  let m' := if m =? 2 ^ 53 then 2 ^ 52 else m in
  if MAX_EXP <? e' then Inf neg else Num neg (Z.to_N m') e'.

(** The binary64 number nearest to [(-1)^s * c * 10^e], ties to even, an
    overflow giving an infinity.  (A number of [10^310] or more overflows
    and one below [10^-324] rounds to zero: they are answered without
    computing the power of ten.) *)
Definition of_finite (s : bool) (c : N) (e : Z) : t :=
  if (c =? 0)%N then Num s 0 MIN_EXP
  else
    let nd := Dec.ndigits c in
    if 310 <? e + nd then Inf s
    else if e + nd <? -323 then Num s 0 MIN_EXP
    else if 0 <=? e then of_ratio s (Z.of_N c * 10 ^ e) 1
    else of_ratio s (Z.of_N c) (10 ^ (- e)).

(** [Decimal.__float__]: a signaling NaN is refused, and any other value
    is read as [float(str(d))], which rounds to the nearest binary64
    number. *)
Definition of_decimal (d : Decimal) : result t :=
  match d with
  | Finite s c e => Ok (of_finite s c e)
  | Infinity s => Ok (Inf s)
  | NaN _ true _ => Raise ValueError
  | NaN _ false _ => Ok Nan
  end.

End Float.

(** ** [int(s)] *)

Module Int.

Import Str.

(** The white space [int] skips around a number: that of [str.isspace]
    without the separators of code points 28 to 31. *)
Definition isspace (c : ascii) : bool :=
  let n := ord c in
  (((9 <=? n) && (n <=? 13)) || (n =? 32) || (n =? 133) || (n =? 160))%N.

Fixpoint lstrip (s : chars) : chars :=
  match s with
  | c :: s' => if isspace c then lstrip s' else s
  | [] => []
  end.

Definition strip (s : chars) : chars := rev (lstrip (rev (lstrip s))).

Fixpoint digits (s : chars) (acc : N) (after_digit : bool) : option N :=
  match s with
  | [] => if after_digit then Some acc else None
  | c :: r =>
      if isdigit c then digits r (10 * acc + digit_value c)%N true
      else if Ascii.eqb c "_"%char && after_digit then digits r acc false
      else None
  end.

(** [sys.get_int_max_str_digits()] *)
Definition MAX_STR_DIGITS : Z := 4300.

(** [int(s)] for an optional string: [None] raises [TypeError]; a string
    that is not an optional sign and digits (single underscores allowed
    between digits, white space around), or that has more than
    [MAX_STR_DIGITS] digits, raises [ValueError]. *)
Definition of_field (s : option string) : result Z :=
  match s with
  | None => Raise TypeError
  | Some s =>
      let (neg, body) := Dec.parse_sign (strip (of_string s)) in
      match digits body 0%N false with
      | Some n =>
          if MAX_STR_DIGITS <? Z.of_nat (List.length (filter isdigit body))
          then Raise ValueError
          else Ok (if neg then - Z.of_N n else Z.of_N n)
      | None => Raise ValueError
      end
  end.

End Int.

(** ** [datetime.date] and [datetime.datetime] *)

Record date : Type := mkdate { year : Z; month : Z; day : Z }.

Record datetime : Type := mkdatetime {
  dt_date : date;
  hour : Z;
  minute : Z;
  second : Z;
  microsecond : Z
}.

Module Date.

Import Str.

Definition MINYEAR : Z := 1.
Definition MAXYEAR : Z := 9999.

Definition is_leap (y : Z) : bool :=
  (y mod 4 =? 0) && (negb (y mod 100 =? 0) || (y mod 400 =? 0)).

Definition DAYS_IN_MONTH : list Z :=
  [-1; 31; 28; 31; 30; 31; 30; 31; 31; 30; 31; 30; 31].

Definition DAYS_BEFORE_MONTH : list Z :=
  [-1; 0; 31; 59; 90; 120; 151; 181; 212; 243; 273; 304; 334].

Definition days_before_year (y : Z) : Z :=
  let y' := y - 1 in y' * 365 + y' / 4 - y' / 100 + y' / 400.

Definition days_in_month (y m : Z) : Z :=
  if (m =? 2) && is_leap y then 29
  else nth (Z.to_nat m) DAYS_IN_MONTH (-1).

Definition days_before_month (y m : Z) : Z :=
  nth (Z.to_nat m) DAYS_BEFORE_MONTH (-1)
  + (if (2 <? m) && is_leap y then 1 else 0).

(** The checks of the [date] constructor. *)
Definition valid (d : date) : bool :=
  (MINYEAR <=? year d) && (year d <=? MAXYEAR)
  && (1 <=? month d) && (month d <=? 12)
  && (1 <=? day d) && (day d <=? days_in_month (year d) (month d)).

(** [date(y, m, d)] *)
Definition make (y m d : Z) : result date :=
  let r := mkdate y m d in
  if valid r then Ok r else Raise ValueError.

(** [d.toordinal()]: 1 is 0001-01-01. *)
Definition toordinal (d : date) : Z :=
  days_before_year (year d) + days_before_month (year d) (month d) + day d.

Definition DI400Y : Z := days_before_year 401.
Definition DI100Y : Z := days_before_year 101.
Definition DI4Y : Z := days_before_year 5.
Definition MAXORDINAL : Z := toordinal (mkdate 9999 12 31).

(** [date.fromordinal(n)], following [_ord2ymd]. *)
Definition fromordinal (n : Z) : date :=
  let n := n - 1 in
  let n400 := n / DI400Y in
  let n := n mod DI400Y in
  let y := n400 * 400 + 1 in
  let n100 := n / DI100Y in
  let n := n mod DI100Y in
  let n4 := n / DI4Y in
  let n := n mod DI4Y in
  let n1 := n / 365 in
  let n := n mod 365 in
  let y := y + n100 * 100 + n4 * 4 + n1 in
  if (n1 =? 4) || (n100 =? 4) then mkdate (y - 1) 12 31
  else
    let leapyear := (n1 =? 3) && (negb (n4 =? 24) || (n100 =? 3)) in
    let m := Z.shiftr (n + 50) 5 in
    let preceding :=
      nth (Z.to_nat m) DAYS_BEFORE_MONTH (-1)
      + (if (2 <? m) && leapyear then 1 else 0) in
    if n <? preceding then
      let m' := m - 1 in
      let preceding' :=
        preceding
        - (nth (Z.to_nat m') DAYS_IN_MONTH (-1)
           + (if (m' =? 2) && leapyear then 1 else 0)) in
      mkdate y m' (n - preceding' + 1)
    else mkdate y m (n - preceding + 1).

(** [d - timedelta(days=n)] *)
Definition sub_days (d : date) (n : Z) : result date :=
  let o := toordinal d - n in
  if (0 <? o) && (o <=? MAXORDINAL) then Ok (fromordinal o)
  else Raise OverflowError.

(** [d.replace(day=1)] and [d.replace(month=1, day=1)]: the first day of a
    month always passes the constructor's checks when [d] does. *)
Definition replace_day1 (d : date) : date := mkdate (year d) (month d) 1.
Definition replace_month1_day1 (d : date) : date := mkdate (year d) 1 1.

Definition compare (a b : date) : comparison :=
  match year a ?= year b with
  | Eq => match month a ?= month b with
          | Eq => day a ?= day b
          | c => c
          end
  | c => c
  end.

(** [datetime.combine(d, datetime.min.time())] *)
Definition midnight (d : date) : datetime := mkdatetime d 0 0 0 0.

Definition time_compare (a b : datetime) : comparison :=
  match hour a ?= hour b with
  | Eq => match minute a ?= minute b with
          | Eq => match second a ?= second b with
                  | Eq => microsecond a ?= microsecond b
                  | c => c
                  end
          | c => c
          end
  | c => c
  end.

Definition datetime_compare (a b : datetime) : comparison :=
  match compare (dt_date a) (dt_date b) with
  | Eq => time_compare a b
  | c => c
  end.

(** [a >= b] on datetimes. *)
Definition geb (a b : datetime) : bool :=
  match datetime_compare a b with
  | Lt => false
  | _ => true
  end.

(** *** [datetime.strptime(s, "%Y-%m-%d")] *)

Definition in_range (lo hi : ascii) (c : ascii) : bool :=
  ((ord lo <=? ord c) && (ord c <=? ord hi))%N.

Definition dv (c : ascii) : Z := Z.of_N (digit_value c).

(** Four digits and a hyphen. *)
Definition parse_Y (s : chars) : option (Z * chars) :=
  match s with
  | a :: b :: c :: d :: "-"%char :: r =>
      if isdigit a && isdigit b && isdigit c && isdigit d
      then Some (dv a * 1000 + dv b * 100 + dv c * 10 + dv d, r)
      else None
  | _ => None
  end.

(** [1[0-2]|0[1-9]|[1-9]] and a hyphen: the alternatives are tried in
    order until the hyphen follows. *)
Definition parse_m (s : chars) : option (Z * chars) :=
  let alt1 :=
    match s with
    | "1"%char :: b :: "-"%char :: r =>
        if in_range "0" "2" b then Some (10 + dv b, r) else None
    | _ => None
    end in
  let alt2 :=
    match s with
    | "0"%char :: b :: "-"%char :: r =>
        if in_range "1" "9" b then Some (dv b, r) else None
    | _ => None
    end in
  let alt3 :=
    match s with
    | a :: "-"%char :: r =>
        if in_range "1" "9" a then Some (dv a, r) else None
    | _ => None
    end in
  match alt1, alt2 with
  | Some x, _ => Some x
  | None, Some x => Some x
  | None, None => alt3
  end.

(** [3[0-1]|[1-2]\d|0[1-9]|[1-9]| [1-9]]: the first alternative that
    matches is taken, and nothing may remain after it. *)
Definition parse_d (s : chars) : option Z :=
  let first_alt : option (Z * chars) :=
    match s with
    | a :: b :: r =>
        if Ascii.eqb a "3" && in_range "0" "1" b then Some (30 + dv b, r)
        else if in_range "1" "2" a && isdigit b then Some (dv a * 10 + dv b, r)
        else if Ascii.eqb a "0" && in_range "1" "9" b then Some (dv b, r)
        else if in_range "1" "9" a then Some (dv a, b :: r)
        else if Ascii.eqb a " " && in_range "1" "9" b then Some (dv b, r)
        else None
    | [a] => if in_range "1" "9" a then Some (dv a, []) else None
    | [] => None
    end in
  match first_alt with
  | Some (d, []) => Some d
  | _ => None
  end.

(** A string that does not match, leaves unconverted data, or names no
    date raises [ValueError]. *)
Definition strptime_ymd (s : string) : result datetime :=
  match parse_Y (of_string s) with
  | Some (y, r1) =>
      match parse_m r1 with
      | Some (m, r2) =>
          match parse_d r2 with
          | Some d => dt <- make y m d ;; Ok (midnight dt)
          | None => Raise ValueError
          end
      | None => Raise ValueError
      end
  | None => Raise ValueError
  end.

End Date.

(** ** The stored state *)

Module User.
Record t : Type := mk {
  id : Z;
  name : string;
  email : string;
  password_hash : string;
  initial_balance : option Numeric.t;
  created_at : datetime
}.
End User.

Module Category.
Record t : Type := mk {
  id : Z;
  name : string;
  type : string;
  user_id : Z
}.
End Category.

Module Transaction.
Record t : Type := mk {
  id : Z;
  user_id : Z;
  category_id : Z;
  amount : Numeric.t;
  type : string;
  description : option string;
  created_at : datetime
}.
End Transaction.

(** The three relations, and the serial that numbers new transactions. *)
Record Db : Type := mkDb {
  users : list User.t;
  categories : list Category.t;
  transactions : list Transaction.t;
  transactions_id_seq : Z
}.

Definition INT_MAX : Z := 2147483647.

(** ** Requests and responses *)

Inductive http_method : Type := GET | POST.

(** Form and query fields in the order received; [get] returns the first
    value of a key. *)
Definition fields : Type := list (string * string).

Fixpoint get (f : fields) (key : string) : option string :=
  match f with
  | [] => None
  | (k, v) :: f' => if String.eqb k key then Some v else get f' key
  end.

Definition get_default (f : fields) (key : string) (default : string) : string :=
  match get f key with
  | Some v => v
  | None => default
  end.

Inductive endpoint : Type :=
| EpSetupBalance
| EpDashboard
| EpEditTransaction (tx_id : Z).

(** What [dashboard] passes to its template ([recent_transactions] is its
    variable [transactions]). *)
Record DashboardContext : Type := mkDashboardContext {
  balance : Decimal;
  total_income : Decimal;
  total_expense : Decimal;
  recent_transactions : list Transaction.t;
  top_expenses : list Transaction.t;
  expense_labels : list string;
  expense_values : list Float.t;
  income_vs_expense_labels : list string;
  income_vs_expense_values : list Float.t;
  expense_categories : list Category.t;
  income_categories : list Category.t;
  current_period : string;
  today : date
}.

Inductive page : Type :=
| SetupBalancePage
| DashboardPage (ctx : DashboardContext)
| EditTransactionPage (tx : Transaction.t) (cats : list Category.t)
                      (tx_date : date).

(** What a handler answers: a redirect (with the message it flashed, if
    any), a rendered page, the 404 of [first_or_404], the redirect to the
    login page of [login_required], or the 500 of an unhandled exception. *)
Inductive response : Type :=
| Redirect (flashed : option (string * string)) (target : endpoint)
| Render (p : page)
| NotFound
| Unauthorized
| ServerError.

(** ** Queries *)

(** [load_user]: the row of the id held by the session. *)
Definition current_user (db : Db) (uid : Z) : option User.t :=
  find (fun u => User.id u =? uid) (users db).

(** [Category.query.filter_by(id=.., user_id=.., type=..).first()] *)
Definition find_category (db : Db) (cid uid : Z) (ty : string)
  : option Category.t :=
  find (fun c => (Category.id c =? cid) && (Category.user_id c =? uid)
                 && String.eqb (Category.type c) ty)
       (categories db).

(** [Category.query.filter_by(user_id=.., type=..).all()] *)
Definition categories_of (db : Db) (uid : Z) (ty : string)
  : list Category.t :=
  filter (fun c => (Category.user_id c =? uid)
                   && String.eqb (Category.type c) ty)
         (categories db).

(** [Transaction.query.filter_by(id=.., user_id=..).first()] *)
Definition find_transaction (db : Db) (tx_id uid : Z)
  : option Transaction.t :=
  find (fun t => (Transaction.id t =? tx_id) && (Transaction.user_id t =? uid))
       (transactions db).

(** [ORDER BY]: an insertion sort; [before a b] says that [a] may precede
    [b].  SQL leaves the order of rows that compare equal open. *)
Section OrderBy.
Context {A : Type} (before : A -> A -> bool).

Fixpoint insert (x : A) (l : list A) : list A :=
  match l with
  | [] => [x]
  | y :: l' => if before y x then y :: insert x l' else x :: l
  end.

Fixpoint order_by (l : list A) : list A :=
  match l with
  | [] => []
  | x :: l' => insert x (order_by l')
  end.
End OrderBy.

Definition amount_desc (a b : Transaction.t) : bool :=
  Transaction.amount b <=? Transaction.amount a.

Definition created_at_desc (a b : Transaction.t) : bool :=
  Date.geb (Transaction.created_at a) (Transaction.created_at b).

(** [func.sum]: NULL over no rows. *)
Definition sql_sum (l : list Numeric.t) : option Numeric.t :=
  match l with
  | [] => None
  | _ => Some (fold_right Z.add 0 l)
  end.

(** [func.coalesce(func.sum(..), 0)] as the driver returns it. *)
Definition coalesce_sum (l : list Numeric.t) : Decimal :=
  match sql_sum l with
  | Some s => Numeric.load s
  | None => Dec.of_int 0
  end.

(** [GROUP BY Category.name] with [func.sum]; groups are listed in the
    order their first row is met. *)
Fixpoint group_add (key : string) (v : Numeric.t)
                   (groups : list (string * Numeric.t))
  : list (string * Numeric.t) :=
  match groups with
  | [] => [(key, v)]
  | (k, s) :: g =>
      if String.eqb k key then (k, s + v) :: g
      else (k, s) :: group_add key v g
  end.

(** ** [setup_balance] *)

Definition set_initial_balance (db : Db) (uid : Z) (c : Numeric.t) : Db :=
  mkDb
    (map (fun u =>
            if User.id u =? uid
            then User.mk (User.id u) (User.name u) (User.email u)
                         (User.password_hash u) (Some c) (User.created_at u)
            else u)
         (users db))
    (categories db) (transactions db) (transactions_id_seq db).

Definition setup_balance (db : Db) (uid : Z) (method : http_method)
                         (form : fields) : Db * response :=
  match current_user db uid with
  | None => (db, Unauthorized)
  | Some u =>
      match User.initial_balance u with
      | Some _ => (db, Redirect None EpDashboard)
      | None =>
          match method with
          | POST =>
              let amount_raw := get form "initial_balance" in
              match parse_decimal amount_raw with
              | Raise InvalidOperation | Raise TypeError =>
                  (db, Redirect (Some ("Некорректный баланс.", "error"))%string
                                EpSetupBalance)
              | Raise _ => (db, ServerError)
              | Ok amount =>
                  match Numeric.store amount with
                  | Some c =>
                      (set_initial_balance db uid c,
                       Redirect (Some ("Начальный баланс сохранён.",
                                       "success"))%string
                                EpDashboard)
                  | None => (db, ServerError)
                  end
              end
          | GET => (db, Render SetupBalancePage)
          end
      end
  end.

(** ** [dashboard] *)

(** The start of the aggregation window. *)
Definition period_start (period : string) (today : date) : result date :=
  if String.eqb period "week" then Date.sub_days today 7
  else if String.eqb period "month" then Ok (Date.replace_day1 today)
  else if String.eqb period "year" then Ok (Date.replace_month1_day1 today)
  else if String.eqb period "all" then Ok (mkdate 1970 1 1)
  else Ok (Date.replace_day1 today).

(** [Transaction.user_id == user_id, Transaction.created_at >= start_dt] *)
Definition in_window (uid : Z) (start_dt : datetime) (t : Transaction.t)
  : bool :=
  (Transaction.user_id t =? uid)
  && Date.geb (Transaction.created_at t) start_dt.

(** The filter of the two totals and of the breakdown. *)
Definition typed_in_window (uid : Z) (ty : string) (start_dt : datetime)
                           (t : Transaction.t) : bool :=
  (Transaction.user_id t =? uid)
  && String.eqb (Transaction.type t) ty
  && Date.geb (Transaction.created_at t) start_dt.

Definition total_of (db : Db) (uid : Z) (ty : string) (start_dt : datetime)
  : Decimal :=
  coalesce_sum
    (map Transaction.amount
         (filter (typed_in_window uid ty start_dt) (transactions db))).

(** Expense sums by category name, over the join with the categories (the
    category of a transaction is the one of its [category_id]: ids are
    primary keys). *)
Definition expense_breakdown (db : Db) (uid : Z) (start_dt : datetime)
  : list (string * Numeric.t) :=
  fold_left
    (fun groups t =>
       match find (fun c => Category.id c =? Transaction.category_id t)
                  (categories db) with
       | Some c => group_add (Category.name c) (Transaction.amount t) groups
       | None => groups
       end)
    (filter (typed_in_window uid "expense" start_dt) (transactions db))
    [].

(** [[f(x) for x in l]], which stops at the first exception. *)
Fixpoint map_result {A B : Type} (f : A -> result B) (l : list A)
  : result (list B) :=
  match l with
  | [] => Ok []
  | x :: l' => y <- f x ;; ys <- map_result f l' ;; Ok (y :: ys)
  end.

(** [expense_values] and [income_vs_expense_values]: the sums of the
    breakdown, which the driver returns as decimals, and the two totals,
    each passed to [float]. *)
Definition chart_values (expense_rows : list (string * Numeric.t))
                        (income_or_0 expense_or_0 : Decimal)
  : result (list Float.t * list Float.t) :=
  expense_values <-
    map_result (fun row => Float.of_decimal (Numeric.load (snd row)))
               expense_rows ;;
  income <- Float.of_decimal income_or_0 ;;
  expense <- Float.of_decimal expense_or_0 ;;
  Ok (expense_values, [income; expense]).

Definition dashboard (db : Db) (uid : Z) (args : fields) (today : date)
  : Db * response :=
  match current_user db uid with
  | None => (db, Unauthorized)
  | Some u =>
      match User.initial_balance u with
      | None => (db, Redirect None EpSetupBalance)
      | Some ib =>
          let period := get_default args "period" "month" in
          match period_start period today with
          | Raise _ => (db, ServerError)
          | Ok start_date =>
              let start_dt := Date.midnight start_date in
              let base_query :=
                filter (in_window uid start_dt) (transactions db) in
              let txs := firstn 50 (order_by created_at_desc base_query) in
              let total_income := total_of db uid "income" start_dt in
              let total_expense := total_of db uid "expense" start_dt in
              let initial :=
                Dec.or_else (Numeric.load ib) (Finite false 0 0) in
              let income_or_0 := Dec.or_else total_income (Dec.of_int 0) in
              let expense_or_0 := Dec.or_else total_expense (Dec.of_int 0) in
              match (b <- Dec.add initial income_or_0 ;;
                     Dec.sub b expense_or_0) with
              | Raise _ => (db, ServerError)
              | Ok balance =>
                  let expense_rows := expense_breakdown db uid start_dt in
                  match chart_values expense_rows income_or_0
                                     expense_or_0 with
                  | Raise _ => (db, ServerError)
                  | Ok (expense_values, income_vs_expense_values) =>
                      let top :=
                        firstn 5
                          (order_by amount_desc
                             (filter (fun t =>
                                        String.eqb (Transaction.type t)
                                                   "expense")
                                     base_query)) in
                      (db,
                       Render (DashboardPage
                         (mkDashboardContext
                            balance total_income total_expense txs top
                            (map fst expense_rows) expense_values
                            ["Доходы"; "Расходы"]%string
                            income_vs_expense_values
                            (categories_of db uid "expense")
                            (categories_of db uid "income")
                            period today)))
                  end
              end
          end
      end
  end.

(** ** [add_transaction], [edit_transaction], [delete_transaction] *)

(** [parse_decimal] followed by the test [amount <= 0]; both failures are
    the [InvalidOperation] the handlers catch. *)
Definition positive_amount (amount_raw : option string) : result Decimal :=
  amount <- parse_decimal amount_raw ;;
  nonpos <- Dec.le_zero amount ;;
  if (nonpos : bool) then Raise InvalidOperation else Ok amount.

(** [request.form.get("description", "").strip()], then [description or None] *)
Definition description_of (form : fields) : option string :=
  match Str.strip (Str.of_string (get_default form "description" "")) with
  | [] => None
  | d => Some (string_of_list_ascii d)
  end.

(** The date of the form, or [fallback] when it is missing, empty or
    unparseable. *)
Definition date_of (form : fields) (fallback : datetime) : datetime :=
  match get form "date" with
  | None => fallback
  | Some EmptyString => fallback
  | Some date_str =>
      match Date.strptime_ymd date_str with
      | Ok d => d
      | Raise _ => fallback
      end
  end.

Definition add_transaction (db : Db) (uid : Z) (form : fields)
                           (utcnow : datetime) : Db * response :=
  match current_user db uid with
  | None => (db, Unauthorized)
  | Some u =>
      let type_ := get_default form "type" "expense" in
      let amount_raw := get form "amount" in
      let category_id := get form "category_id" in
      let description := description_of form in
      match positive_amount amount_raw with
      | Raise InvalidOperation | Raise TypeError =>
          (db, Redirect (Some ("Некорректная сумма.", "error"))%string
                        EpDashboard)
      | Raise _ => (db, ServerError)
      | Ok amount =>
          let date_obj := date_of form utcnow in
          match Int.of_field category_id with
          | Raise TypeError | Raise ValueError =>
              (db, Redirect (Some ("Категория не выбрана.", "error"))%string
                            EpDashboard)
          | Raise _ => (db, ServerError)
          | Ok category_id_int =>
              match find_category db category_id_int (User.id u) type_ with
              | None =>
                  (db, Redirect (Some ("Категория не найдена.",
                                       "error"))%string
                                EpDashboard)
              | Some category =>
                  let new_id := transactions_id_seq db + 1 in
                  match Numeric.store amount with
                  | Some c =>
                      if new_id <=? INT_MAX then
                        let tx :=
                          Transaction.mk new_id (User.id u)
                            (Category.id category) c type_ description
                            date_obj in
                        (mkDb (users db) (categories db)
                              (transactions db ++ [tx]) new_id,
                         Redirect (Some ("Операция добавлена.",
                                         "success"))%string
                                  EpDashboard)
                      else (db, ServerError)
                  | None => (db, ServerError)
                  end
              end
          end
      end
  end.

(** [UPDATE transactions SET .. WHERE id = ..]: the store writes the new
    version of the row as a new tuple, which a query without [ORDER BY]
    meets after the rows that were there. *)
Definition update_transaction (db : Db) (tx : Transaction.t) : Db :=
  mkDb (users db) (categories db)
       (filter (fun t => negb (Transaction.id t =? Transaction.id tx))
               (transactions db)
        ++ [tx])
       (transactions_id_seq db).

(** [DELETE FROM transactions WHERE id = ..] *)
Definition remove_transaction (db : Db) (tx_id : Z) : Db :=
  mkDb (users db) (categories db)
       (filter (fun t => negb (Transaction.id t =? tx_id)) (transactions db))
       (transactions_id_seq db).

Definition edit_transaction (db : Db) (uid : Z) (tx_id : Z)
                            (method : http_method) (form : fields)
  : Db * response :=
  match current_user db uid with
  | None => (db, Unauthorized)
  | Some u =>
      match find_transaction db tx_id (User.id u) with
      | None => (db, NotFound)
      | Some tx =>
          match method with
          | POST =>
              let type_ := get_default form "type" (Transaction.type tx) in
              let amount_raw := get form "amount" in
              let category_id := get form "category_id" in
              let description := description_of form in
              let back := EpEditTransaction (Transaction.id tx) in
              match positive_amount amount_raw with
              | Raise InvalidOperation | Raise TypeError =>
                  (db, Redirect (Some ("Некорректная сумма.",
                                       "error"))%string back)
              | Raise _ => (db, ServerError)
              | Ok amount =>
                  let date_obj := date_of form (Transaction.created_at tx) in
                  match Int.of_field category_id with
                  | Raise TypeError | Raise ValueError =>
                      (db, Redirect (Some ("Категория не выбрана.",
                                           "error"))%string back)
                  | Raise _ => (db, ServerError)
                  | Ok category_id_int =>
                      match find_category db category_id_int (User.id u)
                                          type_ with
                      | None =>
                          (db, Redirect (Some ("Категория не найдена.",
                                               "error"))%string back)
                      | Some category =>
                          match Numeric.store amount with
                          | Some c =>
                              let tx' :=
                                Transaction.mk (Transaction.id tx)
                                  (Transaction.user_id tx)
                                  (Category.id category) c type_
                                  description date_obj in
                              (update_transaction db tx',
                               Redirect (Some ("Операция обновлена.",
                                               "success"))%string
                                        EpDashboard)
                          | None => (db, ServerError)
                          end
                      end
                  end
              end
          | GET =>
              match find (fun c => Category.id c =? Transaction.category_id tx)
                         (categories db) with
              | None => (db, ServerError)
              | Some cat =>
                  let cats :=
                    if String.eqb (Category.type cat) "expense"
                    then categories_of db (User.id u) "expense"
                    else categories_of db (User.id u) "income" in
                  (db, Render (EditTransactionPage tx cats
                                 (dt_date (Transaction.created_at tx))))
              end
          end
      end
  end.

Definition delete_transaction (db : Db) (uid : Z) (tx_id : Z)
  : Db * response :=
  match current_user db uid with
  | None => (db, Unauthorized)
  | Some u =>
      match find_transaction db tx_id (User.id u) with
      | None => (db, NotFound)
      | Some tx =>
          (remove_transaction db (Transaction.id tx),
           Redirect (Some ("Операция удалена.", "info"))%string EpDashboard)
      end
  end.

(** ** The constraints of the schema *)

Fixpoint nodupb (l : list Z) : bool :=
  match l with
  | [] => true
  | x :: l' => negb (existsb (Z.eqb x) l') && nodupb l'
  end.

Definition in_rangeb (c : Numeric.t) : bool :=
  (- Numeric.limit <? c) && (c <? Numeric.limit).

(** Primary keys are unique, transaction ids come from the 32-bit serial,
    and every [Numeric(14, 2)] value is within the column's range. *)
Definition db_wf (db : Db) : bool :=
  nodupb (map User.id (users db))
  && nodupb (map Category.id (categories db))
  && nodupb (map Transaction.id (transactions db))
  && forallb (fun t => (1 <=? Transaction.id t)
                       && (Transaction.id t <=? transactions_id_seq db))
             (transactions db)
  && (0 <=? transactions_id_seq db)
  && (transactions_id_seq db <=? INT_MAX)
  && forallb (fun t => in_rangeb (Transaction.amount t)) (transactions db)
  && forallb (fun u => match User.initial_balance u with
                       | Some b => in_rangeb b
                       | None => true
                       end)
             (users db).

(** ** A sample account *)

Module Sample.

Open Scope string_scope.

Definition epoch : datetime := Date.midnight (mkdate 2026 10 1).

(** Two freshly registered users with the default categories. *)
Definition anna : User.t :=
  User.mk 1 "Anna" "anna@example.org" "pbkdf2" None epoch.

Definition boris : User.t :=
  User.mk 2 "Boris" "boris@example.org" "pbkdf2" None epoch.

Definition defaults (first_id uid : Z) : list Category.t :=
  [Category.mk first_id "Еда" "expense" uid;
   Category.mk (first_id + 1) "Транспорт" "expense" uid;
   Category.mk (first_id + 2) "Развлечения" "expense" uid;
   Category.mk (first_id + 3) "Аренда" "expense" uid;
   Category.mk (first_id + 4) "Подписки" "expense" uid;
   Category.mk (first_id + 5) "Другое" "expense" uid;
   Category.mk (first_id + 6) "Зарплата" "income" uid;
   Category.mk (first_id + 7) "Фриланс" "income" uid;
   Category.mk (first_id + 8) "Подарки" "income" uid].

Definition registered : Db :=
  mkDb [anna; boris] (defaults 1 1 ++ defaults 10 2) [] 0.

Definition today : date := mkdate 2026 11 3.
Definition now : datetime := mkdatetime today 13 48 0 0.

Definition with_balance : Db :=
  fst (setup_balance registered 1 POST [("initial_balance", "1000.00")]).

Definition anna' : User.t :=
  User.mk 1 "Anna" "anna@example.org" "pbkdf2" (Some 100000) epoch.

Definition after_expense : Db :=
  fst (add_transaction with_balance 1
         [("type", "expense"); ("amount", "200.00"); ("category_id", "1");
          ("description", "lunch"); ("date", "2026-11-02")] now).

Definition after_income : Db :=
  fst (add_transaction after_expense 1
         [("type", "income"); ("amount", "500,00"); ("category_id", "7");
          ("description", ""); ("date", "")] now).

(** The second user sets a zero balance and records an expense. *)
Definition shared : Db :=
  fst (add_transaction
         (fst (setup_balance after_income 2 POST [("initial_balance", "0")]))
         2
         [("type", "expense"); ("amount", "75.50"); ("category_id", "10")]
         now).

(** Six more expenses of the first user, after the two of [shared]. *)
Definition expense_form (amount category day : string) : fields :=
  [("type", "expense"); ("amount", amount); ("category_id", category);
   ("date", "2026-11-" ++ day)].

Definition busy : Db :=
  fold_left (fun db form => fst (add_transaction db 1 form now))
    [expense_form "15,00" "2" "01"; expense_form "1 250,00" "4" "01";
     expense_form "9.99" "5" "02"; expense_form "310" "3" "02";
     expense_form "42.50" "1" "03"; expense_form "200.00" "6" "03"]
    shared.

(** An expense dated before 1970, recorded on an account with a balance. *)
Definition with_old_expense : Db :=
  fst (add_transaction with_balance 1
         [("type", "expense"); ("amount", "10"); ("category_id", "1");
          ("date", "1969-12-31")] now).

End Sample.

(** ** Sequences of requests *)

Inductive request : Type :=
| ReqSetupBalance (method : http_method) (form : fields)
| ReqDashboard (args : fields) (today : date)
| ReqAddTransaction (form : fields) (utcnow : datetime)
| ReqEditTransaction (tx_id : Z) (method : http_method) (form : fields)
| ReqDeleteTransaction (tx_id : Z).

(** One request of the user [uid]. *)
Definition handle (db : Db) (uid : Z) (r : request) : Db * response :=
  match r with
  | ReqSetupBalance method form => setup_balance db uid method form
  | ReqDashboard args today => dashboard db uid args today
  | ReqAddTransaction form utcnow => add_transaction db uid form utcnow
  | ReqEditTransaction tx_id method form =>
      edit_transaction db uid tx_id method form
  | ReqDeleteTransaction tx_id => delete_transaction db uid tx_id
  end.

(** The store after a sequence of requests, each by some user. *)
Fixpoint run (db : Db) (reqs : list (Z * request)) : Db :=
  match reqs with
  | [] => db
  | (uid, r) :: reqs' => run (fst (handle db uid r)) reqs'
  end.

(** ** Notions used by the statements *)

(** The value of a decimal is at most zero. *)
Definition nonpositive (d : Decimal) : Prop :=
  match d with
  | Finite s c _ => Dec.signed s c <= 0
  | Infinity s => s = true
  | NaN _ _ _ => False
  end.

(** A category with this id exists and belongs to the user, but its stored
    type is not [ty]. *)
Definition category_mismatch (db : Db) (uid cid : Z) (ty : string) : Prop :=
  exists c, In c (categories db) /\ Category.id c = cid
            /\ Category.user_id c = uid /\ Category.type c <> ty.

(** No category has this id. *)
Definition category_missing (db : Db) (cid : Z) : Prop :=
  forall c, In c (categories db) -> Category.id c <> cid.

(** The plain numeric form of a string: its spaces removed, its commas
    turned into periods. *)
Definition plain (raw : string) : string :=
  string_of_list_ascii
    (Str.replace ","%char ["."%char]
       (Str.replace " "%char [] (Str.of_string raw))).

(** [Decimal(s)] *)
Definition Decimal_of_string (s : string) : result Decimal :=
  Dec.of_chars (Str.of_string s).

(** The characters of an optional minus sign. *)
Definition sign_chars (neg : bool) : Str.chars :=
  if neg then ["-"%char] else [].

Definition all_digits (s : Str.chars) : Prop :=
  forallb Str.isdigit s = true.

(** The expense transactions of a user from [start_dt] on. *)
Definition expenses_in_window (db : Db) (uid : Z) (start_dt : datetime)
  : list Transaction.t :=
  filter (fun t => (Transaction.user_id t =? uid)
                   && String.eqb (Transaction.type t) "expense"
                   && Date.geb (Transaction.created_at t) start_dt)
         (transactions db).

(** [a] may precede [b] in a list sorted by amount, largest first. *)
Definition amount_ge (a b : Transaction.t) : Prop :=
  Transaction.amount b <= Transaction.amount a.

(** The sum, in hundredths, of the amounts of a user's transactions of one
    type from [start_dt] on; zero when there is none. *)
Definition total_cents (db : Db) (uid : Z) (ty : string) (start_dt : datetime)
  : Z :=
  fold_right Z.add 0
    (map Transaction.amount
       (filter (fun t => (Transaction.user_id t =? uid)
                         && String.eqb (Transaction.type t) ty
                         && Date.geb (Transaction.created_at t) start_dt)
               (transactions db))).

(** A decimal as the store hands it to the handler: exponent -2 (a column
    value or a sum) or 0 (the literal zero), worth [v] hundredths. *)
Definition worth (d : Decimal) (v : Z) : Prop :=
  exists s c e, d = Finite s c e /\ (e = -2 \/ e = 0)
                /\ Dec.signed s c * 10 ^ (e + 2) = v.

(** A decimal that is neither an infinity nor a NaN. *)
Definition finite (d : Decimal) : Prop :=
  exists s c e, d = Finite s c e.

(** No sum over a table can reach this many hundredths: at most [INT_MAX]
    rows, each below the column's limit. *)
Definition TOTAL_BOUND : Z := INT_MAX * Numeric.limit.

(** The first coefficient the decimal context would round. *)
Definition PREC_BOUND : Z := 10 ^ Dec.prec.

Definition flash_bad_amount : option (string * string) :=
  Some ("Некорректная сумма.", "error")%string.

Definition flash_category_not_found : option (string * string) :=
  Some ("Категория не найдена.", "error")%string.

Definition flash_balance_saved : option (string * string) :=
  Some ("Начальный баланс сохранён.", "success")%string.

Definition flash_added : option (string * string) :=
  Some ("Операция добавлена.", "success")%string.

Definition flash_updated : option (string * string) :=
  Some ("Операция обновлена.", "success")%string.

(** ** Decimals as text *)

Module DecText.

Import Str.

(** [str(n)] for a natural number. *)
Fixpoint of_N_fuel (fuel : nat) (n : N) (acc : chars) : chars :=
  match fuel with
  | O => acc
  | S fuel' =>
      let acc' := ascii_of_N (48 + n mod 10) :: acc in
      if (n <? 10)%N then acc' else of_N_fuel fuel' (n / 10)%N acc'
  end.

Definition of_N (n : N) : chars :=
  of_N_fuel (S (N.to_nat (N.size n))) n [].

Definition sign_str (s : bool) : chars := if s then ["-"%char] else [].

Definition zeros (k : Z) : chars := repeat "0"%char (Z.to_nat k).

(** The diagnostic digits of a NaN: none for zero. *)
Definition payload (p : N) : chars := if (p =? 0)%N then [] else of_N p.

(** ["%+d" % k] *)
Definition signed_str (k : Z) : chars :=
  (if k <? 0 then "-"%char else "+"%char) :: of_N (Z.abs_N k).

(** [str(d)]: plain notation when the exponent is at most zero and the
    number has more than -6 digits left of the point, scientific notation
    otherwise. *)
Definition to_str (d : Decimal) : chars :=
  match d with
  | Infinity s => sign_str s ++ of_string "Infinity"
  | NaN s false p => sign_str s ++ of_string "NaN" ++ payload p
  | NaN s true p => sign_str s ++ of_string "sNaN" ++ payload p
  | Finite s c e =>
      let digits := of_N c in
      let n := Z.of_nat (List.length digits) in
      let leftdigits := e + n in
      let dotplace :=
        if (e <=? 0) && (-6 <? leftdigits) then leftdigits else 1 in
      let intpart :=
        if dotplace <=? 0 then ["0"%char]
        else if n <=? dotplace then digits ++ zeros (dotplace - n)
        else firstn (Z.to_nat dotplace) digits in
      let fracpart :=
        if dotplace <=? 0 then "."%char :: zeros (- dotplace) ++ digits
        else if n <=? dotplace then []
        else "."%char :: skipn (Z.to_nat dotplace) digits in
      let exp :=
        if leftdigits =? dotplace then []
        else "E"%char :: signed_str (leftdigits - dotplace) in
      sign_str s ++ intpart ++ fracpart ++ exp
  end.

(** [_rescale(exp, ROUND_HALF_EVEN)] on a finite decimal: the coefficient
    at the exponent [exp], padded with zeros or rounded, ties to even. *)
Definition rescale (c : N) (e exp : Z) : N :=
  if (c =? 0)%N then 0%N
  else if exp <=? e then (c * 10 ^ Z.to_N (e - exp))%N
  else
    let p := (10 ^ Z.to_N (exp - e))%N in
    let q := (c / p)%N in
    let r := (c mod p)%N in
    if ((p <? 2 * r) || ((2 * r =? p) && N.odd q))%N then (q + 1)%N else q.

(** [d.quantize(Decimal("0.01"))] in the default context: a signaling NaN,
    an infinity, and a result of more than [prec] digits raise
    [InvalidOperation]; a quiet NaN is returned.  (A number beyond [Emax] has
    too many digits as well.) *)
Definition quantize_cents (d : Decimal) : result Decimal :=
  match d with
  | NaN _ true _ => Raise InvalidOperation
  | NaN s false p => Ok (NaN s false (p mod 10 ^ Z.to_N Dec.prec)%N)
  | Infinity _ => Raise InvalidOperation
  | Finite s c e =>
      if (c =? 0)%N then Ok (Finite s 0 (-2))
      else
        let adjusted := e + Dec.ndigits c - 1 in
        if Dec.prec <? adjusted + 2 + 1 then Raise InvalidOperation
        else
          let c' := rescale c e (-2) in
          if Dec.prec <? Dec.ndigits c' then Raise InvalidOperation
          else Ok (Finite s c' (-2))
  end.

(** The digits [ds] in groups of three from the right, separated by
    commas; [rev_ds] is [ds] reversed and [n] counts the digits of the
    current group. *)
Fixpoint group_rev (rev_ds : chars) (n : nat) : chars :=
  match rev_ds with
  | [] => []
  | c :: r =>
      match n with
      | 3%nat => ","%char :: c :: group_rev r 1
      | _ => c :: group_rev r (S n)
      end
  end.

Definition insert_thousands_sep (ds : chars) : chars :=
  rev (group_rev (rev ds) 0).

(** The two digits of a number below 100. *)
Definition two_digits (n : N) : chars :=
  [ascii_of_N (48 + n / 10); ascii_of_N (48 + n mod 10)].

(** [format(d, ",.2f")]: the number rescaled to two decimals, its integer
    part grouped by thousands. *)
Definition format_comma_2f (d : Decimal) : chars :=
  match d with
  | Finite s c e =>
      let c' := rescale c e (-2) in
      sign_str s ++ insert_thousands_sep (of_N (c' / 100))
      ++ "."%char :: two_digits (c' mod 100)
  | _ => to_str d
  end.

End DecText.

(** ** [currency_filter] *)

(** The values the templates hand to the filter. *)
Inductive py_value : Type :=
| PyNone
| PyDecimal (d : Decimal)
| PyInt (n : Z).

(** The ruble sign, as the bytes of its UTF-8 encoding. *)
Definition ruble_suffix : string := " ₽".

(** The [try] block of the filter, for a decimal. *)
Definition currency_of_decimal (value : Decimal) : string :=
  match DecText.quantize_cents value with
  | Ok value =>
      let s := DecText.format_comma_2f value in
      let s :=
        Str.replace "."%char [","%char]
          (Str.replace ","%char [" "%char] s) in
      string_of_list_ascii s ++ ruble_suffix
  | Raise _ => string_of_list_ascii (DecText.to_str value)
  end.

(** An integer goes through [Decimal(str(value))]. *)
Definition currency_filter (value : py_value) : string :=
  match value with
  | PyNone => "0,00 ₽"
  | PyDecimal d => currency_of_decimal d
  | PyInt n => currency_of_decimal (Dec.of_int n)
  end.

(** What survives the filter's two replacements followed by the two of
    [parse_decimal]: everything but commas and spaces. *)
Definition kept (c : ascii) : bool :=
  negb (Ascii.eqb c ",") && negb (Ascii.eqb c " ").

(** ** Accounts: [register], [login], [logout], [index] *)

Module Text.

(** [str.lower] on one character (code points below 256): the letters A-Z
    and the capital letters of Latin-1 move up by 32. *)
Definition lower_char (c : ascii) : ascii :=
  let n := Str.ord c in
  if (((65 <=? n) && (n <=? 90)) || ((192 <=? n) && (n <=? 214))
      || ((216 <=? n) && (n <=? 222)))%N
  then ascii_of_N (n + 32) else c.

(** [s.lower()] *)
Definition lower (s : string) : string :=
  string_of_list_ascii (map lower_char (Str.of_string s)).

(** [s.strip()] *)
Definition strip (s : string) : string :=
  string_of_list_ascii (Str.strip (Str.of_string s)).

End Text.

(** The store together with the serials of the other two tables. *)
Record Site : Type := mkSite {
  store : Db;
  users_id_seq : Z;
  categories_id_seq : Z
}.

Definition with_store (site : Site) (db : Db) : Site :=
  mkSite db (users_id_seq site) (categories_id_seq site).

(** The user id kept in the session cookie, if any. *)
Definition session : Type := option Z.

(** [current_user.is_authenticated]: the session names a user that
    [load_user] finds. *)
Definition is_authenticated (site : Site) (s : session) : bool :=
  match s with
  | Some uid =>
      match current_user (store site) uid with
      | Some _ => true
      | None => false
      end
  | None => false
  end.

Inductive view : Type :=
| ViewLogin
| ViewRegister
| ViewDashboard
| ViewSetupBalance.

Inductive template : Type :=
| RegisterHtml
| LoginHtml.

Inductive account_response : Type :=
| Goto (flashed : option (string * string)) (target : view)
| Rendered (page : template)
| LoginRequired
| Failure.

(** The names and types of [create_default_categories]. *)
Definition defaults : list (string * string) :=
  [("Еда", "expense"); ("Транспорт", "expense"); ("Развлечения", "expense");
   ("Аренда", "expense"); ("Подписки", "expense"); ("Другое", "expense");
   ("Зарплата", "income"); ("Фриланс", "income"); ("Подарки", "income")]%string.

(** The rows [create_default_categories] adds for a user, numbered by the
    serial from [seq + 1] on in the order they are added. *)
Fixpoint number_categories (uid : Z) (seq : Z) (l : list (string * string))
  : list Category.t :=
  match l with
  | [] => []
  | (name, type_) :: l' =>
      Category.mk (seq + 1) name type_ uid :: number_categories uid (seq + 1) l'
  end.

Definition create_default_categories (uid : Z) (seq : Z) : list Category.t :=
  number_categories uid seq defaults.

(** [request.form.get("name", "").strip()] *)
Definition name_of (form : fields) : string :=
  Text.strip (get_default form "name" "").

(** [request.form.get("email", "").strip().lower()] *)
Definition email_of (form : fields) : string :=
  Text.lower (Text.strip (get_default form "email" "")).

(** [User.query.filter_by(email=email).first()] *)
Definition find_user_by_email (db : Db) (email : string) : option User.t :=
  find (fun u => String.eqb (User.email u) email) (users db).

Section Passwords.

(** werkzeug's [generate_password_hash], which salts its result (the salt
    is an input here) and writes no space into it, and
    [check_password_hash]; and the value of the column default
    [datetime.now(timezone.utc)], computed once when the model class is
    defined. *)
Variable generate_password_hash : string -> string -> string.
Variable check_password_hash : string -> string -> bool.
Variable boot : datetime.

(** The debugging [print] of the mismatch branch goes to standard output,
    which is not part of the state.  The columns are [String(120)],
    [String(255)] and [String(255)]: a longer value fails the insert. *)
Definition register (site : Site) (s : session) (method : http_method)
                    (form : fields) (salt : string)
  : Site * session * account_response :=
  if is_authenticated site s then (site, s, Goto None ViewDashboard)
  else
    match method with
    | POST =>
        let name := name_of form in
        let email := email_of form in
        let password := get_default form "password" "" in
        let confirm := get_default form "confirm" "" in
        if String.eqb name "" || String.eqb email ""
           || String.eqb password "" then
          (site, s,
           Goto (Some ("Заполните все обязательные поля.", "error"))%string
                ViewRegister)
        else if negb (String.eqb password confirm) then
          (site, s,
           Goto (Some ("Паролы не совпадают.", "error"))%string ViewRegister)
        else
          match find_user_by_email (store site) email with
          | Some existing =>
              (site, s,
               Goto (Some ("Пользователь с таким e-mail уже существует.",
                           "error"))%string ViewRegister)
          | None =>
              let db := store site in
              let uid := users_id_seq site + 1 in
              let password_hash := generate_password_hash password salt in
              let user := User.mk uid name email password_hash None boot in
              let cats :=
                create_default_categories uid (categories_id_seq site) in
              let last_cat :=
                categories_id_seq site + Z.of_nat (List.length cats) in
              if (Z.of_nat (String.length name) <=? 120)
                 && (Z.of_nat (String.length email) <=? 255)
                 && (Z.of_nat (String.length password_hash) <=? 255)
                 && (uid <=? INT_MAX) && (last_cat <=? INT_MAX)
              then
                (mkSite
                   (mkDb (users db ++ [user]) (categories db ++ cats)
                         (transactions db) (transactions_id_seq db))
                   uid last_cat,
                 Some uid,
                 Goto (Some ("Аккаунт создан.", "success"))%string
                      ViewDashboard)
              else (site, s, Failure)
          end
    | GET => (site, s, Rendered RegisterHtml)
    end.

(** What [register] does: nothing to the site and the session, or the one
    insert of a user and the nine categories. *)
Inductive registration (site : Site) (s : session) (form : fields)
                     (salt : string)
  : Site * session * account_response -> Prop :=
| RegisterNothing (resp : account_response) :
    resp <> Goto (Some ("Аккаунт создан.", "success"))%string ViewDashboard ->
    registration site s form salt (site, s, resp)
| RegisterInsert :
    let name := name_of form in
    let email := email_of form in
    let password := get_default form "password" "" in
    let uid := users_id_seq site + 1 in
    let cats := create_default_categories uid (categories_id_seq site) in
    is_authenticated site s = false ->
    name <> ""%string -> email <> ""%string -> password <> ""%string ->
    password = get_default form "confirm" "" ->
    find_user_by_email (store site) email = None ->
    uid <= INT_MAX -> categories_id_seq site + 9 <= INT_MAX ->
    registration site s form salt
      (mkSite
         (mkDb (users (store site)
                ++ [User.mk uid name email
                      (generate_password_hash password salt) None boot])
               (categories (store site) ++ cats)
               (transactions (store site))
               (transactions_id_seq (store site)))
         uid (categories_id_seq site + 9),
       Some uid,
       Goto (Some ("Аккаунт создан.", "success"))%string ViewDashboard).

Definition login (site : Site) (s : session) (method : http_method)
                 (form : fields) : session * account_response :=
  if is_authenticated site s then (s, Goto None ViewDashboard)
  else
    match method with
    | POST =>
        let email := email_of form in
        let password := get_default form "password" "" in
        match find_user_by_email (store site) email with
        | Some user =>
            if check_password_hash (User.password_hash user) password then
              (Some (User.id user),
               Goto (Some ("Добро пожаловать!", "success"))%string
                    ViewSetupBalance)
            else
              (s, Goto (Some ("Неверный логин или пароль.", "error"))%string
                       ViewLogin)
        | None =>
            (s, Goto (Some ("Неверный логин или пароль.", "error"))%string
                     ViewLogin)
        end
    | GET => (s, Rendered LoginHtml)
    end.

Definition logout (site : Site) (s : session) : session * account_response :=
  if is_authenticated site s then
    (None, Goto (Some ("Вы вышли из аккаунта.", "info"))%string ViewLogin)
  else (s, LoginRequired).

Definition index (site : Site) (s : session) : account_response :=
  if is_authenticated site s then Goto None ViewDashboard
  else Goto None ViewLogin.

(** *** All routes *)

Inductive http_request : Type :=
| GetIndex
| Register (method : http_method) (form : fields) (salt : string)
| Login (method : http_method) (form : fields)
| Logout
| Protected (r : request).

(** One request: the routes under [login_required] run for the user of the
    session. *)
Definition serve (site : Site) (s : session) (req : http_request)
  : Site * session * (account_response + response) :=
  match req with
  | GetIndex => (site, s, inl (index site s))
  | Register method form salt =>
      let '(site', s', resp) := register site s method form salt in
      (site', s', inl resp)
  | Login method form =>
      let (s', resp) := login site s method form in (site, s', inl resp)
  | Logout => let (s', resp) := logout site s in (site, s', inl resp)
  | Protected r =>
      match s with
      | Some uid =>
          let (db', resp) := handle (store site) uid r in
          (with_store site db', s, inr resp)
      | None => (site, s, inr Unauthorized)
      end
  end.

(** A browser's requests in turn, with its cookie. *)
Fixpoint browse (site : Site) (s : session) (reqs : list http_request)
  : Site * session :=
  match reqs with
  | [] => (site, s)
  | req :: reqs' =>
      let '(site', s', _) := serve site s req in browse site' s' reqs'
  end.

(** The requests of several browsers, interleaved: each request comes with
    the cookie it was sent with. *)
Fixpoint serve_all (site : Site) (reqs : list (session * http_request))
  : Site :=
  match reqs with
  | [] => site
  | (s, req) :: reqs' =>
      let '(site', _, _) := serve site s req in serve_all site' reqs'
  end.

End Passwords.

(** ** Constraints and references of a site *)

Fixpoint nodup_strings (l : list string) : bool :=
  match l with
  | [] => true
  | x :: l' => negb (existsb (String.eqb x) l') && nodup_strings l'
  end.

(** Keys handed out by a serial that has reached [seq]. *)
Definition ids_within (ids : list Z) (seq : Z) : bool :=
  forallb (fun i => (1 <=? i) && (i <=? seq)) ids.

(** The constraints of the whole schema: those of [db_wf], the serials of
    users and categories, and the unique e-mail. *)
Definition site_wf (site : Site) : bool :=
  db_wf (store site)
  && ids_within (map User.id (users (store site))) (users_id_seq site)
  && (0 <=? users_id_seq site) && (users_id_seq site <=? INT_MAX)
  && ids_within (map Category.id (categories (store site)))
                (categories_id_seq site)
  && (0 <=? categories_id_seq site) && (categories_id_seq site <=? INT_MAX)
  && nodup_strings (map User.email (users (store site))).

(** The part of [site_wf] that is about keys: primary keys are unique and
    were handed out by their serials, the serials are within 32 bits, and
    e-mails are unique. *)
Definition keys_wf (site : Site) : bool :=
  let db := store site in
  nodupb (map User.id (users db))
  && nodupb (map Category.id (categories db))
  && nodupb (map Transaction.id (transactions db))
  && ids_within (map Transaction.id (transactions db))
                (transactions_id_seq db)
  && (0 <=? transactions_id_seq db) && (transactions_id_seq db <=? INT_MAX)
  && ids_within (map User.id (users db)) (users_id_seq site)
  && (0 <=? users_id_seq site) && (users_id_seq site <=? INT_MAX)
  && ids_within (map Category.id (categories db)) (categories_id_seq site)
  && (0 <=? categories_id_seq site) && (categories_id_seq site <=? INT_MAX)
  && nodup_strings (map User.email (users db)).

Definition known_user (db : Db) (uid : Z) : bool :=
  existsb (fun u => User.id u =? uid) (users db).

(** The category of a transaction exists, belongs to the owner of the
    transaction and has its type. *)
Definition owned_category (db : Db) (t : Transaction.t) : bool :=
  existsb (fun c => (Category.id c =? Transaction.category_id t)
                    && (Category.user_id c =? Transaction.user_id t)
                    && String.eqb (Category.type c) (Transaction.type t))
          (categories db).

(** Every row points to rows that exist. *)
Definition references_ok (db : Db) : bool :=
  forallb (fun t => known_user db (Transaction.user_id t)
                    && owned_category db t)
          (transactions db)
  && forallb (fun c => known_user db (Category.user_id c)) (categories db).

Definition amounts_nonneg (db : Db) : bool :=
  forallb (fun t => 0 <=? Transaction.amount t) (transactions db).

(** ** Notions used in the statements about accounts *)

(** The form passes the checks of [register]: the three fields are filled
    in and the password is repeated. *)
Definition complete (form : fields) : bool :=
  negb (String.eqb (name_of form) "")
  && negb (String.eqb (email_of form) "")
  && negb (String.eqb (get_default form "password" "") "")
  && String.eqb (get_default form "password" "")
                (get_default form "confirm" "").

(** The new rows fit their columns and the serials have room. *)
Definition fits (password_hash : string) (site : Site) (form : fields)
  : bool :=
  (Z.of_nat (String.length (name_of form)) <=? 120)
  && (Z.of_nat (String.length (email_of form)) <=? 255)
  && (Z.of_nat (String.length password_hash) <=? 255)
  && (users_id_seq site + 1 <=? INT_MAX)
  && (categories_id_seq site + 9 <=? INT_MAX).

Definition account_created : account_response :=
  Goto (Some ("Аккаунт создан.", "success"))%string ViewDashboard.

(** The labels of the categories of a user, in the order of the table. *)
Definition labels_of (db : Db) (uid : Z) : list (string * string) :=
  map (fun c => (Category.name c, Category.type c))
      (filter (fun c => Category.user_id c =? uid) (categories db)).

(** ** What a request can do to the store *)

(** The four writes of the handlers, with what the handler checked before
    each. *)
Inductive write (db : Db) (uid : Z) : Db -> Prop :=
| WriteNothing : write db uid db
| WriteBalance (u : User.t) (c : Numeric.t) :
    current_user db uid = Some u -> User.initial_balance u = None ->
    in_rangeb c = true ->
    write db uid (set_initial_balance db uid c)
| WriteInsert (u : User.t) (cat : Category.t) (raw : option string)
              (amount : Decimal) (c : Numeric.t) (ty : string)
              (descr : option string) (at_ : datetime) :
    current_user db uid = Some u ->
    positive_amount raw = Ok amount -> Numeric.store amount = Some c ->
    In cat (categories db) -> Category.user_id cat = User.id u ->
    Category.type cat = ty ->
    transactions_id_seq db + 1 <= INT_MAX ->
    write db uid
      (mkDb (users db) (categories db)
            (transactions db
             ++ [Transaction.mk (transactions_id_seq db + 1) (User.id u)
                   (Category.id cat) c ty descr at_])
            (transactions_id_seq db + 1))
| WriteUpdate (u : User.t) (old : Transaction.t) (cat : Category.t)
              (raw : option string) (amount : Decimal) (c : Numeric.t)
              (ty : string) (descr : option string) (at_ : datetime) :
    current_user db uid = Some u ->
    In old (transactions db) -> Transaction.user_id old = User.id u ->
    positive_amount raw = Ok amount -> Numeric.store amount = Some c ->
    In cat (categories db) -> Category.user_id cat = User.id u ->
    Category.type cat = ty ->
    write db uid
      (update_transaction db
         (Transaction.mk (Transaction.id old) (Transaction.user_id old)
            (Category.id cat) c ty descr at_))
| WriteDelete (u : User.t) (old : Transaction.t) :
    current_user db uid = Some u ->
    In old (transactions db) -> Transaction.user_id old = User.id u ->
    write db uid (remove_transaction db (Transaction.id old)).

(** ** A sample site *)

Module Demo.

Open Scope string_scope.

(** A stand-in for the password hash: the password itself. *)
Definition plain_hash (password salt : string) : string := password.
Definition plain_check (pwhash password : string) : bool :=
  String.eqb pwhash password.

Definition boot : datetime := Date.midnight (mkdate 2026 10 1).

Definition empty : Site := mkSite (mkDb [] [] [] 0) 0 0.

Definition anna_form : fields :=
  [("name", " Anna "); ("email", " Anna@Example.ORG ");
   ("password", "s3cret"); ("confirm", "s3cret")].

(** The first visitor registers. *)
Definition one_account : Site :=
  fst (fst (register plain_hash boot empty None POST anna_form "salt")).

(** The first user sets a balance and records an expense; a second
    visitor registers. *)
Definition two_accounts : Site :=
  fst (browse plain_hash plain_check boot one_account (Some 1)
         [Protected (ReqSetupBalance POST [("initial_balance", "1 000,00")]);
          Protected (ReqAddTransaction
                       [("type", "expense"); ("amount", "12,50");
                        ("category_id", "2"); ("date", "2026-11-02")]
                       Sample.now);
          Logout;
          Register POST
            [("name", "Boris"); ("email", "boris@example.org");
             ("password", "pw"); ("confirm", "pw")] "pepper"]).

(** Requests of both users and of a visitor, interleaved. *)
Definition traffic : list (session * http_request) :=
  [(Some 2, Protected (ReqSetupBalance POST [("initial_balance", "0")]));
   (Some 2, Protected (ReqAddTransaction
                         [("type", "income"); ("amount", "300");
                          ("category_id", "16")] Sample.now));
   (Some 1, Protected (ReqEditTransaction 1 POST
                         [("amount", "13,00"); ("category_id", "3")]));
   (None, Login POST [("email", "anna@example.org"); ("password", "s3cret")]);
   (Some 2, Protected (ReqDeleteTransaction 2));
   (None, Register POST
            [("name", "Clara"); ("email", "clara@example.org");
             ("password", "pw3"); ("confirm", "pw3")] "salt3")].

End Demo.

(** ** Notions used in the statements about transactions *)

(** The transactions of a user from [start_dt] on. *)
Definition rows_in_window (db : Db) (uid : Z) (start_dt : datetime)
  : list Transaction.t :=
  filter (in_window uid start_dt) (transactions db).

(** [a] may precede [b] in a list sorted by timestamp, newest first. *)
Definition not_older (a b : Transaction.t) : Prop :=
  Date.geb (Transaction.created_at a) (Transaction.created_at b) = true.

(** The rows of one user, in the order of the table. *)
Definition rows_of (db : Db) (uid : Z) : list Transaction.t :=
  filter (fun t => Transaction.user_id t =? uid) (transactions db).

(** The name of the category a transaction is joined with. *)
Definition category_name (db : Db) (t : Transaction.t) : option string :=
  option_map Category.name
    (find (fun c => Category.id c =? Transaction.category_id t)
          (categories db)).

Definition named (db : Db) (name : string) (t : Transaction.t) : bool :=
  match category_name db t with
  | Some n => String.eqb n name
  | None => false
  end.

(** The sum, in hundredths, of a user's expenses from [start_dt] on in the
    categories called [name]. *)
Definition spent_on (db : Db) (uid : Z) (start_dt : datetime) (name : string)
  : Z :=
  fold_right Z.add 0
    (map Transaction.amount
         (filter (named db name) (expenses_in_window db uid start_dt))).

(** The binary64 number nearest to an amount of [c] hundredths. *)
Definition float_of_cents (c : Z) : Float.t :=
  Float.of_finite (c <? 0) (Z.abs_N c) (-2).

(** The sum of the values of a breakdown. *)
Definition sum_of (rows : list (string * Numeric.t)) : Z :=
  fold_right Z.add 0 (map snd rows).

(** The sum of the values under one key. *)
Definition under (k : string) (rows : list (string * Numeric.t)) : Z :=
  sum_of (filter (fun p => String.eqb (fst p) k) rows).


(** The character of a digit. *)
Definition digit (n : Z) : ascii := ascii_of_N (48 + Z.to_N n).

(** A date as the date field of a form holds it: [YYYY-MM-DD]. *)
Definition iso (d : date) : string :=
  string_of_list_ascii
    [digit (year d / 1000); digit (year d / 100 mod 10);
     digit (year d / 10 mod 10); digit (year d mod 10); "-"%char;
     digit (month d / 10); digit (month d mod 10); "-"%char;
     digit (day d / 10); digit (day d mod 10)].

(** * Properties *)

(** Case analysis on every scrutinee of the goal. *)
Ltac destruct_matches :=
  repeat match goal with
         | |- context [match ?x with _ => _ end] => destruct x
         end.

(** Evaluation of table lookups and of conditions without variables. *)
Ltac eval_closed :=
  repeat match goal with
         | |- context [nth ?n ?l ?d] =>
             let v := eval vm_compute in (nth n l d) in
             progress change (nth n l d) with v
         | H : context [nth ?n ?l ?d] |- _ =>
             let v := eval vm_compute in (nth n l d) in
             progress change (nth n l d) with v in H
         | |- context [if ?b then _ else _] =>
             let v := eval vm_compute in b in
             progress change b with v; cbv iota
         | H : context [if ?b then _ else _] |- _ =>
             let v := eval vm_compute in b in
             progress change b with v in H; cbv iota in H
         end.

(** ** Basic facts *)

Lemma nodupb_NoDup (l : list Z) : nodupb l = true -> NoDup l.
Proof.
  induction l as [|x l IH]; simpl; intros H.
  - constructor.
  - apply andb_prop in H. destruct H as [Hx Hl].
    constructor; auto.
    intros Hin. apply negb_true_iff in Hx.
    assert (existsb (Z.eqb x) l = true) as E.
    { apply existsb_exists. exists x. split; auto. apply Z.eqb_refl. }
    congruence.
Qed.

Lemma current_user_spec (db : Db) (uid : Z) (u : User.t) :
  current_user db uid = Some u -> In u (users db) /\ User.id u = uid.
Proof.
  unfold current_user. intros H. apply find_some in H.
  destruct H as [Hin Heq]. split; auto. now apply Z.eqb_eq.
Qed.

Lemma of_chars_raises (s : Str.chars) (e : exn) :
  Dec.of_chars s = Raise e -> e = InvalidOperation.
Proof.
  unfold Dec.of_chars.
  destruct (Dec.parse_sign _) as [sg body].
  destruct (Dec.parse_number sg body); [discriminate|].
  destruct (Dec.parse_special sg body); [discriminate|].
  congruence.
Qed.

Lemma parse_decimal_raises (raw : option string) (e : exn) :
  parse_decimal raw = Raise e -> e = InvalidOperation.
Proof.
  destruct raw as [raw|]; simpl.
  - apply of_chars_raises.
  - congruence.
Qed.

Lemma le_zero_nonpositive (d : Decimal) :
  nonpositive d -> Dec.le_zero d = Ok true.
Proof.
  destruct d as [s c e|s|s g p]; simpl; intros H.
  - f_equal. unfold Dec.signed in H. destruct s.
    + apply orb_true_r.
    + assert (c = 0%N) by lia. subst c. reflexivity.
  - now subst s.
  - contradiction.
Qed.

Lemma positive_amount_raises (raw : option string) (e : exn) :
  positive_amount raw = Raise e -> e = InvalidOperation.
Proof.
  unfold positive_amount, bind.
  destruct (parse_decimal raw) as [d|e'] eqn:Hp.
  - destruct d as [s c x|s|s g p]; simpl.
    + destruct ((c =? 0)%N || s); congruence.
    + destruct s; congruence.
    + congruence.
  - intros H. inversion H; subst. eapply parse_decimal_raises; eauto.
Qed.

(** What [positive_amount] lets through is a finite decimal above zero or
    the positive infinity. *)
Lemma positive_amount_ok (raw : option string) (d : Decimal) :
  positive_amount raw = Ok d ->
  parse_decimal raw = Ok d /\
  ((exists c e, d = Finite false c e /\ (0 < c)%N) \/ d = Infinity false).
Proof.
  unfold positive_amount, bind.
  destruct (parse_decimal raw) as [d'|e'] eqn:Hp; [|discriminate].
  destruct d' as [s c x|s|s g p]; simpl.
  - destruct (c =? 0)%N eqn:Hc; simpl; [discriminate|].
    destruct s; [discriminate|].
    intros H; inversion H; subst. split; auto. left.
    exists c, x. split; auto. apply N.eqb_neq in Hc. lia.
  - destruct s; [discriminate|].
    intros H; inversion H; subst. auto.
  - discriminate.
Qed.

(** ** Rejected amounts *)

(** C5: when the amount field is missing, does not parse, or parses to a
    value at most zero, [add_transaction] flashes the invalid-amount message,
    redirects to the dashboard and returns the store it was given. *)
Theorem add_transaction_rejects_nonpositive
    (db : Db) (uid : Z) (u : User.t) (form : fields) (utcnow : datetime) :
  current_user db uid = Some u ->
  ((exists e, parse_decimal (get form "amount") = Raise e) \/
   (exists d, parse_decimal (get form "amount") = Ok d /\ nonpositive d)) ->
  add_transaction db uid form utcnow
  = (db, Redirect flash_bad_amount EpDashboard).
Proof.
  intros Hu H. unfold add_transaction. rewrite Hu.
  destruct H as [[e He]|[d [Hd Hn]]].
  - unfold positive_amount, bind. rewrite He.
    rewrite (parse_decimal_raises _ _ He). reflexivity.
  - unfold positive_amount, bind. rewrite Hd.
    rewrite (le_zero_nonpositive d Hn). reflexivity.
Qed.

Lemma add_transaction_rejects_nonpositive_witness :
  add_transaction Sample.with_balance 1
    [("type", "expense"); ("amount", "-5,00"); ("category_id", "1")]%string
    Sample.now
  = (Sample.with_balance, Redirect flash_bad_amount EpDashboard).
Proof.
  apply (add_transaction_rejects_nonpositive Sample.with_balance 1
           Sample.anna').
  - reflexivity.
  - right. exists (Finite true 500 (-2)). split.
    + reflexivity.
    + simpl. lia.
Defined.

(** ** Transactions of other users *)

Lemma find_transaction_none (db : Db) (uid tx_id : Z) :
  (forall t, In t (transactions db) -> Transaction.id t = tx_id ->
             Transaction.user_id t <> uid) ->
  find_transaction db tx_id uid = None.
Proof.
  intros H. unfold find_transaction.
  destruct (find _ (transactions db)) as [t|] eqn:Hf; auto.
  apply find_some in Hf. destruct Hf as [Hin Hb].
  apply andb_prop in Hb. destruct Hb as [Hi Hw].
  apply Z.eqb_eq in Hi. apply Z.eqb_eq in Hw.
  exfalso. exact (H t Hin Hi Hw).
Qed.

(** C6: when no transaction with the requested id is owned by the caller
    (the id names nothing, or names a transaction of someone else),
    [edit_transaction], for either method and any form, and
    [delete_transaction] answer not-found and return the store unchanged. *)
Theorem foreign_transaction_not_found
    (db : Db) (uid : Z) (u : User.t) (tx_id : Z) :
  current_user db uid = Some u ->
  (forall t, In t (transactions db) -> Transaction.id t = tx_id ->
             Transaction.user_id t <> uid) ->
  (forall method form,
      edit_transaction db uid tx_id method form = (db, NotFound))
  /\ delete_transaction db uid tx_id = (db, NotFound).
Proof.
  intros Hu H.
  destruct (current_user_spec _ _ _ Hu) as [_ Hid].
  pose proof (find_transaction_none db uid tx_id H) as Hf.
  split.
  - intros method form. unfold edit_transaction.
    rewrite Hu, Hid, Hf. reflexivity.
  - unfold delete_transaction. rewrite Hu, Hid, Hf. reflexivity.
Qed.

Lemma foreign_transaction_not_found_witness :
  (forall method form,
      edit_transaction Sample.shared 1 3 method form
      = (Sample.shared, NotFound))
  /\ delete_transaction Sample.shared 1 3 = (Sample.shared, NotFound).
Proof.
  apply (foreign_transaction_not_found Sample.shared 1 Sample.anna' 3).
  - reflexivity.
  - vm_compute. intros t [H|[H|[H|[]]]] Hid; subst t; discriminate.
Defined.

(** ** The initial balance is set once *)

Lemma dashboard_store (db : Db) (uid : Z) (args : fields) (d : date) :
  fst (dashboard db uid args d) = db.
Proof. unfold dashboard. destruct_matches; reflexivity. Qed.

Lemma add_transaction_users (db : Db) (uid : Z) (form : fields)
                            (utcnow : datetime) :
  users (fst (add_transaction db uid form utcnow)) = users db.
Proof. unfold add_transaction. destruct_matches; reflexivity. Qed.

Lemma edit_transaction_users (db : Db) (uid tx_id : Z)
                             (method : http_method) (form : fields) :
  users (fst (edit_transaction db uid tx_id method form)) = users db.
Proof. unfold edit_transaction. destruct_matches; reflexivity. Qed.

Lemma delete_transaction_users (db : Db) (uid tx_id : Z) :
  users (fst (delete_transaction db uid tx_id)) = users db.
Proof. unfold delete_transaction. destruct_matches; reflexivity. Qed.

Lemma current_user_set_other (db : Db) (uid uid' : Z) (c : Numeric.t) :
  uid <> uid' ->
  current_user (set_initial_balance db uid' c) uid = current_user db uid.
Proof.
  intros Hne. unfold current_user, set_initial_balance. simpl.
  induction (users db) as [|x l IH]; simpl; auto.
  destruct (User.id x =? uid') eqn:Hx; simpl.
  - apply Z.eqb_eq in Hx.
    destruct (User.id x =? uid) eqn:Hy; auto.
    apply Z.eqb_eq in Hy. congruence.
  - destruct (User.id x =? uid); auto.
Qed.

Lemma current_user_set_same (db : Db) (uid : Z) (u : User.t) (c : Numeric.t) :
  current_user db uid = Some u ->
  exists u', current_user (set_initial_balance db uid c) uid = Some u'
             /\ User.initial_balance u' = Some c.
Proof.
  unfold current_user, set_initial_balance. simpl.
  induction (users db) as [|x l IH]; simpl; [discriminate|].
  destruct (User.id x =? uid) eqn:Hx; simpl.
  - rewrite Hx. intros _. eexists. split; reflexivity.
  - rewrite Hx. auto.
Qed.

Lemma setup_balance_set (db : Db) (uid : Z) (u : User.t) (b : Numeric.t)
                        (method : http_method) (form : fields) :
  current_user db uid = Some u -> User.initial_balance u = Some b ->
  setup_balance db uid method form = (db, Redirect None EpDashboard).
Proof.
  intros Hu Hb. unfold setup_balance. rewrite Hu, Hb. reflexivity.
Qed.

(** A set balance survives any one request of any user. *)
Lemma handle_keeps_balance (db : Db) (uid : Z) (u : User.t) (b : Numeric.t)
                           (uid' : Z) (r : request) :
  current_user db uid = Some u -> User.initial_balance u = Some b ->
  exists u', current_user (fst (handle db uid' r)) uid = Some u'
             /\ User.initial_balance u' = Some b.
Proof.
  intros Hu Hb.
  assert (forall db', users db' = users db ->
            exists u', current_user db' uid = Some u'
                       /\ User.initial_balance u' = Some b) as Hsame.
  { intros db' E. exists u. unfold current_user in *. rewrite E. auto. }
  destruct r as [method form|args d|form utcnow|tx_id method form|tx_id];
    simpl.
  - unfold setup_balance.
    destruct (current_user db uid') as [v|] eqn:Hv; [|eauto].
    destruct (User.initial_balance v) eqn:Hvb; [eauto|].
    destruct method; [eauto|].
    destruct (parse_decimal _) as [amount|[]]; simpl; eauto.
    destruct (Numeric.store amount); simpl; eauto.
    assert (uid <> uid') as Hne by (intros ->; congruence).
    rewrite (current_user_set_other db uid uid' t Hne). eauto.
  - rewrite dashboard_store. eauto.
  - apply Hsame, add_transaction_users.
  - apply Hsame, edit_transaction_users.
  - apply Hsame, delete_transaction_users.
Qed.

Lemma run_keeps_balance (reqs : list (Z * request)) :
  forall (db : Db) (uid : Z) (u : User.t) (b : Numeric.t),
  current_user db uid = Some u -> User.initial_balance u = Some b ->
  exists u', current_user (run db reqs) uid = Some u'
             /\ User.initial_balance u' = Some b.
Proof.
  induction reqs as [|[uid' r] reqs IH]; intros db uid u b Hu Hb; simpl.
  - eauto.
  - destruct (handle_keeps_balance db uid u b uid' r Hu Hb) as [u' [Hu' Hb']].
    eapply IH; eauto.
Qed.

(** C8: once an account's initial balance is set, every request to
    [setup_balance] (either method, any form) is redirected to the dashboard
    with the store unchanged, and the balance keeps its value through any
    later sequence of requests; while it is unset, every request to
    [dashboard] is redirected to the setup page and renders nothing. *)
Theorem initial_balance_set_once (db : Db) (uid : Z) (u : User.t) :
  current_user db uid = Some u ->
  (forall b, User.initial_balance u = Some b ->
     (forall method form,
         setup_balance db uid method form = (db, Redirect None EpDashboard))
     /\ (forall reqs, exists u',
           current_user (run db reqs) uid = Some u'
           /\ User.initial_balance u' = Some b))
  /\ (User.initial_balance u = None ->
      forall args d,
        dashboard db uid args d = (db, Redirect None EpSetupBalance)).
Proof.
  intros Hu. split.
  - intros b Hb. split.
    + intros method form. eapply setup_balance_set; eauto.
    + intros reqs. eapply run_keeps_balance; eauto.
  - intros Hb args d. unfold dashboard. rewrite Hu, Hb. reflexivity.
Qed.

Lemma initial_balance_set_once_witness :
  ((forall method form,
       setup_balance Sample.with_balance 1 method form
       = (Sample.with_balance, Redirect None EpDashboard))
   /\ (forall reqs, exists u',
         current_user (run Sample.with_balance reqs) 1 = Some u'
         /\ User.initial_balance u' = Some 100000))
  /\ (forall args d,
        dashboard Sample.registered 1 args d
        = (Sample.registered, Redirect None EpSetupBalance)).
Proof.
  split.
  - apply (initial_balance_set_once Sample.with_balance 1 Sample.anna');
      reflexivity.
  - apply (initial_balance_set_once Sample.registered 1 Sample.anna);
      reflexivity.
Defined.

(** ** Categories of the wrong type *)

Lemma NoDup_map_id_eq {A : Type} (f : A -> Z) (l : list A) (x y : A) :
  NoDup (map f l) -> In x l -> In y l -> f x = f y -> x = y.
Proof.
  induction l as [|a l IH]; simpl; intros Hnd Hx Hy E; [contradiction|].
  inversion Hnd as [|? ? Hnotin Hnd']; subst.
  destruct Hx as [->|Hx], Hy as [->|Hy]; auto.
  - exfalso. apply Hnotin. rewrite E. now apply in_map.
  - exfalso. apply Hnotin. rewrite <- E. now apply in_map.
Qed.

Lemma db_wf_categories (db : Db) :
  db_wf db = true -> NoDup (map Category.id (categories db)).
Proof.
  unfold db_wf. intros H.
  repeat (apply andb_prop in H; destruct H as [H ?]).
  now apply nodupb_NoDup.
Qed.

Lemma db_wf_transactions (db : Db) :
  db_wf db = true -> NoDup (map Transaction.id (transactions db)).
Proof.
  unfold db_wf. intros H.
  repeat (apply andb_prop in H; destruct H as [H ?]).
  now apply nodupb_NoDup.
Qed.

(** Under either condition the lookup by (id, owner, type) finds nothing. *)
Lemma find_category_none (db : Db) (uid cid : Z) (ty : string) :
  db_wf db = true ->
  category_mismatch db uid cid ty \/ category_missing db cid ->
  find_category db cid uid ty = None.
Proof.
  intros Hwf H. unfold find_category.
  destruct (find _ (categories db)) as [c'|] eqn:Hf; auto.
  apply find_some in Hf. destruct Hf as [Hin Hb].
  apply andb_prop in Hb. destruct Hb as [Hb Hty].
  apply andb_prop in Hb. destruct Hb as [Hid Hown].
  apply Z.eqb_eq in Hid. apply String.eqb_eq in Hty.
  exfalso. destruct H as [[c [Hc [Hcid [Hcu Hcty]]]]|Hmiss].
  - assert (c = c') as E.
    { eapply (NoDup_map_id_eq Category.id); eauto using db_wf_categories.
      congruence. }
    subst c'. contradiction.
  - exact (Hmiss c' Hin Hid).
Qed.

(** C7: when the submitted category id names a category of the caller
    whose stored type differs from the submitted type, [add_transaction] and
    [edit_transaction] (on POST, for a transaction of the caller) return the
    store unchanged; with an amount that passes validation the answer is the
    category-not-found message and a redirect, the very answer given when
    the id names no category at all. *)
Theorem category_type_mismatch_rejected
    (db : Db) (uid : Z) (u : User.t) (form : fields) (cid : Z) :
  db_wf db = true ->
  current_user db uid = Some u ->
  Int.of_field (get form "category_id") = Ok cid ->
  (forall utcnow,
      let ty := get_default form "type" "expense" in
      category_mismatch db uid cid ty \/ category_missing db cid ->
      fst (add_transaction db uid form utcnow) = db
      /\ (forall amount, positive_amount (get form "amount") = Ok amount ->
            add_transaction db uid form utcnow
            = (db, Redirect flash_category_not_found EpDashboard)))
  /\ (forall tx_id tx,
        find_transaction db tx_id uid = Some tx ->
        let ty := get_default form "type" (Transaction.type tx) in
        category_mismatch db uid cid ty \/ category_missing db cid ->
        fst (edit_transaction db uid tx_id POST form) = db
        /\ (forall amount, positive_amount (get form "amount") = Ok amount ->
              edit_transaction db uid tx_id POST form
              = (db, Redirect flash_category_not_found
                              (EpEditTransaction (Transaction.id tx))))).
Proof.
  intros Hwf Hu Hcid.
  destruct (current_user_spec _ _ _ Hu) as [_ Hid].
  split.
  - intros utcnow ty H.
    pose proof (find_category_none db uid cid ty Hwf H) as Hnone.
    unfold add_transaction. rewrite Hu, Hcid, Hid. fold ty. rewrite Hnone.
    split.
    + destruct (positive_amount _) as [a|[]]; reflexivity.
    + intros amount ->. reflexivity.
  - intros tx_id tx Htx ty H.
    pose proof (find_category_none db uid cid ty Hwf H) as Hnone.
    unfold edit_transaction. rewrite Hu, Hid, Htx, Hcid. fold ty.
    rewrite Hnone. split.
    + destruct (positive_amount _) as [a|[]]; reflexivity.
    + intros amount ->. reflexivity.
Qed.

(** Category 7 of the sample is an income category of the first user;
    it is submitted with type "expense". *)
Lemma category_type_mismatch_rejected_witness :
  add_transaction Sample.after_income 1
    [("type", "expense"); ("amount", "10"); ("category_id", "7")]%string
    Sample.now
  = (Sample.after_income, Redirect flash_category_not_found EpDashboard)
  /\ edit_transaction Sample.after_income 1 1 POST
       [("type", "expense"); ("amount", "10"); ("category_id", "7")]%string
     = (Sample.after_income,
        Redirect flash_category_not_found (EpEditTransaction 1)).
Proof.
  pose proof (category_type_mismatch_rejected Sample.after_income 1
                Sample.anna'
                [("type", "expense"); ("amount", "10");
                 ("category_id", "7")]%string
                7 eq_refl eq_refl eq_refl) as [Hadd Hedit].
  assert (category_mismatch Sample.after_income 1 7 "expense") as Hmis.
  { exists (Category.mk 7 "Зарплата" "income" 1).
    vm_compute. repeat split; auto 10. discriminate. }
  split.
  - apply (proj2 (Hadd Sample.now (or_introl Hmis)) (Finite false 10 0)).
    reflexivity.
  - apply (proj2 (Hedit 1 _ eq_refl (or_introl Hmis)) (Finite false 10 0)).
    reflexivity.
Defined.

(** ** The initial balance has no sign check *)

(** What the store accepts: a finite number whose exponent is within the
    limits of a literal and whose rounded value is below the limit of the
    column. *)
Lemma store_spec (s : bool) (m : N) (e : Z) (c : Numeric.t) :
  Numeric.store (Finite s m e) = Some c <->
  - Numeric.MAX_DSCALE <= e < Numeric.MAX_EXPONENT
  /\ Numeric.round_scaled m (e + 2) < Numeric.limit
  /\ c = (if s then - Numeric.round_scaled m (e + 2)
          else Numeric.round_scaled m (e + 2)).
Proof.
  unfold Numeric.store.
  destruct (Z.ltb_spec e (- Numeric.MAX_DSCALE)) as [H1|H1]; cbn [orb].
  - split; [discriminate|lia].
  - destruct (Z.leb_spec Numeric.MAX_EXPONENT e) as [H2|H2].
    + split; [discriminate|lia].
    + destruct (Z.ltb_spec (Numeric.round_scaled m (e + 2)) Numeric.limit)
        as [H3|H3].
      * split.
        -- intros [= <-]. auto.
        -- intros [_ [_ ->]]. reflexivity.
      * split; [discriminate|lia].
Qed.

(** C10, as amended: [setup_balance] checks neither sign nor magnitude
    itself.  For an account without a balance, every posted string that
    [parse_decimal] reads as a finite number, of either sign, whose exponent
    is at least [-16383] and below [1073741823] and whose magnitude, rounded
    to two decimals, is below [10^12], is stored, rounded to two decimals
    (ties away from zero), as the initial balance, and the request succeeds
    with a redirect to the dashboard. *)
Theorem setup_balance_stores_any_sign
    (db : Db) (uid : Z) (u : User.t) (form : fields)
    (raw : string) (s : bool) (m : N) (e : Z) :
  current_user db uid = Some u ->
  User.initial_balance u = None ->
  get form "initial_balance" = Some raw ->
  parse_decimal (Some raw) = Ok (Finite s m e) ->
  - Numeric.MAX_DSCALE <= e < Numeric.MAX_EXPONENT ->
  Numeric.round_scaled m (e + 2) < Numeric.limit ->
  let c := if s then - Numeric.round_scaled m (e + 2)
           else Numeric.round_scaled m (e + 2) in
  setup_balance db uid POST form
  = (set_initial_balance db uid c, Redirect flash_balance_saved EpDashboard)
  /\ exists u', current_user (set_initial_balance db uid c) uid = Some u'
                /\ User.initial_balance u' = Some c.
Proof.
  intros Hu Hb Hraw Hd He Hm c.
  assert (Numeric.store (Finite s m e) = Some c) as Hc
    by (apply store_spec; auto).
  split.
  - unfold setup_balance. rewrite Hu, Hb, Hraw, Hd, Hc. reflexivity.
  - eapply current_user_set_same; eauto.
Qed.

Lemma setup_balance_stores_any_sign_witness :
  setup_balance Sample.registered 1 POST
    [("initial_balance", "-100,50")]%string
  = (set_initial_balance Sample.registered 1 (-10050),
     Redirect flash_balance_saved EpDashboard)
  /\ exists u',
       current_user (set_initial_balance Sample.registered 1 (-10050)) 1
       = Some u'
       /\ User.initial_balance u' = Some (-10050).
Proof.
  apply (setup_balance_stores_any_sign Sample.registered 1 Sample.anna
           [("initial_balance", "-100,50")]%string "-100,50"
           true 10050 (-2));
    try reflexivity.
  unfold Numeric.MAX_DSCALE, Numeric.MAX_EXPONENT. lia.
Defined.

(** A finite number outside these bounds is refused by the store: the
    request ends in a server error and no balance is set. *)
Lemma setup_balance_refused
    (db : Db) (uid : Z) (u : User.t) (form : fields)
    (raw : string) (s : bool) (m : N) (e : Z) :
  current_user db uid = Some u ->
  User.initial_balance u = None ->
  get form "initial_balance" = Some raw ->
  parse_decimal (Some raw) = Ok (Finite s m e) ->
  e < - Numeric.MAX_DSCALE \/ Numeric.MAX_EXPONENT <= e
  \/ Numeric.limit <= Numeric.round_scaled m (e + 2) ->
  setup_balance db uid POST form = (db, ServerError).
Proof.
  intros Hu Hb Hraw Hd H.
  assert (Numeric.store (Finite s m e) = None) as Hc.
  { destruct (Numeric.store (Finite s m e)) as [c|] eqn:E; [|reflexivity].
    apply store_spec in E. lia. }
  unfold setup_balance. rewrite Hu, Hb, Hraw, Hd, Hc. reflexivity.
Qed.

Lemma setup_balance_overflow :
  parse_decimal (Some "1e12"%string) = Ok (Finite false 1 12)
  /\ setup_balance Sample.registered 1 POST
       [("initial_balance", "1e12")]%string
     = (Sample.registered, ServerError)
  /\ current_user Sample.registered 1 = Some Sample.anna
  /\ User.initial_balance Sample.anna = None.
Proof. repeat split. Qed.

(** A number with more than [16383] digits after the point is refused
    although it is worth less than half a cent. *)
Example setup_balance_tiny :
  parse_decimal (Some "1e-16384"%string) = Ok (Finite false 1 (-16384))
  /\ setup_balance Sample.registered 1 POST
       [("initial_balance", "1e-16384")]%string
     = (Sample.registered, ServerError)
  /\ setup_balance Sample.registered 1 POST
       [("initial_balance", "1e-16383")]%string
     = (set_initial_balance Sample.registered 1 0,
        Redirect flash_balance_saved EpDashboard).
Proof. repeat split; vm_compute; reflexivity. Qed.

(** Zero is stored like any other value. *)
Example setup_balance_zero :
  setup_balance Sample.registered 1 POST [("initial_balance", "0")]%string
  = (set_initial_balance Sample.registered 1 0,
     Redirect flash_balance_saved EpDashboard).
Proof. reflexivity. Qed.

(** The column treats a value and its negation alike. *)
Lemma store_negate (d : Decimal) (c : Numeric.t) :
  Numeric.store d = Some c -> Numeric.store (Dec.negate d) = Some (- c).
Proof.
  destruct d as [s m e|s|s g p]; cbn [Numeric.store Dec.negate];
    try discriminate.
  destruct ((e <? - Numeric.MAX_DSCALE) || (Numeric.MAX_EXPONENT <=? e));
    [discriminate|].
  destruct (Numeric.round_scaled m (e + 2) <? Numeric.limit); [|discriminate].
  intros H; inversion H; subst. f_equal. destruct s; simpl; lia.
Qed.

(** ** Separators in amounts *)

Section Characters.

Import Str.

Lemma replace_absent (old : ascii) (new s : chars) :
  forallb (fun c => negb (Ascii.eqb c old)) s = true ->
  replace old new s = s.
Proof.
  unfold replace. induction s as [|c s IH]; simpl; intros H; auto.
  apply andb_prop in H. destruct H as [Hc Hs].
  apply negb_true_iff in Hc. rewrite Hc. simpl. now rewrite IH.
Qed.

Lemma replace_removes (old : ascii) (s : chars) :
  forallb (fun c => negb (Ascii.eqb c old)) (replace old [] s) = true.
Proof.
  unfold replace. induction s as [|c s IH]; simpl; auto.
  destruct (Ascii.eqb c old) eqn:E; simpl; auto. now rewrite E.
Qed.

Lemma replace_maps (old new other : ascii) (s : chars) :
  Ascii.eqb new other = false ->
  forallb (fun c => negb (Ascii.eqb c other)) s = true ->
  forallb (fun c => negb (Ascii.eqb c other)) (replace old [new] s) = true.
Proof.
  intros Hn. unfold replace. induction s as [|c s IH]; simpl; auto.
  intros H. apply andb_prop in H. destruct H as [Hc Hs].
  destruct (Ascii.eqb c old); simpl; rewrite ?Hn, ?Hc; simpl; auto.
Qed.

Lemma replace_changes (old new : ascii) (s : chars) :
  Ascii.eqb new old = false ->
  forallb (fun c => negb (Ascii.eqb c old)) (replace old [new] s) = true.
Proof.
  intros Hn. unfold replace. induction s as [|c s IH]; simpl; auto.
  destruct (Ascii.eqb c old) eqn:E; simpl; rewrite ?Hn, ?E; simpl; auto.
Qed.

Lemma lstrip_head (c : ascii) (s : chars) :
  isspace c = false -> lstrip (c :: s) = c :: s.
Proof. intros H. simpl. now rewrite H. Qed.

Lemma strip_no_space (s : chars) :
  forallb (fun c => negb (isspace c)) s = true -> strip s = s.
Proof.
  intros H. unfold strip, rstrip.
  assert (forall t, forallb (fun c => negb (isspace c)) t = true ->
                    lstrip t = t) as L.
  { intros [|c t] Ht; auto. simpl in Ht.
    apply andb_prop in Ht. destruct Ht as [Hc _].
    apply negb_true_iff in Hc. now apply lstrip_head. }
  rewrite (L s H). rewrite L.
  - apply rev_involutive.
  - rewrite forallb_forall in *. intros c Hc. apply H.
    now apply in_rev.
Qed.

Lemma digit_not_space (c : ascii) : isdigit c = true -> isspace c = false.
Proof.
  unfold isdigit, isspace. intros H.
  apply andb_prop in H. destruct H as [H1 H2].
  apply N.leb_le in H1. apply N.leb_le in H2.
  repeat match goal with
         | |- context [(?a <=? ?b)%N] =>
             destruct (N.leb_spec a b)
         | |- context [(?a =? ?b)%N] =>
             destruct (N.eqb_spec a b)
         end; simpl; auto; lia.
Qed.

Lemma digit_not_char (c d : ascii) :
  isdigit d = false -> isdigit c = true -> Ascii.eqb c d = false.
Proof.
  intros Hd Hc. destruct (Ascii.eqb c d) eqn:E; auto.
  apply Ascii.eqb_eq in E. congruence.
Qed.

Lemma span_digits_app (ds r : chars) :
  all_digits ds ->
  match r with [] => True | c :: _ => isdigit c = false end ->
  span_digits (ds ++ r) = (ds, r).
Proof.
  unfold all_digits. induction ds as [|d ds IH]; simpl; intros H Hr.
  - destruct r as [|c r]; auto. simpl. now rewrite Hr.
  - apply andb_prop in H. destruct H as [Hd Hds].
    rewrite Hd, IH; auto.
Qed.

Lemma all_digits_forall (P : ascii -> bool) (ds : chars) :
  (forall c, isdigit c = true -> P c = true) ->
  all_digits ds -> forallb P ds = true.
Proof.
  intros HP H. unfold all_digits in H. rewrite forallb_forall in *.
  auto.
Qed.

End Characters.

(** A signed digit string, with or without a fractional part, is read as
    the very number it spells: the coefficient is all of its digits and the
    exponent is minus the number of fractional digits. *)
Lemma of_chars_digits (neg : bool) (intpart fracpart body : Str.chars) :
  all_digits intpart -> all_digits fracpart -> intpart <> [] ->
  body = sign_chars neg ++ intpart ++ "."%char :: fracpart
  \/ (fracpart = [] /\ body = sign_chars neg ++ intpart) ->
  Dec.of_chars body
  = Ok (Finite neg (Str.digits_value (intpart ++ fracpart))
               (- Z.of_nat (List.length fracpart))).
Proof.
  intros Hi Hf Hne Hbody.
  assert (forallb (fun c => negb (Str.isspace c)) body = true) as Hsp.
  { destruct Hbody as [->|[_ ->]]; rewrite !forallb_app; simpl;
      rewrite ?andb_true_iff; repeat split;
      try (destruct neg; reflexivity);
      apply all_digits_forall; auto;
      intros c Hc; now rewrite digit_not_space. }
  assert (forallb (fun c => negb (Ascii.eqb c "_")) body = true) as Hus.
  { destruct Hbody as [->|[_ ->]]; rewrite !forallb_app; simpl;
      rewrite ?andb_true_iff; repeat split;
      try (destruct neg; reflexivity);
      apply all_digits_forall; auto;
      intros c Hc; now rewrite (digit_not_char c "_"). }
  unfold Dec.of_chars.
  rewrite (strip_no_space body Hsp), (replace_absent _ _ body Hus).
  destruct intpart as [|i0 intpart]; [congruence|].
  assert (Str.isdigit i0 = true) as Hi0.
  { unfold all_digits in Hi. simpl in Hi. now apply andb_prop in Hi. }
  assert (forall rest, Dec.parse_sign (sign_chars neg ++ i0 :: rest)
                       = (neg, i0 :: rest)) as Hsign.
  { intros rest. destruct neg; simpl; auto.
    destruct i0 as [[] [] [] [] [] [] [] []]; try discriminate; auto. }
  unfold Dec.parse_number.
  destruct Hbody as [->|[-> ->]].
  - change (sign_chars neg ++ (i0 :: intpart) ++ "."%char :: fracpart)
      with (sign_chars neg ++ i0 :: (intpart ++ "."%char :: fracpart)).
    rewrite Hsign.
    change (i0 :: intpart ++ "."%char :: fracpart)
      with ((i0 :: intpart) ++ "."%char :: fracpart).
    rewrite (span_digits_app (i0 :: intpart) ("."%char :: fracpart) Hi eq_refl).
    rewrite <- (app_nil_r fracpart) at 1.
    rewrite (span_digits_app fracpart [] Hf I).
    simpl. reflexivity.
  - rewrite Hsign.
    rewrite <- (app_nil_r (i0 :: intpart)) at 1.
    rewrite (span_digits_app (i0 :: intpart) [] Hi I).
    simpl. rewrite app_nil_r. reflexivity.
Qed.

(** C9: [parse_decimal] gives a string with spaces and commas exactly the
    result that [Decimal] gives its plain form (spaces removed, commas
    turned into periods), which is also what [parse_decimal] gives the plain
    form itself; and when the plain form is a signed digit string, with or
    without a fractional part, the result is the exact decimal it spells,
    coefficient and exponent, with no rounding. *)
Theorem parse_decimal_separators (raw : string) :
  parse_decimal (Some raw) = Decimal_of_string (plain raw)
  /\ parse_decimal (Some (plain raw)) = Decimal_of_string (plain raw)
  /\ (forall neg intpart fracpart,
        all_digits intpart -> all_digits fracpart -> intpart <> [] ->
        Str.of_string (plain raw)
        = sign_chars neg ++ intpart ++ "."%char :: fracpart
        \/ (fracpart = []
            /\ Str.of_string (plain raw) = sign_chars neg ++ intpart) ->
        parse_decimal (Some raw)
        = Ok (Finite neg (Str.digits_value (intpart ++ fracpart))
                     (- Z.of_nat (List.length fracpart)))).
Proof.
  assert (parse_decimal (Some raw) = Decimal_of_string (plain raw)) as H1.
  { unfold parse_decimal, Decimal_of_string, plain, Str.of_string.
    now rewrite list_ascii_of_string_of_list_ascii. }
  split; [exact H1|]. split.
  - unfold parse_decimal, Decimal_of_string.
    set (p := Str.of_string (plain raw)).
    assert (forallb (fun c => negb (Ascii.eqb c " ")) p = true) as Hs.
    { unfold p, plain, Str.of_string.
      rewrite list_ascii_of_string_of_list_ascii.
      apply replace_maps; [reflexivity|apply replace_removes]. }
    assert (forallb (fun c => negb (Ascii.eqb c ",")) p = true) as Hc.
    { unfold p, plain, Str.of_string.
      rewrite list_ascii_of_string_of_list_ascii.
      apply replace_changes. reflexivity. }
    rewrite (replace_absent _ _ p Hs), (replace_absent _ _ p Hc).
    reflexivity.
  - intros neg intpart fracpart Hi Hf Hne Hp.
    rewrite H1. unfold Decimal_of_string.
    apply of_chars_digits; auto.
Qed.

Lemma parse_decimal_separators_witness :
  parse_decimal (Some "1 234,56"%string)
  = Ok (Finite false 123456 (-2))
  /\ parse_decimal (Some "1 234,56"%string)
     = parse_decimal (Some "1234.56"%string).
Proof.
  destruct (parse_decimal_separators "1 234,56") as [H1 [H2 H3]].
  split.
  - apply (H3 false (Str.of_string "1234") (Str.of_string "56"));
      try reflexivity.
    + discriminate.
    + left. reflexivity.
  - rewrite H1. symmetry. exact H2.
Defined.

(** ** Ordering and limits *)

Lemma In_firstn {A : Type} (n : nat) (l : list A) (x : A) :
  In x (firstn n l) -> In x l.
Proof.
  revert l. induction n as [|n IH]; intros [|y l]; simpl; try tauto.
  intros [H|H]; auto.
Qed.

Lemma In_skipn {A : Type} (n : nat) (l : list A) (x : A) :
  In x (skipn n l) -> In x l.
Proof.
  revert l. induction n as [|n IH]; intros [|y l]; simpl; try tauto.
  intros H. right. auto.
Qed.

Section OrderByFacts.

Context {A : Type} (before : A -> A -> bool).
Hypothesis before_total : forall a b, before a b = true \/ before b a = true.
Hypothesis before_trans :
  forall a b c, before a b = true -> before b c = true -> before a c = true.

Let R (a b : A) : Prop := before a b = true.

Lemma insert_perm (x : A) (l : list A) :
  Permutation (insert before x l) (x :: l).
Proof.
  induction l as [|y l IH]; simpl; auto.
  destruct (before y x); auto.
  rewrite IH. apply perm_swap.
Qed.

Lemma order_by_perm (l : list A) : Permutation (order_by before l) l.
Proof.
  induction l as [|x l IH]; simpl; auto.
  rewrite insert_perm. now constructor.
Qed.

Lemma insert_sorted (x : A) (l : list A) :
  StronglySorted R l -> StronglySorted R (insert before x l).
Proof.
  induction 1 as [|y l Hs IH Hy]; simpl.
  - repeat constructor.
  - destruct (before y x) eqn:E.
    + constructor; auto.
      rewrite Forall_forall in *. intros z Hz.
      apply (Permutation_in _ (insert_perm x l)) in Hz.
      destruct Hz as [<-|Hz]; [exact E|auto].
    + assert (R x y) as Hxy.
      { destruct (before_total x y) as [H|H]; auto. congruence. }
      constructor.
      * constructor; auto.
      * constructor; auto.
        rewrite Forall_forall in *. intros z Hz.
        eapply before_trans; eauto. now apply Hy.
Qed.

Lemma order_by_sorted (l : list A) : StronglySorted R (order_by before l).
Proof.
  induction l as [|x l IH]; simpl.
  - constructor.
  - now apply insert_sorted.
Qed.

Lemma sorted_firstn (l : list A) :
  StronglySorted R l -> forall n, StronglySorted R (firstn n l).
Proof.
  induction 1 as [|y l Hs IH Hy]; intros [|n]; simpl; try constructor.
  - apply IH.
  - rewrite Forall_forall in *. intros z Hz.
    apply Hy. eapply In_firstn; eauto.
Qed.

Lemma sorted_firstn_skipn (l : list A) :
  StronglySorted R l ->
  forall n x y, In x (firstn n l) -> In y (skipn n l) -> R x y.
Proof.
  induction 1 as [|z l Hs IH Hz]; intros [|n] x y Hx Hy; simpl in *;
    try contradiction.
  destruct Hx as [<-|Hx].
  - rewrite Forall_forall in Hz. apply Hz.
    eapply In_skipn; eauto.
  - eapply IH; eauto.
Qed.

End OrderByFacts.

Lemma amount_desc_total (a b : Transaction.t) :
  amount_desc a b = true \/ amount_desc b a = true.
Proof. unfold amount_desc. rewrite !Z.leb_le. lia. Qed.

Lemma amount_desc_trans (a b c : Transaction.t) :
  amount_desc a b = true -> amount_desc b c = true -> amount_desc a c = true.
Proof. unfold amount_desc. rewrite !Z.leb_le. lia. Qed.

Lemma StronglySorted_impl {A : Type} (R S : A -> A -> Prop) (l : list A) :
  (forall a b, R a b -> S a b) -> StronglySorted R l -> StronglySorted S l.
Proof.
  intros H. induction 1 as [|x l Hs IH Hx]; constructor; auto.
  rewrite Forall_forall in *. auto.
Qed.

(** The nested filters of the query select the expenses in the window. *)
Lemma top_query_filter (db : Db) (uid : Z) (start_dt : datetime) :
  filter (fun t => String.eqb (Transaction.type t) "expense")
         (filter (in_window uid start_dt) (transactions db))
  = expenses_in_window db uid start_dt.
Proof.
  unfold expenses_in_window, in_window.
  induction (transactions db) as [|t l IH]; simpl; auto.
  destruct (Transaction.user_id t =? uid); simpl; auto.
  destruct (Date.geb (Transaction.created_at t) start_dt); simpl.
  - rewrite andb_true_r.
    destruct (String.eqb (Transaction.type t) "expense"); now rewrite IH.
  - now rewrite andb_false_r.
Qed.

(** ** The balance is always computed *)

Lemma fix_finite (s : bool) (c : N) (e : Z) :
  exists s' c' e', Dec.fix_ s c e = Finite s' c' e'.
Proof.
  unfold Dec.fix_.
  repeat match goal with
         | |- context [if ?b then _ else _] => destruct b
         end; eauto.
Qed.

Lemma add_finite (a b : Decimal) :
  finite a -> finite b -> exists r, Dec.add a b = Ok r /\ finite r.
Proof.
  intros [s1 [c1 [e1 ->]]] [s2 [c2 [e2 ->]]]. simpl.
  eexists. split; [reflexivity|]. apply fix_finite.
Qed.

Lemma sub_finite (a b : Decimal) :
  finite a -> finite b -> exists r, Dec.sub a b = Ok r /\ finite r.
Proof.
  intros [s1 [c1 [e1 ->]]] [s2 [c2 [e2 ->]]]. simpl.
  eexists. split; [reflexivity|]. apply fix_finite.
Qed.

Lemma or_else_finite (a b : Decimal) :
  finite a -> finite b -> finite (Dec.or_else a b).
Proof. intros Ha Hb. unfold Dec.or_else. destruct (Dec.truth a); auto. Qed.

Lemma load_finite (c : Numeric.t) : finite (Numeric.load c).
Proof. unfold Numeric.load, finite. eauto. Qed.

Lemma of_int_finite (n : Z) : finite (Dec.of_int n).
Proof. unfold Dec.of_int, finite. eauto. Qed.

Lemma coalesce_sum_finite (l : list Numeric.t) : finite (coalesce_sum l).
Proof.
  unfold coalesce_sum. destruct (sql_sum l).
  - apply load_finite.
  - apply of_int_finite.
Qed.

Lemma map_result_total {A B : Type} (f : A -> result B) (g : A -> B)
                        (l : list A) :
  (forall x, f x = Ok (g x)) -> map_result f l = Ok (map g l).
Proof.
  intros H. induction l as [|x l IH]; cbn [map_result map]; auto.
  rewrite H, IH. reflexivity.
Qed.

(** The chart values of finite totals: no conversion fails. *)
Lemma chart_values_finite (rows : list (string * Numeric.t))
                          (i e : Decimal) :
  finite i -> finite e ->
  exists fi fe,
    Float.of_decimal i = Ok fi /\ Float.of_decimal e = Ok fe
    /\ chart_values rows i e
       = Ok (map (fun row => float_of_cents (snd row)) rows, [fi; fe]).
Proof.
  intros [si [ci [ei ->]]] [se [ce [ee ->]]].
  exists (Float.of_finite si ci ei), (Float.of_finite se ce ee).
  split; [reflexivity|]. split; [reflexivity|].
  unfold chart_values.
  rewrite (map_result_total _ (fun row => float_of_cents (snd row)));
    reflexivity.
Qed.

(** For a user whose balance is set, and a window start that can be
    computed, [dashboard] renders a page and leaves the store as it is. *)
Lemma dashboard_renders (db : Db) (uid : Z) (u : User.t) (ib : Numeric.t)
                        (args : fields) (d start : date) :
  current_user db uid = Some u ->
  User.initial_balance u = Some ib ->
  period_start (get_default args "period" "month") d = Ok start ->
  exists ctx, dashboard db uid args d = (db, Render (DashboardPage ctx)).
Proof.
  intros Hu Hb Hs. unfold dashboard. rewrite Hu, Hb, Hs.
  set (ti := total_of db uid "income" (Date.midnight start)).
  set (te := total_of db uid "expense" (Date.midnight start)).
  assert (finite (Dec.or_else (Numeric.load ib) (Finite false 0 0))) as F0.
  { apply or_else_finite; [apply load_finite|apply (of_int_finite 0)]. }
  assert (finite (Dec.or_else ti (Dec.of_int 0))) as F1.
  { apply or_else_finite; [apply coalesce_sum_finite|apply of_int_finite]. }
  assert (finite (Dec.or_else te (Dec.of_int 0))) as F2.
  { apply or_else_finite; [apply coalesce_sum_finite|apply of_int_finite]. }
  destruct (add_finite _ _ F0 F1) as [r1 [E1 Fr1]].
  destruct (sub_finite _ _ Fr1 F2) as [r2 [E2 _]].
  destruct (chart_values_finite
              (expense_breakdown db uid (Date.midnight start)) _ _ F1 F2)
    as [fi [fe [_ [_ E3]]]].
  unfold bind. rewrite E1, E2, E3. eauto.
Qed.

(** ** The largest expenses *)

(** What [LIMIT 5] keeps of any listing of the rows [c] by amount, largest
    first, whatever the order the store gives to rows of equal amount. *)
Lemma limit_of_sorted (c l : list Transaction.t) :
  Permutation l c -> StronglySorted amount_ge l ->
  (List.length (firstn 5 l) <= 5)%nat
  /\ StronglySorted amount_ge (firstn 5 l)
  /\ (forall t, In t (firstn 5 l) -> In t c)
  /\ (exists rest,
        Permutation (firstn 5 l ++ rest) c
        /\ forall x y, In x (firstn 5 l) -> In y rest -> amount_ge x y)
  /\ List.length (firstn 5 l) = Nat.min 5 (List.length c).
Proof.
  intros Hperm Hsorted.
  assert (forall a b d : Transaction.t,
             amount_desc a b = true -> amount_desc b d = true ->
             amount_desc a d = true) as Htrans
    by apply amount_desc_trans.
  assert (StronglySorted (fun a b => amount_desc a b = true) l) as Hs.
  { apply (StronglySorted_impl amount_ge); auto.
    intros a b H. unfold amount_desc. now apply Z.leb_le. }
  repeat split.
  - apply firstn_le_length.
  - apply (StronglySorted_impl (fun a b => amount_desc a b = true)).
    + intros a b H. unfold amount_desc in H. now apply Z.leb_le in H.
    + now apply sorted_firstn.
  - intros t H. apply In_firstn in H. now apply (Permutation_in _ Hperm).
  - exists (skipn 5 l). split.
    + now rewrite firstn_skipn.
    + intros x y Hx Hy.
      pose proof (sorted_firstn_skipn amount_desc l Hs 5 x y Hx Hy) as H.
      unfold amount_desc in H. now apply Z.leb_le in H.
  - rewrite length_firstn. now rewrite (Permutation_length Hperm).
Qed.

Lemma expenses_in_window_spec (db : Db) (uid : Z) (start_dt : datetime)
                              (t : Transaction.t) :
  In t (expenses_in_window db uid start_dt) ->
  In t (transactions db)
  /\ Transaction.type t = "expense"%string
  /\ Transaction.user_id t = uid
  /\ Date.geb (Transaction.created_at t) start_dt = true.
Proof.
  unfold expenses_in_window. intros H. apply filter_In in H.
  destruct H as [Hin H]. apply andb_prop in H. destruct H as [H Hge].
  apply andb_prop in H. destruct H as [Hu Hty].
  apply Z.eqb_eq in Hu. apply String.eqb_eq in Hty. auto.
Qed.

(** C4: for a user whose balance is set, the list of top expenses on the
    rendered dashboard has at most 5 entries, is sorted by amount from the
    largest down, and holds only expense transactions of that user dated at
    or after the start of the period; together with some remainder it makes
    up all such expenses, none of the remainder exceeds any entry, and the
    list has exactly 5 entries as soon as 5 such expenses exist. *)
Theorem top_expenses_largest_five
    (db : Db) (uid : Z) (u : User.t) (ib : Numeric.t)
    (args : fields) (d start : date) :
  current_user db uid = Some u ->
  User.initial_balance u = Some ib ->
  period_start (get_default args "period" "month") d = Ok start ->
  exists ctx,
    dashboard db uid args d = (db, Render (DashboardPage ctx))
    /\ (List.length (top_expenses ctx) <= 5)%nat
    /\ StronglySorted amount_ge (top_expenses ctx)
    /\ (forall t, In t (top_expenses ctx) ->
          In t (transactions db)
          /\ Transaction.type t = "expense"%string
          /\ Transaction.user_id t = uid
          /\ Date.geb (Transaction.created_at t) (Date.midnight start) = true)
    /\ (exists rest,
          Permutation (top_expenses ctx ++ rest)
                      (expenses_in_window db uid (Date.midnight start))
          /\ forall x y, In x (top_expenses ctx) -> In y rest ->
                         amount_ge x y)
    /\ List.length (top_expenses ctx)
       = Nat.min 5 (List.length
                      (expenses_in_window db uid (Date.midnight start))).
Proof.
  intros Hu Hb Hs.
  destruct (dashboard_renders db uid u ib args d start Hu Hb Hs) as [ctx Hd].
  exists ctx. split; [exact Hd|].
  assert (top_expenses ctx
          = firstn 5 (order_by amount_desc
                        (expenses_in_window db uid (Date.midnight start))))
    as Htop.
  { revert Hd. unfold dashboard. rewrite Hu, Hb, Hs.
    destruct (bind _ _); [|discriminate].
    destruct (chart_values _ _ _) as [[ev iv]|]; [|discriminate].
    intros H. inversion H; subst. simpl. now rewrite top_query_filter. }
  rewrite Htop.
  set (c := expenses_in_window db uid (Date.midnight start)).
  assert (StronglySorted amount_ge (order_by amount_desc c)) as Hsorted.
  { apply (StronglySorted_impl (fun a b => amount_desc a b = true)).
    - intros a b H. unfold amount_desc in H. now apply Z.leb_le in H.
    - apply order_by_sorted.
      + apply amount_desc_total.
      + apply amount_desc_trans. }
  destruct (limit_of_sorted c _ (order_by_perm amount_desc c) Hsorted)
    as [Hlen [Hs5 [Hin [Hrest Hmin]]]].
  split; [exact Hlen|]. split; [exact Hs5|].
  split; [|split; [exact Hrest|exact Hmin]].
  intros t H. apply (expenses_in_window_spec db uid _ t). now apply Hin.
Qed.

(** ** Exactness of the balance *)

Lemma db_wf_spec (db : Db) :
  db_wf db = true ->
  NoDup (map Transaction.id (transactions db))
  /\ (forall t, In t (transactions db) ->
        1 <= Transaction.id t <= INT_MAX
        /\ Numeric.in_range (Transaction.amount t))
  /\ (forall u b, In u (users db) -> User.initial_balance u = Some b ->
        Numeric.in_range b).
Proof.
  unfold db_wf. rewrite !andb_true_iff.
  intros [[[[[[[_ _] Hpk] Hids] _] Hseq] Hamounts] Hbalances].
  rewrite forallb_forall in Hids, Hamounts, Hbalances.
  apply Z.leb_le in Hseq.
  assert (forall c, in_rangeb c = true -> Numeric.in_range c) as Hrange.
  { intros c Hc. unfold in_rangeb in Hc. apply andb_prop in Hc.
    destruct Hc as [A1 A2]. apply Z.ltb_lt in A1. apply Z.ltb_lt in A2.
    unfold Numeric.in_range. lia. }
  split; [now apply nodupb_NoDup|]. split.
  - intros t Ht. pose proof (Hids t Ht) as Hid.
    apply andb_prop in Hid. destruct Hid as [Hlo Hhi].
    apply Z.leb_le in Hlo. apply Z.leb_le in Hhi.
    split; [lia|]. apply Hrange. now apply Hamounts.
  - intros u b Hu Hb. pose proof (Hbalances u Hu) as Hr.
    rewrite Hb in Hr. now apply Hrange.
Qed.

(** Distinct keys drawn from [1..n] are at most [n]. *)
Lemma NoDup_bounded_length (l : list Z) (n : Z) :
  NoDup l -> (forall x, In x l -> 1 <= x <= n) -> 0 <= n ->
  Z.of_nat (List.length l) <= n.
Proof.
  intros Hnd Hb Hn.
  assert (incl l (map Z.of_nat (seq 1 (Z.to_nat n)))) as Hincl.
  { intros x Hx. specialize (Hb x Hx).
    apply in_map_iff. exists (Z.to_nat x). split; [lia|].
    apply in_seq. lia. }
  pose proof (NoDup_incl_length Hnd Hincl) as Hlen.
  rewrite length_map, length_seq in Hlen. lia.
Qed.

Lemma sum_bound (L : Z) (l : list Z) :
  (forall x, In x l -> - L < x < L) ->
  Z.abs (fold_right Z.add 0 l) <= Z.of_nat (List.length l) * L.
Proof.
  induction l as [|x l IH]; intros H.
  - simpl. lia.
  - assert (- L < x < L) as Hx by (apply H; now left).
    assert (Z.abs (fold_right Z.add 0 l) <= Z.of_nat (List.length l) * L)
      as IH' by (apply IH; intros y Hy; apply H; now right).
    cbn [fold_right List.length]. lia.
Qed.

Lemma total_cents_bound (db : Db) (uid : Z) (ty : string) (dt : datetime) :
  db_wf db = true -> Z.abs (total_cents db uid ty dt) <= TOTAL_BOUND.
Proof.
  intros Hwf. destruct (db_wf_spec db Hwf) as [Hnd [Htx _]].
  unfold total_cents.
  set (f := fun t => _ && _ && _).
  assert (Z.of_nat (List.length (transactions db)) <= INT_MAX) as Hlen.
  { rewrite <- (length_map Transaction.id).
    apply NoDup_bounded_length; auto.
    - intros x Hx. apply in_map_iff in Hx. destruct Hx as [t [<- Ht]].
      now apply Htx.
    - unfold INT_MAX. lia. }
  assert (Z.of_nat (List.length (filter f (transactions db)))
          <= Z.of_nat (List.length (transactions db))) as Hfl.
  { apply Nat2Z.inj_le. apply filter_length_le. }
  pose proof (sum_bound Numeric.limit
                (map Transaction.amount (filter f (transactions db)))) as Hs.
  rewrite length_map in Hs.
  assert (0 < Numeric.limit) as HL by reflexivity.
  unfold TOTAL_BOUND.
  etransitivity.
  - apply Hs. intros x Hx. apply in_map_iff in Hx.
    destruct Hx as [t [<- Ht]]. apply filter_In in Ht.
    destruct Ht as [Ht _]. now apply Htx.
  - apply Z.mul_le_mono_nonneg_r; lia.
Qed.

Lemma signed_abs (v : Z) : Dec.signed (v <? 0) (Z.abs_N v) = v.
Proof.
  unfold Dec.signed. destruct (Z.ltb_spec v 0); rewrite N2Z.inj_abs_N; lia.
Qed.

Lemma worth_load (c : Numeric.t) : worth (Numeric.load c) c.
Proof.
  unfold worth, Numeric.load. do 3 eexists.
  split; [reflexivity|]. split; [now left|].
  rewrite signed_abs. simpl. lia.
Qed.

Lemma worth_zero : worth (Dec.of_int 0) 0.
Proof.
  unfold worth. exists false, 0%N, 0. repeat split. now right.
Qed.

Lemma worth_cents (d : Decimal) (v : Z) : worth d v -> Dec.cents d = Some v.
Proof.
  intros [s [c [e [-> [He Hv]]]]]. unfold Dec.cents.
  destruct He as [-> | ->]; simpl in *; now subst.
Qed.

Lemma worth_coalesce_sum (l : list Numeric.t) :
  worth (coalesce_sum l) (fold_right Z.add 0 l).
Proof.
  unfold coalesce_sum, sql_sum. destruct l as [|x l].
  - apply worth_zero.
  - apply worth_load.
Qed.

(** [x or 0] keeps the worth: a falsy decimal is a zero. *)
Lemma worth_or_else (d : Decimal) (v : Z) :
  worth d v -> worth (Dec.or_else d (Dec.of_int 0)) v.
Proof.
  intros H. unfold Dec.or_else. destruct (Dec.truth d) eqn:T; auto.
  destruct H as [s [c [e [-> [He Hv]]]]]. simpl in T.
  apply negb_false_iff in T. apply N.eqb_eq in T. subst c.
  assert (v = 0) as -> by (unfold Dec.signed in Hv; destruct s; simpl in Hv; lia).
  apply worth_zero.
Qed.

(** Below 28 digits [_fix] changes nothing. *)
Lemma fix_small (s : bool) (v : Z) (e : Z) :
  Z.abs v < PREC_BOUND -> Dec.fix_ s (Z.abs_N v) e = Finite s (Z.abs_N v) e.
Proof.
  intros H. unfold Dec.fix_.
  assert ((Z.abs_N v <? 10 ^ Z.to_N Dec.prec)%N = true) as ->; auto.
  apply N.ltb_lt. apply N2Z.inj_lt. rewrite N2Z.inj_abs_N.
  change (Z.of_N (10 ^ Z.to_N Dec.prec)) with PREC_BOUND. exact H.
Qed.

(** Adding two such decimals is exact as long as the sum stays below
    [10^28] hundredths. *)
Lemma add_worth (a b : Decimal) (va vb : Z) :
  worth a va -> worth b vb -> Z.abs (va + vb) < PREC_BOUND ->
  exists r, Dec.add a b = Ok r /\ worth r (va + vb).
Proof.
  intros [s1 [c1 [e1 [-> [He1 Hv1]]]]] [s2 [c2 [e2 [-> [He2 Hv2]]]]] Hb.
  cbn [Dec.add Dec.check_nans].
  set (e := Z.min e1 e2).
  set (v := Dec.signed s1 c1 * 10 ^ (e1 - e) + Dec.signed s2 c2 * 10 ^ (e2 - e)).
  assert ((e = -2 \/ e = 0) /\ v * 10 ^ (e + 2) = va + vb) as [He Hv].
  { subst v e va vb.
    destruct He1 as [-> | ->], He2 as [-> | ->]; simpl; split; auto; lia. }
  assert (Z.abs v < PREC_BOUND) as Hsmall.
  { destruct He as [E | E]; rewrite E in Hv; simpl in Hv; lia. }
  rewrite (fix_small _ v e Hsmall).
  eexists. split; [reflexivity|].
  exists (if ((c1 =? 0) && (c2 =? 0))%N then s1 && s2 else v <? 0),
         (Z.abs_N v), e.
  split; [reflexivity|]. split; [exact He|].
  rewrite <- Hv. f_equal.
  destruct ((c1 =? 0)%N && (c2 =? 0)%N) eqn:Z0.
  - apply andb_prop in Z0. destruct Z0 as [Z1 Z2].
    apply N.eqb_eq in Z1. apply N.eqb_eq in Z2.
    assert (v = 0) as ->.
    { subst v c1 c2. unfold Dec.signed. destruct s1, s2; simpl; lia. }
    unfold Dec.signed. destruct (s1 && s2); reflexivity.
  - apply signed_abs.
Qed.

Lemma worth_negate (d : Decimal) (v : Z) :
  worth d v -> worth (Dec.negate d) (- v).
Proof.
  intros [s [c [e [-> [He Hv]]]]]. exists (negb s), c, e.
  split; [reflexivity|]. split; auto.
  rewrite <- Hv. unfold Dec.signed. destruct s; simpl; lia.
Qed.

Lemma sub_worth (a b : Decimal) (va vb : Z) :
  worth a va -> worth b vb -> Z.abs (va - vb) < PREC_BOUND ->
  exists r, Dec.sub a b = Ok r /\ worth r (va - vb).
Proof.
  intros Ha Hb Hs.
  assert (Dec.sub a b = Dec.add a (Dec.negate b)) as ->.
  { destruct Ha as [s1 [c1 [e1 [-> _]]]], Hb as [s2 [c2 [e2 [-> _]]]].
    reflexivity. }
  apply (add_worth a (Dec.negate b) va (- vb)); auto.
  now apply worth_negate.
Qed.

Lemma total_of_worth (db : Db) (uid : Z) (ty : string) (dt : datetime) :
  worth (total_of db uid ty dt) (total_cents db uid ty dt).
Proof. unfold total_of, total_cents. apply worth_coalesce_sum. Qed.

(** C1: for a logged-in user whose initial balance is set, and every period
    selector, the dashboard is rendered and its balance is exactly
    [initial_balance + total_income - total_expense], where each total is
    the sum of the amounts of the user's transactions of that type dated at
    or after the start of the period (zero when there is none); the
    precision of the decimal context never comes into play. *)
Theorem dashboard_balance_exact
    (db : Db) (uid : Z) (u : User.t) (ib : Numeric.t)
    (args : fields) (d start : date) :
  db_wf db = true ->
  current_user db uid = Some u ->
  User.initial_balance u = Some ib ->
  period_start (get_default args "period" "month") d = Ok start ->
  let start_dt := Date.midnight start in
  let income := total_cents db uid "income" start_dt in
  let expense := total_cents db uid "expense" start_dt in
  exists ctx,
    dashboard db uid args d = (db, Render (DashboardPage ctx))
    /\ Dec.cents (total_income ctx) = Some income
    /\ Dec.cents (total_expense ctx) = Some expense
    /\ Dec.cents (balance ctx) = Some (ib + income - expense).
Proof.
  intros Hwf Hu Hb Hs start_dt income expense.
  destruct (db_wf_spec db Hwf) as [_ [_ Hbal]].
  destruct (current_user_spec _ _ _ Hu) as [Hin _].
  pose proof (Hbal u ib Hin Hb) as Hib. unfold Numeric.in_range in Hib.
  pose proof (total_cents_bound db uid "income" start_dt Hwf) as Hti.
  pose proof (total_cents_bound db uid "expense" start_dt Hwf) as Hte.
  fold income in Hti. fold expense in Hte.
  assert (Numeric.limit + 2 * TOTAL_BOUND < PREC_BOUND) as Hroom
    by reflexivity.
  assert (0 < Numeric.limit) as HL by reflexivity.
  assert (worth (Dec.or_else (Numeric.load ib) (Finite false 0 0)) ib) as W0.
  { apply (worth_or_else _ ib), worth_load. }
  assert (worth (Dec.or_else (total_of db uid "income" start_dt)
                             (Dec.of_int 0)) income) as W1.
  { apply worth_or_else, total_of_worth. }
  assert (worth (Dec.or_else (total_of db uid "expense" start_dt)
                             (Dec.of_int 0)) expense) as W2.
  { apply worth_or_else, total_of_worth. }
  destruct (add_worth _ _ ib income W0 W1) as [r1 [E1 Wr1]]; [lia|].
  destruct (sub_worth _ _ (ib + income) expense Wr1 W2) as [r2 [E2 Wr2]];
    [lia|].
  destruct (chart_values_finite
              (expense_breakdown db uid start_dt)
              (Dec.or_else (total_of db uid "income" start_dt)
                           (Dec.of_int 0))
              (Dec.or_else (total_of db uid "expense" start_dt)
                           (Dec.of_int 0)))
    as [fi [fe [_ [_ E3]]]];
    try (apply or_else_finite;
         [apply coalesce_sum_finite|apply of_int_finite]).
  unfold dashboard. rewrite Hu, Hb, Hs. fold start_dt.
  unfold bind. rewrite E1, E2, E3.
  eexists. split; [reflexivity|]. cbn [total_income total_expense balance].
  repeat split.
  - apply worth_cents, total_of_worth.
  - apply worth_cents, total_of_worth.
  - now apply worth_cents.
Qed.

Lemma dashboard_balance_exact_witness :
  exists ctx,
    dashboard Sample.after_income 1 [("period", "month")]%string Sample.today
    = (Sample.after_income, Render (DashboardPage ctx))
    /\ Dec.cents (total_income ctx) = Some 50000
    /\ Dec.cents (total_expense ctx) = Some 20000
    /\ Dec.cents (balance ctx) = Some (100000 + 50000 - 20000).
Proof.
  apply (dashboard_balance_exact Sample.after_income 1 Sample.anna' 100000
           [("period", "month")]%string Sample.today (mkdate 2026 11 1));
    reflexivity.
Defined.

(** The scenario of the specification: a balance of 1000.00, an expense of
    200.00 and an income of 500.00 in the current month. *)
Example dashboard_scenario :
  exists ctx,
    dashboard Sample.after_income 1 [("period", "month")]%string Sample.today
    = (Sample.after_income, Render (DashboardPage ctx))
    /\ total_income ctx = Finite false 50000 (-2)
    /\ total_expense ctx = Finite false 20000 (-2)
    /\ balance ctx = Finite false 130000 (-2).
Proof. eexists. split; [vm_compute; reflexivity|]. repeat split. Qed.

Lemma top_expenses_largest_five_witness :
  exists ctx,
    dashboard Sample.busy 1 [("period", "month")]%string Sample.today
    = (Sample.busy, Render (DashboardPage ctx))
    /\ (List.length (top_expenses ctx) <= 5)%nat
    /\ StronglySorted amount_ge (top_expenses ctx)
    /\ (forall t, In t (top_expenses ctx) ->
          In t (transactions Sample.busy)
          /\ Transaction.type t = "expense"%string
          /\ Transaction.user_id t = 1
          /\ Date.geb (Transaction.created_at t)
                      (Date.midnight (mkdate 2026 11 1)) = true)
    /\ (exists rest,
          Permutation (top_expenses ctx ++ rest)
            (expenses_in_window Sample.busy 1
               (Date.midnight (mkdate 2026 11 1)))
          /\ forall x y, In x (top_expenses ctx) -> In y rest ->
                         amount_ge x y)
    /\ List.length (top_expenses ctx)
       = Nat.min 5 (List.length
                      (expenses_in_window Sample.busy 1
                         (Date.midnight (mkdate 2026 11 1)))).
Proof.
  apply (top_expenses_largest_five Sample.busy 1 Sample.anna' 100000
           [("period", "month")]%string Sample.today (mkdate 2026 11 1));
    reflexivity.
Defined.

(** Of the seven expenses of the first user in [Sample.busy], the five
    largest are listed, largest first. *)
Example top_expenses_busy :
  exists ctx,
    dashboard Sample.busy 1 [("period", "month")]%string Sample.today
    = (Sample.busy, Render (DashboardPage ctx))
    /\ map Transaction.amount (top_expenses ctx)
       = [125000; 31000; 20000; 20000; 4250]
    /\ map Transaction.amount
         (expenses_in_window Sample.busy 1 (Date.midnight (mkdate 2026 11 1)))
       = [20000; 1500; 125000; 999; 31000; 4250; 20000].
Proof.
  eexists. split; [vm_compute; reflexivity|].
  split; vm_compute; reflexivity.
Qed.

(** ** Dates *)

Section DateFacts.

Import Date.

(** A year written as [400 a + 100 b + 4 c + e + 1]. *)
Lemma is_leap_decomposed (a b c e : Z) :
  0 <= a -> 0 <= b <= 3 -> 0 <= c <= 24 -> 0 <= e <= 3 ->
  is_leap (400 * a + 100 * b + 4 * c + e + 1)
  = (e =? 3) && (negb (c =? 24) || (b =? 3)).
Proof.
  intros Ha Hb Hc He. unfold is_leap.
  set (y := 400 * a + 100 * b + 4 * c + e + 1).
  assert (y mod 4 = 0 <-> e = 3) as H4
    by (subst y; Z.div_mod_to_equations; lia).
  assert (e = 3 -> (y mod 100 = 0 <-> c = 24)) as H100
    by (subst y; intros; Z.div_mod_to_equations; lia).
  assert (e = 3 -> c = 24 -> (y mod 400 = 0 <-> b = 3)) as H400
    by (subst y; intros; Z.div_mod_to_equations; lia).
  destruct (Z.eqb_spec e 3) as [E|E].
  - destruct (Z.eqb_spec (y mod 4) 0) as [Y4|Y4]; [|tauto].
    destruct (Z.eqb_spec c 24) as [C|C];
      destruct (Z.eqb_spec (y mod 100) 0) as [Y100|Y100];
      destruct (Z.eqb_spec b 3) as [B|B];
      destruct (Z.eqb_spec (y mod 400) 0) as [Y400|Y400];
      simpl; auto; tauto.
  - destruct (Z.eqb_spec (y mod 4) 0) as [Y4|Y4]; [tauto|reflexivity].
Qed.

Lemma days_before_year_decomposed (a b c e : Z) :
  0 <= a -> 0 <= b <= 3 -> 0 <= c <= 24 -> 0 <= e <= 3 ->
  days_before_year (400 * a + 100 * b + 4 * c + e + 1)
  = 146097 * a + 36524 * b + 1461 * c + 365 * e.
Proof.
  intros. unfold days_before_year. Z.div_mod_to_equations. lia.
Qed.

Lemma within_year (y : Z) (L : bool) (r : Z) :
  is_leap y = L -> 0 <= r <= 364 ->
  let m := Z.shiftr (r + 50) 5 in
  let preceding :=
    nth (Z.to_nat m) DAYS_BEFORE_MONTH (-1)
    + (if (2 <? m) && L then 1 else 0) in
  let res :=
    if r <? preceding then
      let m' := m - 1 in
      let preceding' :=
        preceding
        - (nth (Z.to_nat m') DAYS_IN_MONTH (-1)
           + (if (m' =? 2) && L then 1 else 0)) in
      (m', r - preceding' + 1)
    else (m, r - preceding + 1) in
  1 <= fst res <= 12
  /\ 1 <= snd res <= days_in_month y (fst res)
  /\ days_before_month y (fst res) + snd res = r + 1.
Proof.
  intros HL Hr m.
  assert (m = (r + 50) / 32) as Hm
    by (unfold m; now rewrite Z.shiftr_div_pow2 by lia).
  assert (1 <= m <= 12) as Hrange
    by (rewrite Hm; Z.div_mod_to_equations; lia).
  assert (32 * m - 50 <= r <= 32 * m - 19) as Hest
    by (rewrite Hm; Z.div_mod_to_equations; lia).
  clearbody m. clear Hm.
  unfold days_in_month, days_before_month. rewrite HL.
  cbv zeta.
  match goal with
  | |- context [if ?a <? ?b then _ else _] => destruct (Z.ltb_spec a b)
  end; cbn [fst snd];
  assert (m = 1 \/ m = 2 \/ m = 3 \/ m = 4 \/ m = 5 \/ m = 6 \/ m = 7
          \/ m = 8 \/ m = 9 \/ m = 10 \/ m = 11 \/ m = 12) as Hcases by lia;
  repeat (destruct Hcases as [->|Hcases]); try subst m;
  destruct L; eval_closed; lia.
Qed.

Lemma valid_intro (y m d : Z) :
  1 <= y <= 9999 -> 1 <= m <= 12 -> 1 <= d <= days_in_month y m ->
  valid (mkdate y m d) = true.
Proof.
  intros Hy Hm Hd. unfold valid, MINYEAR, MAXYEAR. cbn [year month day].
  rewrite !andb_true_iff, !Z.leb_le. lia.
Qed.

Lemma fromordinal_spec (n : Z) :
  1 <= n <= MAXORDINAL ->
  valid (fromordinal n) = true /\ toordinal (fromordinal n) = n.
Proof.
  change MAXORDINAL with 3652059. intros Hn.
  unfold fromordinal.
  change DI400Y with 146097. change DI100Y with 36524. change DI4Y with 1461.
  set (n0 := n - 1).
  set (a := n0 / 146097). set (r400 := n0 mod 146097).
  set (b := r400 / 36524). set (r100 := r400 mod 36524).
  set (c := r100 / 1461). set (r4 := r100 mod 1461).
  set (e := r4 / 365). set (r1 := r4 mod 365).
  assert (n0 = 146097 * a + r400 /\ 0 <= r400 < 146097 /\ 0 <= a <= 24) as [E400 [B400 Ba]]
    by (subst a r400 n0; Z.div_mod_to_equations; lia).
  assert (r400 = 36524 * b + r100 /\ 0 <= r100 < 36524 /\ 0 <= b <= 4) as [E100 [B100 Bb]]
    by (subst b r100; Z.div_mod_to_equations; lia).
  assert (r100 = 1461 * c + r4 /\ 0 <= r4 < 1461 /\ 0 <= c <= 24) as [E4 [B4 Bc]]
    by (subst c r4; Z.div_mod_to_equations; lia).
  assert (r4 = 365 * e + r1 /\ 0 <= r1 < 365 /\ 0 <= e <= 4) as [E1 [B1 Be]]
    by (subst e r1; Z.div_mod_to_equations; lia).
  clearbody a r400 b r100 c r4 e r1.
  destruct (Z.eqb_spec b 4) as [Hb4|Hb4].
  { rewrite orb_true_r.
    assert (a * 400 + 1 + b * 100 + c * 4 + e - 1
            = 400 * a + 100 * 3 + 4 * 24 + 3 + 1) as -> by lia.
    split.
    - apply valid_intro; try lia.
      unfold days_in_month. rewrite is_leap_decomposed by lia.
      destruct (Z.eqb_spec c 24); try contradiction; eval_closed; lia.
    - unfold toordinal, days_before_month. cbn [year month day].
      rewrite is_leap_decomposed, days_before_year_decomposed by lia.
      eval_closed. lia. }
  destruct (Z.eqb_spec e 4) as [He4|He4].
  { cbn [orb].
    assert (a * 400 + 1 + b * 100 + c * 4 + e - 1
            = 400 * a + 100 * b + 4 * c + 3 + 1) as -> by lia.
    assert (c <> 24) as Hc by lia.
    split.
    - apply valid_intro; try lia.
      unfold days_in_month. rewrite is_leap_decomposed by lia.
      destruct (Z.eqb_spec c 24); try contradiction; eval_closed; lia.
    - unfold toordinal, days_before_month. cbn [year month day].
      rewrite is_leap_decomposed, days_before_year_decomposed by lia.
      destruct (Z.eqb_spec c 24); [contradiction|]. eval_closed. lia. }
  cbn [orb].
  set (L := (e =? 3) && (negb (c =? 24) || (b =? 3))).
  assert (a * 400 + 1 + b * 100 + c * 4 + e
          = 400 * a + 100 * b + 4 * c + e + 1) as -> by lia.
  set (y := 400 * a + 100 * b + 4 * c + e + 1).
  assert (is_leap y = L) as HL by (apply is_leap_decomposed; lia).
  assert (days_before_year y = n0 - r1) as Hdby
    by (unfold y; rewrite days_before_year_decomposed; lia).
  assert (1 <= y <= 9999) as Hy by (unfold y; lia).
  pose proof (within_year y L r1 HL ltac:(lia)) as H. cbv zeta in H.
  match goal with
  | |- context [if ?x <? ?p then _ else _] => destruct (Z.ltb_spec x p)
  end; cbn [fst snd] in H; destruct H as [Hm [Hd Hsum]].
  - split; [apply valid_intro; auto|].
    unfold toordinal. cbn [year month day]. lia.
  - split; [apply valid_intro; auto|].
    unfold toordinal. cbn [year month day]. lia.
Qed.

Lemma within_year_bound (y m d : Z) :
  1 <= m <= 12 -> 1 <= d <= days_in_month y m ->
  1 <= days_before_month y m + d <= 365 + (if is_leap y then 1 else 0).
Proof.
  intros Hm Hd. unfold days_in_month, days_before_month in *.
  assert (m = 1 \/ m = 2 \/ m = 3 \/ m = 4 \/ m = 5 \/ m = 6 \/ m = 7
          \/ m = 8 \/ m = 9 \/ m = 10 \/ m = 11 \/ m = 12) as Hcases by lia.
  repeat (destruct Hcases as [->|Hcases]); try subst m;
    destruct (is_leap y); eval_closed; lia.
Qed.

Lemma valid_elim (d : date) :
  valid d = true ->
  1 <= year d <= 9999 /\ 1 <= month d <= 12
  /\ 1 <= day d <= days_in_month (year d) (month d).
Proof.
  unfold valid, MINYEAR, MAXYEAR.
  rewrite !andb_true_iff, !Z.leb_le. lia.
Qed.

Lemma toordinal_range (d : date) :
  valid d = true -> 1 <= toordinal d <= MAXORDINAL.
Proof.
  intros Hv. apply valid_elim in Hv. destruct Hv as [Hy [Hm Hd]].
  pose proof (within_year_bound _ _ _ Hm Hd) as Hw.
  change MAXORDINAL with 3652059. unfold toordinal.
  assert (0 <= days_before_year (year d)) as H0
    by (unfold days_before_year; Z.div_mod_to_equations; lia).
  destruct (Z.eq_dec (year d) 9999) as [E|E].
  - rewrite E in *. change (is_leap 9999) with false in Hw.
    change (days_before_year 9999) with 3651694 in *. lia.
  - assert (days_before_year (year d) <= 3651329)
      by (unfold days_before_year; Z.div_mod_to_equations; lia).
    destruct (is_leap (year d)); lia.
Qed.

(** [d - timedelta(days=k)] is the date [k] days earlier. *)
Lemma sub_days_spec (d : date) (k : Z) :
  valid d = true -> 0 <= k < toordinal d ->
  exists d', sub_days d k = Ok d' /\ valid d' = true
             /\ toordinal d' = toordinal d - k.
Proof.
  intros Hv Hk. pose proof (toordinal_range d Hv) as Hr.
  unfold sub_days.
  assert ((0 <? toordinal d - k) && (toordinal d - k <=? MAXORDINAL) = true)
    as -> by (rewrite andb_true_iff, Z.ltb_lt, Z.leb_le; lia).
  exists (fromordinal (toordinal d - k)). split; auto.
  apply fromordinal_spec. lia.
Qed.

(** The window start can be computed for every date of the calendar but
    the first week of year 1, and is itself a date of the calendar; for
    "week" it lies exactly 7 days back. *)
Lemma period_start_total (p : string) (d : date) :
  valid d = true -> 7 < toordinal d ->
  exists start, period_start p d = Ok start /\ valid start = true
                /\ (p = "week"%string ->
                    toordinal start = toordinal d - 7).
Proof.
  intros Hv Hd. pose proof (valid_elim d Hv) as [Hy [Hm Hday]].
  assert (valid (replace_day1 d) = true) as V1.
  { apply valid_intro; auto. unfold days_in_month.
    assert (month d = 1 \/ month d = 2 \/ month d = 3 \/ month d = 4
            \/ month d = 5 \/ month d = 6 \/ month d = 7 \/ month d = 8
            \/ month d = 9 \/ month d = 10 \/ month d = 11 \/ month d = 12)
      as Hcases by lia.
    repeat (destruct Hcases as [->|Hcases]); try rewrite Hcases;
      destruct (is_leap (year d)); eval_closed; lia. }
  unfold period_start.
  destruct (String.eqb_spec p "week") as [->|Hw].
  - destruct (sub_days_spec d 7 Hv ltac:(lia)) as [d' [E [V T]]].
    exists d'. auto.
  - destruct (String.eqb p "month").
    { exists (replace_day1 d). repeat split; auto. contradiction. }
    destruct (String.eqb p "year").
    { exists (replace_month1_day1 d). repeat split; try contradiction.
      apply valid_intro; auto; [lia|]. unfold days_in_month.
      eval_closed. lia. }
    destruct (String.eqb p "all").
    { exists (mkdate 1970 1 1). repeat split. contradiction. }
    exists (replace_day1 d). repeat split; auto. contradiction.
Qed.

End DateFacts.

(** ** The window of the selector "all" *)

(** The selectors other than "all". *)
Lemma period_start_cases (d : date) :
  period_start "week" d = Date.sub_days d 7
  /\ period_start "month" d = Ok (mkdate (year d) (month d) 1)
  /\ period_start "year" d = Ok (mkdate (year d) 1 1)
  /\ (forall p, p <> "week"%string -> p <> "month"%string ->
                p <> "year"%string -> p <> "all"%string ->
                period_start p d = period_start "month" d).
Proof.
  repeat split. intros p H1 H2 H3 H4. unfold period_start.
  apply String.eqb_neq in H1, H2, H3, H4.
  now rewrite H1, H2, H3, H4.
Qed.

Example week_before :
  Date.sub_days (mkdate 2026 11 3) 7 = Ok (mkdate 2026 10 27)
  /\ Date.sub_days (mkdate 2026 1 3) 7 = Ok (mkdate 2025 12 27)
  /\ Date.sub_days (mkdate 2024 3 5) 7 = Ok (mkdate 2024 2 27).
Proof. repeat split. Qed.

(** C2, where the code departs from it: the selector "all" starts the
    window on 1 January 1970, although dates from 0001-01-01 on are
    representable and accepted by [add_transaction].  An expense dated
    1969-12-31 is stored, and the dashboard for "all" leaves it out of the
    recent transactions, the top expenses and the total. *)
Theorem period_all_starts_in_1970 :
  (forall d, period_start "all" d = Ok (mkdate 1970 1 1))
  /\ Date.make 1 1 1 = Ok (mkdate 1 1 1)
  /\ Date.compare (mkdate 1 1 1) (mkdate 1970 1 1) = Lt
  /\ map (fun t => (Transaction.amount t, Transaction.created_at t))
         (transactions Sample.with_old_expense)
     = [(1000, Date.midnight (mkdate 1969 12 31))]
  /\ exists ctx,
       dashboard Sample.with_old_expense 1 [("period", "all")]%string
                 Sample.today
       = (Sample.with_old_expense, Render (DashboardPage ctx))
       /\ recent_transactions ctx = []
       /\ top_expenses ctx = []
       /\ total_expense ctx = Dec.of_int 0
       /\ balance ctx = Numeric.load 100000.
Proof.
  split; [reflexivity|]. split; [reflexivity|]. split; [reflexivity|].
  split; [vm_compute; reflexivity|].
  eexists. split; [vm_compute; reflexivity|]. repeat split.
Qed.

(** ** Amounts below half a cent *)

Lemma round_scaled_nonneg (m : N) (k : Z) : 0 <= Numeric.round_scaled m k.
Proof.
  unfold Numeric.round_scaled.
  destruct (Z.leb_spec 0 k) as [Hk|Hk].
  - apply Z.mul_nonneg_nonneg; [lia|]. apply Z.pow_nonneg. lia.
  - assert (0 < 10 ^ (- k)) as Hpos by (apply Z.pow_pos_nonneg; lia).
    pose proof (Z.div_pos (Z.of_N m) _ (N2Z.is_nonneg m) Hpos).
    destruct (_ <=? _); lia.
Qed.

(** What passes the amount check is stored as a non-negative number of
    hundredths. *)
Lemma stored_amount_nonneg (raw : option string) (d : Decimal)
                           (c : Numeric.t) :
  positive_amount raw = Ok d -> Numeric.store d = Some c -> 0 <= c.
Proof.
  intros Hp Hs. apply positive_amount_ok in Hp.
  destruct Hp as [_ [[m [e [-> Hm]]]| ->]]; [|discriminate].
  apply store_spec in Hs. destruct Hs as [_ [_ ->]].
  apply round_scaled_nonneg.
Qed.

(** It is stored above zero exactly when it is at least half a cent. *)
Lemma stored_amount_positive (m : N) (e : Z) (c : Numeric.t) :
  (0 < m)%N -> Numeric.store (Finite false m e) = Some c ->
  (0 < c <-> 0 <= e + 2 \/ 10 ^ (- (e + 2)) <= 2 * Z.of_N m).
Proof.
  intros Hm H. apply store_spec in H. destruct H as [_ [_ ->]].
  unfold Numeric.round_scaled.
  destruct (Z.leb_spec 0 (e + 2)) as [He|He].
  - split; [auto|]. intros _.
    apply Z.mul_pos_pos; [lia|]. apply Z.pow_pos_nonneg; lia.
  - set (p := 10 ^ (- (e + 2))).
    assert (0 < p) as Hp by (apply Z.pow_pos_nonneg; lia).
    pose proof (Z.div_mod (Z.of_N m) p ltac:(lia)) as Hdm.
    pose proof (Z.mod_pos_bound (Z.of_N m) p Hp) as Hr.
    pose proof (Z.div_pos (Z.of_N m) p ltac:(lia) Hp) as Hq.
    set (q := Z.of_N m / p) in *. set (r := Z.of_N m mod p) in *.
    assert (0 < Z.of_N m) as Hm' by lia.
    clearbody p q r.
    destruct (Z.leb_spec p (2 * r)) as [Hup|Hdown].
    + split; [intros _; right; nia|lia].
    + split.
      * intros Hpos. right. nia.
      * intros [Hneg|Hge]; [lia|].
        destruct (Z.eq_dec q 0) as [E|E]; [|lia].
        subst q. lia.
Qed.

(** C3, where the code departs from it: the amount ["0.001"] passes the
    check [amount <= 0] of both handlers, the request succeeds, and the
    [Numeric(14, 2)] column keeps it as 0.00: after the add the one row has
    the amount 0, and after the edit of row 1 the stored amounts are 0 and
    500.00, the 0 being that of row 1. *)
Theorem sub_cent_amount_stored_as_zero :
  positive_amount (Some "0.001"%string) = Ok (Finite false 1 (-3))
  /\ Numeric.store (Finite false 1 (-3)) = Some 0
  /\ (let r := add_transaction Sample.with_balance 1
                 [("type", "expense"); ("amount", "0.001");
                  ("category_id", "1")]%string Sample.now in
      snd r = Redirect flash_added EpDashboard
      /\ map Transaction.amount (transactions (fst r)) = [0])
  /\ (let r := edit_transaction Sample.after_income 1 1 POST
                 [("amount", "0.001"); ("category_id", "1")]%string in
      snd r = Redirect flash_updated EpDashboard
      /\ Permutation (map Transaction.amount (transactions (fst r)))
                     [0; 50000]
      /\ option_map Transaction.amount (find_transaction (fst r) 1 1)
         = Some 0).
Proof.
  split; [reflexivity|]. split; [reflexivity|].
  split; [split; reflexivity|].
  split; [reflexivity|]. split; [|reflexivity].
  vm_compute. apply perm_swap.
Qed.

(** ** The schema's constraints are invariant *)

Lemma store_in_range (d : Decimal) (c : Numeric.t) :
  Numeric.store d = Some c -> in_rangeb c = true.
Proof.
  destruct d as [s m e|s|s g p]; try discriminate.
  pose proof (round_scaled_nonneg m (e + 2)) as Hnn.
  intros H. apply store_spec in H. destruct H as [_ [Hlt ->]].
  unfold in_rangeb.
  apply andb_true_intro. rewrite Z.ltb_lt, Z.ltb_lt.
  destruct s; lia.
Qed.

Lemma nodupb_filter (f : Z -> bool) (l : list Z) :
  nodupb l = true -> nodupb (filter f l) = true.
Proof.
  induction l as [|x l IH]; simpl; auto.
  intros H. apply andb_prop in H. destruct H as [Hx Hl].
  destruct (f x); simpl; auto.
  rewrite (IH Hl), andb_true_r.
  apply negb_true_iff in Hx. apply negb_true_iff.
  destruct (existsb (Z.eqb x) (filter f l)) eqn:E; auto.
  apply existsb_exists in E. destruct E as [y [Hy Hxy]].
  apply filter_In in Hy. destruct Hy as [Hy _].
  assert (existsb (Z.eqb x) l = true) as E'
    by (apply existsb_exists; eauto).
  congruence.
Qed.

Lemma nodupb_snoc (l : list Z) (n : Z) :
  nodupb l = true -> (forall x, In x l -> x < n) ->
  nodupb (l ++ [n]) = true.
Proof.
  induction l as [|x l IH]; simpl; auto.
  intros H Hb. apply andb_prop in H. destruct H as [Hx Hl].
  rewrite IH; auto. rewrite andb_true_r.
  apply negb_true_iff in Hx. apply negb_true_iff.
  rewrite existsb_app, Hx. simpl.
  assert (x < n) by (apply Hb; now left).
  destruct (Z.eqb_spec x n); [lia|reflexivity].
Qed.

Lemma map_id_filter (f : Transaction.t -> bool) (tx_id : Z)
                    (l : list Transaction.t) :
  (forall t, f t = negb (Transaction.id t =? tx_id)) ->
  map Transaction.id (filter f l)
  = filter (fun i => negb (i =? tx_id)) (map Transaction.id l).
Proof.
  intros Hf. induction l as [|t l IH]; simpl; auto.
  rewrite Hf. destruct (negb (Transaction.id t =? tx_id)); simpl;
    now rewrite IH.
Qed.

Lemma forallb_filter {A : Type} (P f : A -> bool) (l : list A) :
  forallb P l = true -> forallb P (filter f l) = true.
Proof.
  rewrite !forallb_forall. intros H x Hx.
  apply filter_In in Hx. now apply H.
Qed.

Lemma forallb_map_same {A : Type} (P : A -> bool) (g : A -> A) (l : list A) :
  (forall x, P x = true -> P (g x) = true) ->
  forallb P l = true -> forallb P (map g l) = true.
Proof.
  intros Hg. rewrite !forallb_forall. intros H x Hx.
  apply in_map_iff in Hx. destruct Hx as [y [<- Hy]]. auto.
Qed.

Lemma set_initial_balance_wf (db : Db) (uid : Z) (c : Numeric.t) :
  in_rangeb c = true -> db_wf db = true ->
  db_wf (set_initial_balance db uid c) = true.
Proof.
  intros Hc. unfold db_wf, set_initial_balance. simpl.
  rewrite !andb_true_iff.
  intros [[[[[[[H1 H2] H3] H4] H5] H6] H7] H8].
  repeat split; auto.
  - rewrite map_map.
    erewrite map_ext; [exact H1|].
    intros x. simpl. now destruct (User.id x =? uid).
  - apply forallb_map_same; auto.
    intros x Hx. destruct (User.id x =? uid); auto.
Qed.

Lemma remove_transaction_wf (db : Db) (tx_id : Z) :
  db_wf db = true -> db_wf (remove_transaction db tx_id) = true.
Proof.
  unfold db_wf, remove_transaction. simpl. rewrite !andb_true_iff.
  intros [[[[[[[H1 H2] H3] H4] H5] H6] H7] H8].
  repeat split; auto using forallb_filter.
  rewrite (map_id_filter _ tx_id) by reflexivity.
  now apply nodupb_filter.
Qed.

Lemma nodupb_snoc_fresh (l : list Z) (n : Z) :
  nodupb l = true -> ~ In n l -> nodupb (l ++ [n]) = true.
Proof.
  induction l as [|x l IH]; cbn [nodupb app]; auto.
  intros H Hn. apply andb_prop in H. destruct H as [Hx Hl].
  rewrite IH; [|exact Hl|intros Hin; apply Hn; now right].
  rewrite andb_true_r. apply negb_true_iff in Hx. apply negb_true_iff.
  rewrite existsb_app, Hx. cbn [existsb orb].
  rewrite orb_false_r. apply Z.eqb_neq. intros E. apply Hn. now left.
Qed.

Lemma update_transaction_wf (db : Db) (tx tx' : Transaction.t) :
  In tx (transactions db) ->
  Transaction.id tx' = Transaction.id tx ->
  in_rangeb (Transaction.amount tx') = true ->
  db_wf db = true -> db_wf (update_transaction db tx') = true.
Proof.
  intros Hin Hid Hc. unfold db_wf, update_transaction.
  cbn [users categories transactions transactions_id_seq].
  rewrite !andb_true_iff.
  intros [[[[[[[H1 H2] H3] H4] H5] H6] H7] H8].
  rewrite map_app, !forallb_app. cbn [map forallb].
  rewrite (map_id_filter _ (Transaction.id tx')) by reflexivity.
  rewrite !andb_true_r, !andb_true_iff.
  repeat split; auto using forallb_filter.
  - apply nodupb_snoc_fresh; [now apply nodupb_filter|].
    intros Hx. apply filter_In in Hx. destruct Hx as [_ Hx].
    now rewrite Z.eqb_refl in Hx.
  - rewrite Hid. rewrite forallb_forall in H4. specialize (H4 tx Hin).
    apply andb_prop in H4. tauto.
  - rewrite Hid. rewrite forallb_forall in H4. specialize (H4 tx Hin).
    apply andb_prop in H4. tauto.
Qed.

Lemma add_row_wf (db : Db) (tx : Transaction.t) :
  Transaction.id tx = transactions_id_seq db + 1 ->
  transactions_id_seq db + 1 <= INT_MAX ->
  in_rangeb (Transaction.amount tx) = true ->
  db_wf db = true ->
  db_wf (mkDb (users db) (categories db) (transactions db ++ [tx])
              (transactions_id_seq db + 1)) = true.
Proof.
  intros Hid Hmax Hc. unfold db_wf. simpl. rewrite !andb_true_iff.
  intros [[[[[[[H1 H2] H3] H4] H5] H6] H7] H8].
  apply Z.leb_le in H5. rewrite forallb_forall in H4.
  repeat split; auto.
  - rewrite map_app. simpl. rewrite Hid. apply nodupb_snoc; auto.
    intros x Hx. apply in_map_iff in Hx. destruct Hx as [t [<- Ht]].
    specialize (H4 t Ht). apply andb_prop in H4. destruct H4 as [_ H4].
    apply Z.leb_le in H4. lia.
  - rewrite forallb_app. simpl. rewrite Hid.
    apply andb_true_intro. split.
    + rewrite forallb_forall. intros t Ht. specialize (H4 t Ht).
      apply andb_prop in H4. destruct H4 as [Hlo Hhi].
      apply Z.leb_le in Hlo. apply Z.leb_le in Hhi.
      apply andb_true_intro. rewrite !Z.leb_le. lia.
    + rewrite andb_true_r. apply andb_true_intro. rewrite !Z.leb_le. lia.
  - apply Z.leb_le. lia.
  - now apply Z.leb_le.
  - rewrite forallb_app. simpl. now rewrite H7, Hc.
Qed.

(** Every handler keeps the constraints of the schema: a store of numbers
    within their ranges stays one. *)
Lemma handle_wf (db : Db) (uid : Z) (r : request) :
  db_wf db = true -> db_wf (fst (handle db uid r)) = true.
Proof.
  intros Hwf.
  destruct r as [method form|args d|form utcnow|tx_id method form|tx_id];
    simpl.
  - unfold setup_balance.
    destruct (current_user db uid) as [u|]; auto.
    destruct (User.initial_balance u); auto.
    destruct method; auto.
    destruct (parse_decimal _) as [amount|[]]; auto.
    destruct (Numeric.store amount) as [c|] eqn:Hc; auto. simpl.
    apply set_initial_balance_wf; auto. eapply store_in_range; eauto.
  - now rewrite dashboard_store.
  - unfold add_transaction.
    destruct (current_user db uid) as [u|]; auto.
    destruct (positive_amount _) as [amount|[]]; auto.
    destruct (Int.of_field _) as [cid|[]]; auto.
    destruct (find_category _ _ _ _) as [cat|]; auto.
    destruct (Numeric.store amount) as [c|] eqn:Hc; auto.
    destruct (Z.leb_spec (transactions_id_seq db + 1) INT_MAX); auto.
    simpl. apply add_row_wf; auto. simpl. eapply store_in_range; eauto.
  - unfold edit_transaction.
    destruct (current_user db uid) as [u|]; auto.
    destruct (find_transaction _ _ _) as [tx|] eqn:Htx; auto.
    destruct method.
    + destruct (find _ (categories db)); auto.
    + destruct (positive_amount _) as [amount|[]]; auto.
      destruct (Int.of_field _) as [cid|[]]; auto.
      destruct (find_category _ _ _ _) as [cat|]; auto.
      destruct (Numeric.store amount) as [c|] eqn:Hc; auto.
      simpl. apply (update_transaction_wf db tx); auto.
      * unfold find_transaction in Htx. now apply find_some in Htx.
      * simpl. eapply store_in_range; eauto.
  - unfold delete_transaction.
    destruct (current_user db uid) as [u|]; auto.
    destruct (find_transaction _ _ _) as [tx|]; auto.
    simpl. now apply remove_transaction_wf.
Qed.

Lemma run_wf (reqs : list (Z * request)) (db : Db) :
  db_wf db = true -> db_wf (run db reqs) = true.
Proof.
  revert db. induction reqs as [|[uid r] reqs IH]; intros db H; simpl; auto.
  apply IH. now apply handle_wf.
Qed.

(** ** Rows of other users survive *)

(** Whatever id and form a user submits to [edit_transaction] or
    [delete_transaction], the transactions of other users stay in the store
    as they were. *)
Lemma foreign_rows_survive (db : Db) (uid tx_id : Z) (t : Transaction.t) :
  db_wf db = true ->
  In t (transactions db) -> Transaction.user_id t <> uid ->
  (forall method form,
      In t (transactions (fst (edit_transaction db uid tx_id method form))))
  /\ In t (transactions (fst (delete_transaction db uid tx_id))).
Proof.
  intros Hwf Hin Hne.
  pose proof (db_wf_transactions db Hwf) as Hnd.
  assert (forall u tx, current_user db uid = Some u ->
            find_transaction db tx_id (User.id u) = Some tx ->
            In tx (transactions db)
            /\ Transaction.id t <> Transaction.id tx) as Hother.
  { intros u tx Hu Htx.
    destruct (current_user_spec _ _ _ Hu) as [_ Hid].
    unfold find_transaction in Htx. apply find_some in Htx.
    destruct Htx as [Hin' Hb]. apply andb_prop in Hb.
    destruct Hb as [_ Hown]. apply Z.eqb_eq in Hown.
    split; auto. intros E.
    assert (t = tx) by (eapply (NoDup_map_id_eq Transaction.id); eauto).
    subst tx. congruence. }
  split.
  - intros method form. unfold edit_transaction.
    destruct (current_user db uid) as [u|] eqn:Hu; auto.
    destruct (find_transaction _ _ _) as [tx|] eqn:Htx; auto.
    destruct (Hother u tx eq_refl Htx) as [_ Hid].
    destruct method.
    + destruct (find _ (categories db)); auto.
    + destruct (positive_amount _) as [amount|[]]; auto.
      destruct (Int.of_field _) as [cid|[]]; auto.
      destruct (find_category _ _ _ _) as [cat|]; auto.
      destruct (Numeric.store amount) as [c|]; auto.
      cbn [fst update_transaction transactions Transaction.id].
      apply in_or_app. left. apply filter_In. split; auto.
      destruct (Z.eqb_spec (Transaction.id t) (Transaction.id tx));
        [contradiction|reflexivity].
  - unfold delete_transaction.
    destruct (current_user db uid) as [u|] eqn:Hu; auto.
    destruct (find_transaction _ _ _) as [tx|] eqn:Htx; auto.
    destruct (Hother u tx eq_refl Htx) as [_ Hid].
    simpl. apply filter_In. split; auto.
    destruct (Z.eqb_spec (Transaction.id t) (Transaction.id tx));
      [contradiction|reflexivity].
Qed.

(** * Further properties *)

(** ** Amounts as the templates show them *)

Section CurrencyText.

Import Str.

Lemma ord_ascii_of_N (n : N) : (n < 256)%N -> ord (ascii_of_N n) = n.
Proof. intros H. unfold ord. now apply N_ascii_embedding. Qed.

Lemma digit_char (k : N) :
  (k < 10)%N ->
  isdigit (ascii_of_N (48 + k)) = true
  /\ digit_value (ascii_of_N (48 + k)) = k.
Proof.
  intros H. unfold isdigit, digit_value.
  rewrite ord_ascii_of_N by lia. split; [|lia].
  apply andb_true_intro. split; apply N.leb_le; lia.
Qed.

Lemma digits_value_snoc (ds : chars) (c : ascii) :
  digits_value (ds ++ [c]) = (10 * digits_value ds + digit_value c)%N.
Proof. unfold digits_value. now rewrite fold_left_app. Qed.

Lemma of_N_fuel_acc (fuel : nat) (n : N) (acc : chars) :
  DecText.of_N_fuel fuel n acc = DecText.of_N_fuel fuel n [] ++ acc.
Proof.
  revert n acc. induction fuel as [|f IH]; intros n acc; simpl; auto.
  destruct (n <? 10)%N; auto.
  rewrite (IH _ (_ :: acc)), (IH _ [_]). now rewrite <- app_assoc.
Qed.

Lemma of_N_fuel_spec (fuel : nat) (n : N) :
  (n < 10 ^ N.of_nat fuel)%N -> (0 < fuel)%nat ->
  all_digits (DecText.of_N_fuel fuel n [])
  /\ digits_value (DecText.of_N_fuel fuel n []) = n
  /\ DecText.of_N_fuel fuel n [] <> [].
Proof.
  revert n. induction fuel as [|f IH]; intros n Hn Hf; [lia|].
  cbn [DecText.of_N_fuel].
  assert (n mod 10 < 10)%N as Hm by (apply N.mod_lt; lia).
  destruct (digit_char (n mod 10) Hm) as [Hd Hv].
  destruct (N.ltb_spec n 10) as [Hs|Hl].
  - rewrite N.mod_small in * by lia.
    repeat split.
    + unfold all_digits. cbn [forallb]. now rewrite Hd.
    + unfold digits_value. cbn [fold_left]. lia.
    + discriminate.
  - rewrite of_N_fuel_acc.
    assert (n / 10 < 10 ^ N.of_nat f)%N as Hq.
    { apply N.Div0.div_lt_upper_bound.
      rewrite Nat2N.inj_succ, N.pow_succ_r' in Hn. lia. }
    assert (0 < f)%nat as Hf'.
    { destruct f; [|lia]. simpl in Hq.
      assert (n / 10 = 0)%N by lia.
      apply N.div_small_iff in H; lia. }
    destruct (IH (n / 10)%N Hq Hf') as [Ha [Hval Hne]].
    repeat split.
    + unfold all_digits in *. rewrite forallb_app, Ha. cbn [forallb].
      now rewrite Hd.
    + rewrite digits_value_snoc, Hval, Hv.
      rewrite (N.div_mod n 10) at 3 by lia. lia.
    + intros E. apply app_eq_nil in E. destruct E; discriminate.
Qed.

Lemma of_N_spec (n : N) :
  all_digits (DecText.of_N n)
  /\ digits_value (DecText.of_N n) = n
  /\ DecText.of_N n <> [].
Proof.
  unfold DecText.of_N. apply of_N_fuel_spec; [|lia].
  rewrite Nat2N.inj_succ, N2Nat.id.
  destruct n as [|p]; [reflexivity|].
  eapply N.lt_le_trans; [apply N.size_gt|].
  etransitivity; [|apply N.pow_le_mono_r; [lia|apply N.le_succ_diag_r]].
  apply N.pow_le_mono_l. lia.
Qed.


Lemma replace_cons (old : ascii) (new : chars) (c : ascii) (l : chars) :
  replace old new (c :: l)
  = (if Ascii.eqb c old then new else [c]) ++ replace old new l.
Proof. reflexivity. Qed.

Lemma replace_app (old : ascii) (new l1 l2 : chars) :
  replace old new (l1 ++ l2) = replace old new l1 ++ replace old new l2.
Proof. unfold replace. apply flat_map_app. Qed.

Lemma separators_undone (l : chars) :
  replace "," ["."%char]
    (replace " " []
       (replace "." [","%char] (replace "," [" "%char] l)))
  = filter kept l.
Proof.
  induction l as [|c l IH]; [reflexivity|].
  rewrite replace_cons, !replace_app, IH. cbn [filter]. unfold kept.
  destruct (Ascii.eqb_spec c ",") as [->|Hc]; [reflexivity|].
  destruct (Ascii.eqb_spec c " ") as [->|Hs]; [reflexivity|].
  destruct (Ascii.eqb_spec c ".") as [->|Hp]; [reflexivity|].
  cbn [negb andb].
  assert (forall old new, c <> old -> replace old new [c] = [c]) as E.
  { intros old new H. unfold replace. cbn [flat_map].
    destruct (Ascii.eqb_spec c old); [contradiction|reflexivity]. }
  now rewrite !E.
Qed.

Lemma filter_group_rev (l : chars) (n : nat) :
  forallb kept l = true ->
  filter kept (DecText.group_rev l n) = l.
Proof.
  revert n. induction l as [|c l IH]; intros n H; [reflexivity|].
  cbn [forallb] in H. apply andb_prop in H. destruct H as [Hc Hl].
  cbn [DecText.group_rev].
  destruct n as [|[|[|[|n]]]]; cbn [filter]; rewrite ?Hc, IH; auto.
Qed.

Lemma filter_kept_id (l : chars) :
  forallb kept l = true -> filter kept l = l.
Proof.
  induction l as [|c l IH]; cbn [forallb filter]; auto.
  intros H. apply andb_prop in H. destruct H as [Hc Hl].
  now rewrite Hc, IH.
Qed.

Lemma digits_kept (ds : chars) : all_digits ds -> forallb kept ds = true.
Proof.
  intros H. apply all_digits_forall; auto.
  intros c Hc. unfold kept.
  rewrite (digit_not_char c ","), (digit_not_char c " "); auto.
Qed.

Lemma thousands_sep_undone (ds : chars) :
  all_digits ds -> filter kept (DecText.insert_thousands_sep ds) = ds.
Proof.
  intros H. unfold DecText.insert_thousands_sep.
  rewrite filter_rev, filter_group_rev, rev_involutive; auto.
  apply digits_kept in H. rewrite forallb_forall in *.
  intros c Hc. apply H. now apply in_rev.
Qed.

Lemma two_digits_spec (ds : chars) (n : N) :
  (n < 100)%N ->
  all_digits (DecText.two_digits n)
  /\ digits_value (ds ++ DecText.two_digits n)
     = (100 * digits_value ds + n)%N.
Proof.
  intros H. unfold DecText.two_digits.
  assert (n / 10 < 10)%N as Hq
    by (apply N.Div0.div_lt_upper_bound; lia).
  assert (n mod 10 < 10)%N as Hm by (apply N.mod_lt; lia).
  destruct (digit_char _ Hq) as [Hd1 Hv1].
  destruct (digit_char _ Hm) as [Hd2 Hv2].
  split.
  - unfold all_digits. cbn [forallb]. now rewrite Hd1, Hd2.
  - change (ds ++ [ascii_of_N (48 + n / 10); ascii_of_N (48 + n mod 10)])
      with (ds ++ [ascii_of_N (48 + n / 10)] ++ [ascii_of_N (48 + n mod 10)]).
    rewrite app_assoc, !digits_value_snoc, Hv1, Hv2.
    rewrite (N.div_mod n 10) at 3 by lia. lia.
Qed.

Lemma ndigits_fuel_le (fuel : nat) (c : N) (k : Z) :
  1 <= k -> (c < 10 ^ Z.to_N k)%N -> Dec.ndigits_fuel fuel c <= k.
Proof.
  revert c k. induction fuel as [|f IH]; intros c k Hk Hc;
    cbn [Dec.ndigits_fuel]; [lia|].
  destruct (N.ltb_spec c 10) as [Hs|Hl]; [lia|].
  assert (2 <= k) as Hk2.
  { destruct (Z.eq_dec k 1) as [->|]; [|lia]. simpl in Hc. lia. }
  assert (Dec.ndigits_fuel f (c / 10) <= k - 1); [|lia].
  apply IH; [lia|].
  apply N.Div0.div_lt_upper_bound.
  replace (Z.to_N k) with (N.succ (Z.to_N (k - 1))) in Hc by lia.
  now rewrite N.pow_succ_r' in Hc.
Qed.

Lemma ndigits_pos (fuel : nat) (c : N) : 1 <= Dec.ndigits_fuel fuel c.
Proof.
  revert c. induction fuel as [|f IH]; intros c; cbn [Dec.ndigits_fuel];
    [lia|].
  destruct (c <? 10)%N; [lia|]. specialize (IH (c / 10)%N). lia.
Qed.

(** The format of a decimal already at two decimals, once the separators
    are undone, is its sign, its digits, a point and two digits. *)
Lemma format_undone (s : bool) (c : N) :
  filter kept (DecText.format_comma_2f (Finite s c (-2)))
  = sign_chars s ++ DecText.of_N (c / 100)
    ++ "."%char :: DecText.two_digits (c mod 100).
Proof.
  unfold DecText.format_comma_2f.
  assert (DecText.rescale c (-2) (-2) = c) as ->.
  { unfold DecText.rescale. destruct (N.eqb_spec c 0); [now subst|].
    simpl. lia. }
  assert (c mod 100 < 100)%N as Hm by (apply N.mod_lt; lia).
  destruct (of_N_spec (c / 100)) as [Hd _].
  destruct (two_digits_spec [] _ Hm) as [Hd2 _].
  rewrite !filter_app. cbn [filter]. change (kept ".") with true.
  rewrite (thousands_sep_undone _ Hd).
  rewrite (filter_kept_id (DecText.two_digits _)) by now apply digits_kept.
  now destruct s.
Qed.

(** What the filter shows of a decimal worth [c] hundredths reads back,
    through [parse_decimal], as that decimal. *)
Lemma shown_reads_back (s : bool) (c : N) :
  exists body,
    string_of_list_ascii
      (replace "." [","%char]
         (replace "," [" "%char]
            (DecText.format_comma_2f (Finite s c (-2)))))
    = body
    /\ parse_decimal (Some body) = Ok (Finite s c (-2)).
Proof.
  eexists. split; [reflexivity|].
  unfold parse_decimal, of_string.
  rewrite list_ascii_of_string_of_list_ascii, separators_undone,
    format_undone.
  assert (c mod 100 < 100)%N as Hm by (apply N.mod_lt; lia).
  destruct (of_N_spec (c / 100)) as [Hd [Hv Hne]].
  destruct (two_digits_spec (DecText.of_N (c / 100)) _ Hm) as [Hd2 Hv2].
  rewrite (of_chars_digits s (DecText.of_N (c / 100))
             (DecText.two_digits (c mod 100)) _ Hd Hd2 Hne (or_introl eq_refl)).
  rewrite Hv2, Hv. f_equal. f_equal.
  rewrite (N.div_mod c 100) at 3 by lia. lia.
Qed.

(** [quantize] answers a finite decimal with one at two decimals. *)
Lemma quantize_cents_finite (d q : Decimal) :
  DecText.quantize_cents d = Ok q -> finite d ->
  exists s c, q = Finite s c (-2).
Proof.
  intros H [s [c [e ->]]]. cbn [DecText.quantize_cents] in H.
  destruct (c =? 0)%N; [inversion H; eauto|].
  destruct (Dec.prec <? _); [discriminate|].
  destruct (Dec.prec <? _); [discriminate|].
  inversion H; eauto.
Qed.

(** A stored value or a sum of stored values is left as it is. *)
Lemma quantize_cents_load (c : Z) :
  Z.abs c < PREC_BOUND ->
  DecText.quantize_cents (Numeric.load c) = Ok (Numeric.load c).
Proof.
  intros H. unfold Numeric.load. cbn [DecText.quantize_cents].
  destruct (N.eqb_spec (Z.abs_N c) 0) as [E|E].
  - now rewrite E.
  - assert (Dec.ndigits (Z.abs_N c) <= Dec.prec) as Hn.
    { apply ndigits_fuel_le; [unfold Dec.prec; lia|].
      apply N2Z.inj_lt. rewrite N2Z.inj_abs_N. exact H. }
    pose proof (ndigits_pos (N.to_nat (N.size (Z.abs_N c))) (Z.abs_N c)).
    fold (Dec.ndigits (Z.abs_N c)) in *.
    assert (DecText.rescale (Z.abs_N c) (-2) (-2) = Z.abs_N c) as ->.
    { unfold DecText.rescale. destruct (N.eqb_spec (Z.abs_N c) 0);
        [contradiction|]. simpl. lia. }
    destruct (Z.ltb_spec Dec.prec (-2 + Dec.ndigits (Z.abs_N c) - 1 + 2 + 1));
      [lia|].
    destruct (Z.ltb_spec Dec.prec (Dec.ndigits (Z.abs_N c))); [lia|].
    reflexivity.
Qed.

End CurrencyText.

(** X1: whenever the filter can round a finite decimal to two decimals, it
    returns a text followed by the ruble sign, and [parse_decimal] reads
    that text back as the rounded decimal: the thousands spaces and the
    decimal comma it writes are the ones [parse_decimal] accepts. *)
Theorem currency_filter_reads_back (d q : Decimal) :
  finite d -> DecText.quantize_cents d = Ok q ->
  exists body,
    currency_filter (PyDecimal d) = (body ++ ruble_suffix)%string
    /\ parse_decimal (Some body) = Ok q.
Proof.
  intros Hf Hq.
  destruct (quantize_cents_finite d q Hq Hf) as [s [c ->]].
  destruct (shown_reads_back s c) as [body [Hb Hp]].
  exists body. split; auto.
  unfold currency_filter, currency_of_decimal. rewrite Hq. now rewrite Hb.
Qed.

Lemma currency_filter_reads_back_witness :
  exists body,
    currency_filter (PyDecimal (Finite false 1234565 (-3)))
    = (body ++ ruble_suffix)%string
    /\ parse_decimal (Some body) = Ok (Finite false 123456 (-2)).
Proof.
  apply (currency_filter_reads_back (Finite false 1234565 (-3))).
  - exists false, 1234565%N, (-3). reflexivity.
  - reflexivity.
Defined.

Lemma store_load (c : Z) :
  Numeric.in_range c -> Numeric.store (Numeric.load c) = Some c.
Proof.
  unfold Numeric.in_range, Numeric.load. intros H. apply store_spec.
  assert (Numeric.round_scaled (Z.abs_N c) (-2 + 2) = Z.abs c) as ->.
  { unfold Numeric.round_scaled. change (0 <=? -2 + 2) with true.
    cbn [Z.add Z.opp]. change (-2 + 2) with 0.
    now rewrite Z.pow_0_r, Z.mul_1_r, N2Z.inj_abs_N. }
  split; [unfold Numeric.MAX_DSCALE, Numeric.MAX_EXPONENT; lia|].
  split; [lia|]. destruct (Z.ltb_spec c 0); lia.
Qed.

(** X2: every stored amount, and every total or balance made of stored
    amounts (anything below [10^28] hundredths), is shown by the filter with
    the ruble sign, never through the fallback [str(value)]; the text shown
    reads back through [parse_decimal] as exactly that value, and a value of
    the column's range is stored again as it was. *)
Theorem currency_filter_of_stored (c : Z) :
  Z.abs c < PREC_BOUND ->
  exists body,
    currency_filter (PyDecimal (Numeric.load c))
    = (body ++ ruble_suffix)%string
    /\ parse_decimal (Some body) = Ok (Numeric.load c)
    /\ (Numeric.in_range c -> Numeric.store (Numeric.load c) = Some c).
Proof.
  intros H.
  destruct (shown_reads_back (c <? 0) (Z.abs_N c)) as [body [Hb Hp]].
  exists body. split; [|split].
  - unfold currency_filter, currency_of_decimal.
    rewrite (quantize_cents_load c H). unfold Numeric.load. now rewrite Hb.
  - exact Hp.
  - apply store_load.
Qed.

Lemma currency_filter_of_stored_witness :
  exists body,
    currency_filter (PyDecimal (Numeric.load (-123456)))
    = (body ++ ruble_suffix)%string
    /\ parse_decimal (Some body) = Ok (Numeric.load (-123456))
    /\ (Numeric.in_range (-123456) ->
        Numeric.store (Numeric.load (-123456)) = Some (-123456)).
Proof.
  apply (currency_filter_of_stored (-123456)). vm_compute. reflexivity.
Defined.

(** ** What a request can do to the store: facts *)

Lemma find_category_some (db : Db) (cid uid : Z) (ty : string)
                         (cat : Category.t) :
  find_category db cid uid ty = Some cat ->
  In cat (categories db) /\ Category.id cat = cid
  /\ Category.user_id cat = uid /\ Category.type cat = ty.
Proof.
  unfold find_category. intros H. apply find_some in H.
  destruct H as [Hin H]. apply andb_prop in H. destruct H as [H Hty].
  apply andb_prop in H. destruct H as [Hid Hu].
  apply Z.eqb_eq in Hid. apply Z.eqb_eq in Hu. apply String.eqb_eq in Hty.
  auto.
Qed.

Lemma find_transaction_some (db : Db) (tx_id uid : Z) (tx : Transaction.t) :
  find_transaction db tx_id uid = Some tx ->
  In tx (transactions db) /\ Transaction.id tx = tx_id
  /\ Transaction.user_id tx = uid.
Proof.
  unfold find_transaction. intros H. apply find_some in H.
  destruct H as [Hin H]. apply andb_prop in H. destruct H as [Hid Hu].
  apply Z.eqb_eq in Hid. apply Z.eqb_eq in Hu. auto.
Qed.

(** Every handler does one of the four writes or none. *)
Lemma handle_writes (db : Db) (uid : Z) (r : request) :
  write db uid (fst (handle db uid r)).
Proof.
  destruct r as [method form|args d|form utcnow|tx_id method form|tx_id];
    cbn [handle].
  - unfold setup_balance.
    destruct (current_user db uid) as [u|] eqn:Hu; [|constructor].
    destruct (User.initial_balance u) eqn:Hb; [constructor|].
    destruct method; [constructor|].
    destruct (parse_decimal _) as [amount|[]]; try constructor.
    destruct (Numeric.store amount) as [c|] eqn:Hc; [|constructor].
    cbn [fst]. eapply WriteBalance; eauto. eapply store_in_range; eauto.
  - rewrite dashboard_store. constructor.
  - unfold add_transaction.
    destruct (current_user db uid) as [u|] eqn:Hu; [|constructor].
    destruct (positive_amount _) as [amount|[]] eqn:Hp; try constructor.
    destruct (Int.of_field _) as [cid|[]]; try constructor.
    destruct (find_category _ _ _ _) as [cat|] eqn:Hcat; [|constructor].
    destruct (Numeric.store amount) as [c|] eqn:Hc; [|constructor].
    destruct (Z.leb_spec (transactions_id_seq db + 1) INT_MAX);
      [|constructor].
    apply find_category_some in Hcat. destruct Hcat as [Hin [_ [Hown Hty]]].
    cbn [fst]. eapply WriteInsert; eauto.
  - unfold edit_transaction.
    destruct (current_user db uid) as [u|] eqn:Hu; [|constructor].
    destruct (find_transaction _ _ _) as [tx|] eqn:Htx; [|constructor].
    apply find_transaction_some in Htx. destruct Htx as [Hin [_ Hown]].
    destruct method.
    + destruct (find _ (categories db)); constructor.
    + destruct (positive_amount _) as [amount|[]] eqn:Hp; try constructor.
      destruct (Int.of_field _) as [cid|[]]; try constructor.
      destruct (find_category _ _ _ _) as [cat|] eqn:Hcat; [|constructor].
      destruct (Numeric.store amount) as [c|] eqn:Hc; [|constructor].
      apply find_category_some in Hcat.
      destruct Hcat as [Hcin [_ [Hcown Hty]]].
      cbn [fst]. eapply WriteUpdate; eauto.
  - unfold delete_transaction.
    destruct (current_user db uid) as [u|] eqn:Hu; [|constructor].
    destruct (find_transaction _ _ _) as [tx|] eqn:Htx; [|constructor].
    apply find_transaction_some in Htx. destruct Htx as [Hin [_ Hown]].
    cbn [fst]. eapply WriteDelete; eauto.
Qed.

(** ** References stay valid *)

Lemma known_user_spec (db : Db) (uid : Z) :
  known_user db uid = true <-> exists u, In u (users db) /\ User.id u = uid.
Proof.
  unfold known_user. rewrite existsb_exists.
  split; intros [u [Hin H]]; exists u; split; auto; now apply Z.eqb_eq.
Qed.

Lemma owned_category_spec (db : Db) (t : Transaction.t) :
  owned_category db t = true <->
  exists c, In c (categories db)
            /\ Category.id c = Transaction.category_id t
            /\ Category.user_id c = Transaction.user_id t
            /\ Category.type c = Transaction.type t.
Proof.
  unfold owned_category. rewrite existsb_exists. split.
  - intros [c [Hin H]]. exists c. rewrite !andb_true_iff in H.
    destruct H as [[H1 H2] H3].
    apply Z.eqb_eq in H1. apply Z.eqb_eq in H2. apply String.eqb_eq in H3.
    auto.
  - intros [c [Hin [H1 [H2 H3]]]]. exists c. split; auto.
    rewrite !andb_true_iff, !Z.eqb_eq, String.eqb_eq. auto.
Qed.

Lemma references_ok_spec (db : Db) :
  references_ok db = true <->
  (forall t, In t (transactions db) ->
     known_user db (Transaction.user_id t) = true
     /\ owned_category db t = true)
  /\ (forall c, In c (categories db) ->
        known_user db (Category.user_id c) = true).
Proof.
  unfold references_ok. rewrite andb_true_iff, !forallb_forall.
  split; intros [H1 H2]; split; auto; intros t Ht.
  - now apply andb_prop, H1.
  - apply andb_true_intro. now apply H1.
Qed.

Lemma current_user_known (db : Db) (uid : Z) (u : User.t) :
  current_user db uid = Some u -> known_user db (User.id u) = true.
Proof.
  intros H. apply current_user_spec in H. destruct H as [Hin _].
  apply known_user_spec. eauto.
Qed.

Lemma known_user_set_balance (db : Db) (uid uid' : Z) (c : Numeric.t) :
  known_user (set_initial_balance db uid' c) uid = known_user db uid.
Proof.
  unfold known_user, set_initial_balance. cbn [users].
  induction (users db) as [|x l IH]; [reflexivity|].
  cbn [map existsb]. rewrite IH. f_equal.
  now destruct (User.id x =? uid').
Qed.

Lemma write_references (db : Db) (uid : Z) (db' : Db) :
  write db uid db' -> references_ok db = true -> references_ok db' = true.
Proof.
  intros W H. apply references_ok_spec in H. destruct H as [Ht Hc].
  destruct W as [|u c Hu Hb Hr
                 |u cat raw amount c ty descr at_ Hu Hp Hs Hin Hown Hty Hmax
                 |u old cat raw amount c ty descr at_ Hu Hold Hoown Hp Hs Hin
                    Hown Hty
                 |u old Hu Hold Hoown].
  - now apply references_ok_spec.
  - apply references_ok_spec. split.
    + intros t Hin. destruct (Ht t Hin) as [Hk Ho]. split.
      * now rewrite known_user_set_balance.
      * exact Ho.
    + intros c0 Hin. rewrite known_user_set_balance. now apply Hc.
  - apply references_ok_spec. cbn [transactions categories]. split.
    + intros t Ht'. apply in_app_or in Ht'. destruct Ht' as [Ht'|[<-|[]]].
      * exact (Ht t Ht').
      * split.
        -- exact (current_user_known db uid u Hu).
        -- apply owned_category_spec. exists cat. cbn. auto.
    + exact Hc.
  - apply references_ok_spec. unfold update_transaction.
    cbn [transactions categories]. split.
    + intros t Ht'. apply in_app_or in Ht'. destruct Ht' as [Ht'|[<-|[]]].
      * apply filter_In in Ht'. destruct Ht' as [Ht' _]. exact (Ht t Ht').
      * split.
        -- cbn. rewrite Hoown. exact (current_user_known db uid u Hu).
        -- apply owned_category_spec. exists cat. cbn. rewrite Hoown. auto.
    + exact Hc.
  - apply references_ok_spec. unfold remove_transaction.
    cbn [transactions categories]. split.
    + intros t Ht'. apply filter_In in Ht'. destruct Ht' as [Ht' _].
      exact (Ht t Ht').
    + exact Hc.
Qed.

(** ** Amounts stay non-negative *)

Lemma write_amounts (db : Db) (uid : Z) (db' : Db) :
  write db uid db' -> amounts_nonneg db = true -> amounts_nonneg db' = true.
Proof.
  unfold amounts_nonneg. intros W H.
  destruct W as [|u c Hu Hb Hr
                 |u cat raw amount c ty descr at_ Hu Hp Hs Hin Hown Hty Hmax
                 |u old cat raw amount c ty descr at_ Hu Hold Hoown Hp Hs Hin
                    Hown Hty
                 |u old Hu Hold Hoown]; auto.
  - cbn [transactions]. rewrite forallb_app, H. cbn.
    rewrite andb_true_r. apply Z.leb_le.
    eapply stored_amount_nonneg; eauto.
  - unfold update_transaction. cbn [transactions].
    rewrite forallb_app, forallb_filter by exact H. cbn.
    rewrite andb_true_r. apply Z.leb_le.
    eapply stored_amount_nonneg; eauto.
  - unfold remove_transaction. cbn [transactions].
    now apply forallb_filter.
Qed.

(** ** The constraints of the whole schema are kept *)

Lemma write_keeps (db : Db) (uid : Z) (db' : Db) :
  write db uid db' ->
  map User.id (users db') = map User.id (users db)
  /\ map User.email (users db') = map User.email (users db)
  /\ categories db' = categories db.
Proof.
  intros W. destruct W; auto.
  unfold set_initial_balance. cbn [users categories].
  rewrite !map_map. repeat split.
  - apply map_ext. intros a. now destruct (User.id a =? uid).
  - apply map_ext. intros a. now destruct (User.id a =? uid).
Qed.

Lemma site_wf_spec (site : Site) :
  site_wf site = true <->
  db_wf (store site) = true
  /\ ids_within (map User.id (users (store site))) (users_id_seq site) = true
  /\ 0 <= users_id_seq site <= INT_MAX
  /\ ids_within (map Category.id (categories (store site)))
                (categories_id_seq site) = true
  /\ 0 <= categories_id_seq site <= INT_MAX
  /\ nodup_strings (map User.email (users (store site))) = true.
Proof.
  unfold site_wf. rewrite !andb_true_iff, !Z.leb_le. tauto.
Qed.

Lemma ids_within_spec (ids : list Z) (seq : Z) :
  ids_within ids seq = true <-> forall i, In i ids -> 1 <= i <= seq.
Proof.
  unfold ids_within. rewrite forallb_forall.
  split; intros H i Hi; specialize (H i Hi).
  - apply andb_prop in H. destruct H as [A B].
    apply Z.leb_le in A. apply Z.leb_le in B. lia.
  - apply andb_true_intro. rewrite !Z.leb_le. lia.
Qed.

Lemma nodupb_app (l m : list Z) :
  nodupb l = true -> nodupb m = true ->
  (forall x, In x l -> In x m -> False) ->
  nodupb (l ++ m) = true.
Proof.
  induction l as [|x l IH]; cbn [nodupb app]; auto.
  intros H Hm Hd. apply andb_prop in H. destruct H as [Hx Hl].
  rewrite IH; auto.
  - rewrite andb_true_r. apply negb_true_iff in Hx. apply negb_true_iff.
    rewrite existsb_app, Hx. cbn [orb].
    destruct (existsb (Z.eqb x) m) eqn:E; auto.
    apply existsb_exists in E. destruct E as [y [Hy E]].
    apply Z.eqb_eq in E. subst y. exfalso. apply (Hd x); [now left|exact Hy].
  - intros y Hy. apply Hd. now right.
Qed.

Lemma nodup_strings_spec (l : list string) :
  nodup_strings l = true <-> NoDup l.
Proof.
  induction l as [|x l IH]; cbn [nodup_strings].
  - split; auto. constructor.
  - rewrite andb_true_iff, negb_true_iff, IH. split.
    + intros [Hx Hl]. constructor; auto. intros Hin.
      assert (existsb (String.eqb x) l = true) as E.
      { apply existsb_exists. exists x. split; auto. apply String.eqb_refl. }
      congruence.
    + intros H. inversion H as [|? ? Hx Hl]; subst. split; auto.
      destruct (existsb (String.eqb x) l) eqn:E; auto.
      apply existsb_exists in E. destruct E as [y [Hy E]].
      apply String.eqb_eq in E. subst y. contradiction.
Qed.

Lemma NoDup_snoc {A : Type} (l : list A) (x : A) :
  NoDup l -> ~ In x l -> NoDup (l ++ [x]).
Proof.
  intros Hl Hx. induction Hl as [|y l Hy Hl IH]; cbn [app].
  - constructor; auto. constructor.
  - constructor.
    + rewrite in_app_iff. intros [H|[H|[]]]; [contradiction|].
      subst y. apply Hx. now left.
    + apply IH. intros H. apply Hx. now right.
Qed.

Lemma find_user_by_email_none (db : Db) (email : string) :
  find_user_by_email db email = None <->
  ~ In email (map User.email (users db)).
Proof.
  unfold find_user_by_email. split.
  - intros H Hin. apply in_map_iff in Hin. destruct Hin as [u [E Hu]].
    pose proof (find_none _ _ H u Hu) as N. cbn in N.
    rewrite E, String.eqb_refl in N. discriminate.
  - intros H. destruct (find _ _) as [u|] eqn:E; auto.
    apply find_some in E. destruct E as [Hu E]. apply String.eqb_eq in E.
    exfalso. apply H. apply in_map_iff. eauto.
Qed.

Lemma find_user_by_email_some (db : Db) (email : string) (u : User.t) :
  find_user_by_email db email = Some u ->
  In u (users db) /\ User.email u = email.
Proof.
  unfold find_user_by_email. intros H. apply find_some in H.
  destruct H as [Hu E]. apply String.eqb_eq in E. auto.
Qed.

(** The rows of [create_default_categories]: numbered from [seq + 1] on
    without gaps, all owned by [uid]. *)
Lemma number_categories_ids (uid seq : Z) (l : list (string * string)) :
  (forall c, In c (number_categories uid seq l) ->
     seq + 1 <= Category.id c <= seq + Z.of_nat (List.length l)
     /\ Category.user_id c = uid)
  /\ nodupb (map Category.id (number_categories uid seq l)) = true.
Proof.
  revert seq. induction l as [|[name ty] l IH]; intros seq.
  - split; [intros c []|reflexivity].
  - cbn [number_categories List.length map nodupb].
    destruct (IH (seq + 1)) as [Hin Hnd]. split.
    + intros c [<-|Hc].
      * cbn. lia.
      * destruct (Hin c Hc) as [B O]. split; [lia|exact O].
    + rewrite Hnd, andb_true_r. apply negb_true_iff.
      destruct (existsb _ _) eqn:E; auto.
      apply existsb_exists in E. destruct E as [y [Hy E]].
      apply Z.eqb_eq in E. subst y.
      apply in_map_iff in Hy. destruct Hy as [c [Ec Hc]].
      destruct (Hin c Hc) as [B _]. cbn in Ec. lia.
Qed.

Lemma number_categories_length (uid seq : Z) (l : list (string * string)) :
  List.length (number_categories uid seq l) = List.length l.
Proof.
  revert seq. induction l as [|[name ty] l IH]; intros seq; cbn; auto.
Qed.

Lemma number_categories_labels (uid seq : Z) (l : list (string * string)) :
  map (fun c => (Category.name c, Category.type c))
      (number_categories uid seq l) = l.
Proof.
  revert seq. induction l as [|[name ty] l IH]; intros seq; cbn; auto.
  now rewrite IH.
Qed.

Section Accounts.

Variable hash : string -> string -> string.
Variable check : string -> string -> bool.
Variable boot : datetime.

Lemma register_cases (site : Site) (s : session) (method : http_method)
                     (form : fields) (salt : string) :
  registration hash boot site s form salt
             (register hash boot site s method form salt).
Proof.
  unfold register.
  destruct (is_authenticated site s) eqn:Ha;
    [apply RegisterNothing; discriminate|].
  destruct method; [apply RegisterNothing; discriminate|].
  destruct (String.eqb_spec (name_of form) "")
    as [|Hn]; [apply RegisterNothing; discriminate|].
  destruct (String.eqb_spec (email_of form) "")
    as [|He]; [apply RegisterNothing; discriminate|].
  destruct (String.eqb_spec (get_default form "password" "") "")
    as [|Hp]; [apply RegisterNothing; discriminate|].
  cbn [orb].
  destruct (String.eqb_spec (get_default form "password" "")
                            (get_default form "confirm" ""))
    as [Hc|]; [|apply RegisterNothing; discriminate].
  cbn [negb].
  destruct (find_user_by_email _ _) eqn:Hf;
    [apply RegisterNothing; discriminate|].
  destruct (_ && _) eqn:Hok; [|apply RegisterNothing; discriminate].
  rewrite !andb_true_iff, !Z.leb_le in Hok.
  destruct Hok as [[[[_ _] _] Hu] Hl].
  unfold create_default_categories in *.
  rewrite number_categories_length in *.
  change (Z.of_nat (List.length defaults)) with 9 in *.
  now apply RegisterInsert.
Qed.

Lemma keys_wf_spec (site : Site) :
  keys_wf site = true <->
  nodupb (map User.id (users (store site))) = true
  /\ nodupb (map Category.id (categories (store site))) = true
  /\ nodupb (map Transaction.id (transactions (store site))) = true
  /\ (forall i, In i (map Transaction.id (transactions (store site))) ->
        1 <= i <= transactions_id_seq (store site))
  /\ 0 <= transactions_id_seq (store site) <= INT_MAX
  /\ (forall i, In i (map User.id (users (store site))) ->
        1 <= i <= users_id_seq site)
  /\ 0 <= users_id_seq site <= INT_MAX
  /\ (forall i, In i (map Category.id (categories (store site))) ->
        1 <= i <= categories_id_seq site)
  /\ 0 <= categories_id_seq site <= INT_MAX
  /\ NoDup (map User.email (users (store site))).
Proof.
  unfold keys_wf. cbv zeta.
  rewrite !andb_true_iff, !Z.leb_le, !ids_within_spec, nodup_strings_spec.
  tauto.
Qed.

Lemma registered_keys (site : Site) (s : session) (form : fields)
                      (salt : string)
                      (out : Site * session * account_response) :
  registration hash boot site s form salt out ->
  keys_wf site = true -> keys_wf (fst (fst out)) = true.
Proof.
  intros R Hwf. destruct R as [resp _|name email password uid cats
                                 Ha Hn He Hp Hc Hf Hu Hl]; auto.
  cbn [fst]. apply keys_wf_spec in Hwf.
  destruct Hwf as [H1 [H2 [H3 [H4 [H5 [Hui [Hus [Hci [Hcs Hem]]]]]]]]].
  destruct (number_categories_ids uid (categories_id_seq site) defaults)
    as [Hcats Hnd].
  change (Z.of_nat (List.length defaults)) with 9 in Hcats.
  apply keys_wf_spec.
  cbn [store users categories transactions transactions_id_seq users_id_seq
       categories_id_seq].
  rewrite !map_app. cbn [map User.id User.email].
  split; [|split; [|split; [exact H3|split; [exact H4|split; [exact H5|]]]]].
  - apply nodupb_snoc; auto. intros x Hx. specialize (Hui x Hx).
    subst uid. lia.
  - apply nodupb_app; auto. intros x Hx Hx'.
    apply in_map_iff in Hx'. destruct Hx' as [c [<- Hc']].
    specialize (Hci _ Hx). destruct (Hcats c Hc') as [B _]. lia.
  - split; [|split; [subst uid; lia|split; [|split; [lia|]]]].
    + intros i Hi. apply in_app_or in Hi.
      destruct Hi as [Hi|[<-|[]]]; [specialize (Hui i Hi)|];
        subst uid; lia.
    + intros i Hi. apply in_app_or in Hi.
      destruct Hi as [Hi|Hi]; [specialize (Hci i Hi); lia|].
      apply in_map_iff in Hi. destruct Hi as [c [<- Hc']].
      destruct (Hcats c Hc') as [B _]. lia.
    + apply NoDup_snoc; auto. now apply find_user_by_email_none.
Qed.

Lemma registered_references (site : Site) (s : session) (form : fields)
                            (salt : string)
                            (out : Site * session * account_response) :
  registration hash boot site s form salt out ->
  references_ok (store site) = true ->
  references_ok (store (fst (fst out))) = true.
Proof.
  intros R H. destruct R as [resp _|name email password uid cats
                               Ha Hn He Hp Hc Hf Hu Hl]; auto.
  cbn [fst store]. apply references_ok_spec in H. destruct H as [Ht Hcat].
  destruct (number_categories_ids uid (categories_id_seq site) defaults)
    as [Hcats _].
  apply references_ok_spec. cbn [transactions categories].
  assert (forall i, known_user (store site) i = true ->
            known_user
              (mkDb (users (store site)
                     ++ [User.mk uid name email (hash password salt) None
                           boot])
                    (categories (store site) ++ cats)
                    (transactions (store site))
                    (transactions_id_seq (store site))) i = true) as Hk.
  { intros i Hi. unfold known_user in *. cbn [users].
    now rewrite existsb_app, Hi. }
  split.
  - intros t Hin. destruct (Ht t Hin) as [A B]. split; auto.
    unfold owned_category in *. cbn [categories].
    now rewrite existsb_app, B.
  - intros c Hin. apply in_app_or in Hin. destruct Hin as [Hin|Hin]; auto.
    destruct (Hcats c Hin) as [_ ->].
    unfold known_user. cbn [users]. rewrite existsb_app. cbn.
    rewrite Z.eqb_refl. apply orb_true_iff. right. reflexivity.
Qed.

Lemma registered_transactions (site : Site) (s : session) (form : fields)
                              (salt : string)
                              (out : Site * session * account_response) :
  registration hash boot site s form salt out ->
  transactions (store (fst (fst out))) = transactions (store site).
Proof.
  intros R. now destruct R.
Qed.

(** One request, seen from the store. *)
Lemma serve_cases (site : Site) (s : session) (req : http_request) :
  let site' := fst (fst (serve hash check boot site s req)) in
  site' = site
  \/ (exists form salt out,
         registration hash boot site s form salt out /\ site' = fst (fst out))
  \/ (exists uid db', s = Some uid /\ write (store site) uid db'
                      /\ site' = with_store site db').
Proof.
  destruct req as [|method form salt|method form| |r]; cbn [serve].
  - now left.
  - right. left. exists form, salt, (register hash boot site s method form salt).
    split; [apply register_cases|].
    now destruct (register hash boot site s method form salt) as [[? ?] ?].
  - left. now destruct (login check site s method form).
  - left. now destruct (logout site s).
  - destruct s as [uid|]; [|now left].
    right. right. exists uid, (fst (handle (store site) uid r)).
    split; [reflexivity|]. split; [apply handle_writes|].
    now destruct (handle (store site) uid r).
Qed.

Lemma write_keys (site : Site) (uid : Z) (db' : Db) :
  write (store site) uid db' ->
  keys_wf site = true -> keys_wf (with_store site db') = true.
Proof.
  intros W Hwf. pose proof (write_keeps _ _ _ W) as [Hi [He Hc]].
  apply keys_wf_spec in Hwf.
  destruct Hwf as [H1 [H2 [H3 [H4 [H5 [Hui [Hus [Hci [Hcs Hem]]]]]]]]].
  apply keys_wf_spec. unfold with_store.
  cbn [store users_id_seq categories_id_seq]. rewrite Hi, He, Hc.
  split; [exact H1|]. split; [exact H2|].
  assert (nodupb (map Transaction.id (transactions db')) = true
          /\ (forall i, In i (map Transaction.id (transactions db')) ->
                1 <= i <= transactions_id_seq db')
          /\ 0 <= transactions_id_seq db' <= INT_MAX) as Htx.
  { set (db := store site) in *.
    destruct W as [|u c Hu Hb Hr
                   |u cat raw amount c ty descr at_ Hu Hp Hs Hin Hown Hty
                      Hmax
                   |u old cat raw amount c ty descr at_ Hu Hold Hoown Hp Hs
                      Hin Hown Hty
                   |u old Hu Hold Hoown]; auto.
    - cbn [transactions transactions_id_seq]. rewrite map_app.
      cbn [map Transaction.id]. split; [|split; [|lia]].
      + apply nodupb_snoc; auto. intros x Hx. specialize (H4 x Hx). lia.
      + intros i Hx. apply in_app_or in Hx.
        destruct Hx as [Hx|[<-|[]]]; [specialize (H4 i Hx)|]; lia.
    - unfold update_transaction.
      cbn [transactions transactions_id_seq Transaction.id].
      rewrite map_app. cbn [map Transaction.id].
      rewrite (map_id_filter _ (Transaction.id old)) by reflexivity.
      split; [|split; [|exact H5]].
      + apply nodupb_snoc_fresh; [now apply nodupb_filter|].
        intros Hx. apply filter_In in Hx. destruct Hx as [_ Hx].
        now rewrite Z.eqb_refl in Hx.
      + intros i Hx. apply in_app_or in Hx.
        destruct Hx as [Hx|[<-|[]]].
        * apply filter_In in Hx. destruct Hx as [Hx _]. now apply H4.
        * apply H4. now apply in_map.
    - unfold remove_transaction. cbn [transactions transactions_id_seq].
      rewrite (map_id_filter _ (Transaction.id old)) by reflexivity.
      split; [now apply nodupb_filter|]. split; [|exact H5].
      intros i Hx. apply filter_In in Hx. destruct Hx as [Hx _].
      now apply H4. }
  destruct Htx as [T1 [T2 T3]]. auto 10.
Qed.

Lemma serve_keys (site : Site) (s : session) (req : http_request) :
  keys_wf site = true ->
  keys_wf (fst (fst (serve hash check boot site s req))) = true.
Proof.
  intros Hwf.
  destruct (serve_cases site s req)
    as [->|[[form [salt [out [R ->]]]]|[uid [db' [_ [W ->]]]]]]; auto.
  - eapply registered_keys; eauto.
  - eapply write_keys; eauto.
Qed.

Lemma serve_references (site : Site) (s : session) (req : http_request) :
  references_ok (store site) = true ->
  references_ok (store (fst (fst (serve hash check boot site s req)))) = true.
Proof.
  intros H.
  destruct (serve_cases site s req)
    as [->|[[form [salt [out [R ->]]]]|[uid [db' [_ [W ->]]]]]]; auto.
  - eapply registered_references; eauto.
  - cbn [with_store store]. eapply write_references; eauto.
Qed.

Lemma serve_amounts (site : Site) (s : session) (req : http_request) :
  amounts_nonneg (store site) = true ->
  amounts_nonneg (store (fst (fst (serve hash check boot site s req)))) = true.
Proof.
  intros H.
  destruct (serve_cases site s req)
    as [->|[[form [salt [out [R ->]]]]|[uid [db' [_ [W ->]]]]]]; auto.
  - unfold amounts_nonneg in *.
    now rewrite (registered_transactions _ _ _ _ _ R).
  - cbn [with_store store]. eapply write_amounts; eauto.
Qed.

Lemma serve_all_cons (site : Site) (s : session) (req : http_request)
                     (reqs : list (session * http_request)) :
  serve_all hash check boot site ((s, req) :: reqs)
  = serve_all hash check boot (fst (fst (serve hash check boot site s req)))
              reqs.
Proof.
  cbn [serve_all]. now destruct (serve hash check boot site s req) as [[? ?] ?].
Qed.

(** X3: whatever requests are served, by whatever sessions and in whatever
    order, the key constraints of the schema keep holding: the primary keys
    of users, categories and transactions are unique and were handed out by
    their serials, the serials stay within 32 bits, and e-mails are
    unique. *)
Theorem constraints_kept (site : Site) (reqs : list (session * http_request)) :
  keys_wf site = true -> keys_wf (serve_all hash check boot site reqs) = true.
Proof.
  revert site. induction reqs as [|[s req] reqs IH]; intros site H.
  - exact H.
  - rewrite serve_all_cons. apply IH. now apply serve_keys.
Qed.

(** X4: whatever requests are served, every transaction keeps pointing to
    an existing user and to an existing category of the same owner and of
    the same type as the transaction, and every category to an existing
    user. *)
Theorem references_kept (site : Site)
                        (reqs : list (session * http_request)) :
  references_ok (store site) = true ->
  references_ok (store (serve_all hash check boot site reqs)) = true.
Proof.
  revert site. induction reqs as [|[s req] reqs IH]; intros site H.
  - exact H.
  - rewrite serve_all_cons. apply IH. now apply serve_references.
Qed.

(** X5: whatever requests are served, no stored amount is ever negative
    (an amount can be stored as zero, never below). *)
Theorem amounts_never_negative (site : Site)
                               (reqs : list (session * http_request)) :
  amounts_nonneg (store site) = true ->
  amounts_nonneg (store (serve_all hash check boot site reqs)) = true.
Proof.
  revert site. induction reqs as [|[s req] reqs IH]; intros site H.
  - exact H.
  - rewrite serve_all_cons. apply IH. now apply serve_amounts.
Qed.

End Accounts.

Lemma constraints_kept_witness :
  keys_wf (serve_all Demo.plain_hash Demo.plain_check Demo.boot Demo.two_accounts
                     Demo.traffic) = true.
Proof.
  apply (constraints_kept Demo.plain_hash Demo.plain_check Demo.boot
           Demo.two_accounts Demo.traffic).
  vm_compute. reflexivity.
Defined.

Lemma references_kept_witness :
  references_ok
    (store (serve_all Demo.plain_hash Demo.plain_check Demo.boot Demo.two_accounts
                      Demo.traffic)) = true.
Proof.
  apply (references_kept Demo.plain_hash Demo.plain_check Demo.boot
           Demo.two_accounts Demo.traffic).
  vm_compute. reflexivity.
Defined.

Lemma amounts_never_negative_witness :
  amounts_nonneg
    (store (serve_all Demo.plain_hash Demo.plain_check Demo.boot Demo.two_accounts
                      Demo.traffic)) = true.
Proof.
  apply (amounts_never_negative Demo.plain_hash Demo.plain_check Demo.boot
           Demo.two_accounts Demo.traffic).
  vm_compute. reflexivity.
Defined.

(** ** Accounts *)

Lemma current_user_app_old (us : list User.t) (u : User.t) (uid : Z)
                           (cs : list Category.t) (ts : list Transaction.t)
                           (n : Z) (db : Db) :
  users db = us -> uid <> User.id u ->
  current_user (mkDb (us ++ [u]) cs ts n) uid = current_user db uid.
Proof.
  intros <- Hne. unfold current_user. cbn [users].
  induction (users db) as [|x l IH]; cbn [app find].
  - destruct (Z.eqb_spec (User.id u) uid); [congruence|reflexivity].
  - now rewrite IH.
Qed.

Lemma current_user_app_new (us : list User.t) (u : User.t)
                           (cs : list Category.t) (ts : list Transaction.t)
                           (n : Z) :
  (forall x, In x us -> User.id x <> User.id u) ->
  current_user (mkDb (us ++ [u]) cs ts n) (User.id u) = Some u.
Proof.
  intros H. unfold current_user. cbn [users].
  induction us as [|x l IH]; cbn [app find].
  - now rewrite Z.eqb_refl.
  - destruct (Z.eqb_spec (User.id x) (User.id u)) as [E|_].
    + exfalso. apply (H x); [now left|exact E].
    + apply IH. intros y Hy. apply H. now right.
Qed.

Lemma known_user_bound (site : Site) (uid : Z) :
  site_wf site = true -> known_user (store site) uid = true ->
  1 <= uid <= users_id_seq site.
Proof.
  intros Hwf Hk. apply site_wf_spec in Hwf.
  destruct Hwf as [_ [Hui _]]. rewrite ids_within_spec in Hui.
  apply known_user_spec in Hk. destruct Hk as [u [Hu <-]].
  apply Hui. now apply in_map.
Qed.

Lemma filter_nil {A : Type} (f : A -> bool) (l : list A) :
  (forall x, In x l -> f x = false) -> filter f l = [].
Proof.
  induction l as [|x l IH]; cbn [filter]; auto.
  intros H. rewrite (H x) by now left. apply IH. intros y Hy. apply H.
  now right.
Qed.

Lemma filter_all {A : Type} (f : A -> bool) (l : list A) :
  (forall x, In x l -> f x = true) -> filter f l = l.
Proof.
  induction l as [|x l IH]; cbn [filter]; auto.
  intros H. rewrite (H x) by now left. f_equal. apply IH. intros y Hy.
  apply H. now right.
Qed.

Section AccountFacts.

Variable hash : string -> string -> string.
Variable check : string -> string -> bool.
Variable boot : datetime.

Lemma register_succeeds (site : Site) (s : session) (form : fields)
                        (salt : string) :
  is_authenticated site s = false -> complete form = true ->
  find_user_by_email (store site) (email_of form) = None ->
  fits (hash (get_default form "password" "") salt) site form = true ->
  register hash boot site s POST form salt
  = (mkSite
       (mkDb (users (store site)
              ++ [User.mk (users_id_seq site + 1) (name_of form)
                    (email_of form)
                    (hash (get_default form "password" "") salt) None boot])
             (categories (store site)
              ++ create_default_categories (users_id_seq site + 1)
                   (categories_id_seq site))
             (transactions (store site))
             (transactions_id_seq (store site)))
       (users_id_seq site + 1) (categories_id_seq site + 9),
     Some (users_id_seq site + 1), account_created).
Proof.
  intros Ha Hc Hf Hfit. unfold register. rewrite Ha, Hf.
  unfold complete in Hc. rewrite !andb_true_iff, !negb_true_iff in Hc.
  destruct Hc as [[[-> ->] ->] ->]. cbn [orb negb].
  unfold fits in Hfit. unfold create_default_categories.
  rewrite number_categories_length.
  change (Z.of_nat (List.length defaults)) with 9.
  now rewrite Hfit.
Qed.

(** X6: for a visitor who is not logged in, a registration form with an
    empty name, e-mail or password, with a password that is not repeated, or
    with an e-mail that is already taken changes neither the site nor the
    session, and answers with an error message and a redirect back to the
    form. *)
Theorem register_rejects (site : Site) (s : session) (form : fields)
                         (salt : string) :
  is_authenticated site s = false ->
  complete form = false
  \/ find_user_by_email (store site) (email_of form) <> None ->
  exists msg,
    register hash boot site s POST form salt
    = (site, s, Goto (Some (msg, "error"%string)) ViewRegister).
Proof.
  intros Ha H. unfold register. rewrite Ha.
  unfold complete in H.
  destruct (String.eqb (name_of form) ""); [eexists; reflexivity|].
  destruct (String.eqb (email_of form) ""); [eexists; reflexivity|].
  destruct (String.eqb (get_default form "password" "") ""); [eexists; reflexivity|].
  cbn [orb negb andb] in *.
  destruct (String.eqb (get_default form "password" "")
                       (get_default form "confirm" "")); [|eexists; reflexivity].
  cbn [negb].
  destruct (find_user_by_email (store site) (email_of form)); [eexists; reflexivity|].
  destruct H as [H|H]; [discriminate H|congruence].
Qed.

(** X7: on a site that satisfies its constraints, a complete form with a
    free e-mail whose values fit their columns creates the account: the
    visitor is logged in under an id no user had; that user has the stripped
    name, the stripped and lower-cased e-mail, the hash of the password and
    no initial balance; its categories are exactly the nine defaults, in
    order; every other user keeps their row and categories; and no
    transaction is touched. *)
Theorem register_creates_account (site : Site) (s : session) (form : fields)
                                 (salt : string) :
  site_wf site = true -> references_ok (store site) = true ->
  is_authenticated site s = false -> complete form = true ->
  find_user_by_email (store site) (email_of form) = None ->
  fits (hash (get_default form "password" "") salt) site form = true ->
  let uid := users_id_seq site + 1 in
  exists site',
    register hash boot site s POST form salt
    = (site', Some uid, account_created)
    /\ known_user (store site) uid = false
    /\ current_user (store site') uid
       = Some (User.mk uid (name_of form) (email_of form)
                 (hash (get_default form "password" "") salt) None boot)
    /\ labels_of (store site') uid = defaults
    /\ (forall other, other <> uid ->
          current_user (store site') other = current_user (store site) other
          /\ labels_of (store site') other = labels_of (store site) other)
    /\ transactions (store site') = transactions (store site).
Proof.
  intros Hwf Href Ha Hc Hf Hfit uid.
  eexists. split; [now apply register_succeeds|].
  cbn [store transactions].
  assert (known_user (store site) uid = false) as Hfresh.
  { destruct (known_user (store site) uid) eqn:E; auto.
    apply (known_user_bound site uid Hwf) in E. subst uid. lia. }
  destruct (number_categories_ids uid (categories_id_seq site) defaults)
    as [Hcats _].
  split; [exact Hfresh|]. split; [|split; [|split]].
  - apply (current_user_app_new _ (User.mk uid _ _ _ _ _)).
    intros x Hx E. cbn in E.
    assert (known_user (store site) uid = true) as K.
    { apply known_user_spec. eauto. }
    congruence.
  - unfold labels_of. cbn [categories]. rewrite filter_app.
    rewrite filter_nil, filter_all.
    + apply number_categories_labels.
    + intros c Hin. destruct (Hcats c Hin) as [_ ->]. apply Z.eqb_refl.
    + intros c Hin. apply references_ok_spec in Href.
      destruct Href as [_ Hk]. specialize (Hk c Hin).
      destruct (Z.eqb_spec (Category.user_id c) uid) as [E|]; auto.
      congruence.
  - intros other Hne. split.
    + apply current_user_app_old; auto.
    + unfold labels_of. cbn [categories]. rewrite filter_app.
      rewrite (filter_nil _ (create_default_categories _ _)).
      * now rewrite app_nil_r.
      * intros c Hin. destruct (Hcats c Hin) as [_ ->].
        now apply Z.eqb_neq.
  - reflexivity.
Qed.

(** *** Accounts are never removed or renamed *)

(** The same account: id, e-mail and password hash. *)
Lemma find_email_map (g : User.t -> User.t) (e : string) (l : list User.t) :
  (forall u, User.email (g u) = User.email u) ->
  find (fun u => String.eqb (User.email u) e) (map g l)
  = option_map g (find (fun u => String.eqb (User.email u) e) l).
Proof.
  intros Hg. induction l as [|x l IH]; cbn [map find option_map]; auto.
  rewrite Hg. now destruct (String.eqb (User.email x) e).
Qed.

Lemma find_app_some {A : Type} (f : A -> bool) (l m : list A) (x : A) :
  find f l = Some x -> find f (l ++ m) = Some x.
Proof.
  induction l as [|y l IH]; cbn [find app]; [discriminate|].
  now destruct (f y).
Qed.

Lemma find_app_none {A : Type} (f : A -> bool) (l m : list A) :
  find f l = None -> find f (l ++ m) = find f m.
Proof.
  induction l as [|y l IH]; cbn [find app]; auto.
  now destruct (f y).
Qed.

Lemma write_account (db : Db) (uid : Z) (db' : Db) (e : string)
                    (u : User.t) :
  write db uid db' -> find_user_by_email db e = Some u ->
  exists u', find_user_by_email db' e = Some u'
             /\ User.id u' = User.id u
             /\ User.password_hash u' = User.password_hash u.
Proof.
  intros W H. destruct W; try solve [exists u; auto].
  unfold find_user_by_email, set_initial_balance in *. cbn [users].
  rewrite find_email_map.
  - rewrite H. cbn [option_map]. eexists. split; [reflexivity|].
    now destruct (User.id u =? uid).
  - intros x. now destruct (User.id x =? uid).
Qed.

Lemma registered_account (site : Site) (s : session) (form : fields)
                         (salt : string)
                         (out : Site * session * account_response)
                         (e : string) (u : User.t) :
  registration hash boot site s form salt out ->
  find_user_by_email (store site) e = Some u ->
  find_user_by_email (store (fst (fst out))) e = Some u.
Proof.
  intros R H. destruct R; auto.
  cbn [fst store]. unfold find_user_by_email in *. cbn [users].
  now apply find_app_some.
Qed.

Lemma serve_account (site : Site) (s : session) (req : http_request)
                    (e : string) (u : User.t) :
  find_user_by_email (store site) e = Some u ->
  exists u',
    find_user_by_email
      (store (fst (fst (serve hash check boot site s req)))) e = Some u'
    /\ User.id u' = User.id u
    /\ User.password_hash u' = User.password_hash u.
Proof.
  intros H.
  destruct (serve_cases hash check boot site s req)
    as [->|[[form [salt [out [R ->]]]]|[uid [db' [_ [W ->]]]]]].
  - eauto.
  - exists u. split; auto. eapply registered_account; eauto.
  - cbn [with_store store]. eapply write_account; eauto.
Qed.

Lemma serve_all_account (reqs : list (session * http_request)) (site : Site)
                        (e : string) (u : User.t) :
  find_user_by_email (store site) e = Some u ->
  exists u',
    find_user_by_email (store (serve_all hash check boot site reqs)) e
    = Some u'
    /\ User.id u' = User.id u
    /\ User.password_hash u' = User.password_hash u.
Proof.
  revert site u. induction reqs as [|[s req] reqs IH]; intros site u H.
  - eauto.
  - rewrite serve_all_cons.
    destruct (serve_account site s req e u H) as [u1 [H1 [I1 P1]]].
    destruct (IH _ u1 H1) as [u2 [H2 [I2 P2]]].
    exists u2. split; [exact H2|]. split; congruence.
Qed.

Lemma register_created (site site' : Site) (s s' : session) (form : fields)
                       (method : http_method) (salt : string) :
  register hash boot site s method form salt = (site', s', account_created) ->
  find_user_by_email (store site') (email_of form)
  = Some (User.mk (users_id_seq site + 1) (name_of form) (email_of form)
            (hash (get_default form "password" "") salt) None boot).
Proof.
  intros H. pose proof (register_cases hash boot site s method form salt) as R.
  rewrite H in R. inversion R as [resp Hne|]; subst.
  - now contradiction Hne.
  - unfold find_user_by_email in *. cbn [store users].
    rewrite find_app_none by assumption.
    cbn [find User.email]. now rewrite String.eqb_refl.
Qed.

(** X8: if [check_password_hash] accepts the hash made of the password,
    then after a successful registration and any requests served since, a
    login with an e-mail that normalises to the registered one and with the
    same password opens a session for the id given at registration and
    redirects to the balance form. *)
Theorem login_after_register (site site' : Site) (s s' : session)
                             (form form' : fields) (salt : string)
                             (reqs : list (session * http_request)) :
  check (hash (get_default form "password" "") salt)
        (get_default form "password" "") = true ->
  register hash boot site s POST form salt = (site', s', account_created) ->
  email_of form' = email_of form ->
  get_default form' "password" "" = get_default form "password" "" ->
  login check (serve_all hash check boot site' reqs) None POST form'
  = (Some (users_id_seq site + 1),
     Goto (Some ("Добро пожаловать!", "success"))%string ViewSetupBalance).
Proof.
  intros Hcheck Hreg He Hp.
  apply register_created in Hreg.
  destruct (serve_all_account reqs site' _ _ Hreg) as [u [Hu [Hi Hh]]].
  unfold login. cbn [is_authenticated]. rewrite He, Hu, Hh, Hp.
  cbn [User.password_hash]. rewrite Hcheck. now rewrite Hi.
Qed.

(** X9: after a successful registration and any requests served since, a
    visitor who is not logged in and submits a complete form whose e-mail
    normalises to the registered one is refused with the message that the
    e-mail is taken, and nothing changes. *)
Theorem email_registered_once (site site' : Site) (s s' s2 : session)
                              (form form2 : fields) (salt salt2 : string)
                              (reqs : list (session * http_request)) :
  register hash boot site s POST form salt = (site', s', account_created) ->
  email_of form2 = email_of form -> complete form2 = true ->
  let later := serve_all hash check boot site' reqs in
  is_authenticated later s2 = false ->
  register hash boot later s2 POST form2 salt2
  = (later, s2,
     Goto (Some ("Пользователь с таким e-mail уже существует.", "error"))%string
          ViewRegister).
Proof.
  intros Hreg He Hc later Ha.
  apply register_created in Hreg.
  destruct (serve_all_account reqs site' _ _ Hreg) as [u [Hu _]].
  fold later in Hu. unfold register. rewrite Ha, He, Hu.
  unfold complete in Hc. rewrite !andb_true_iff, !negb_true_iff in Hc.
  destruct Hc as [[[-> Hem] ->] ->]. rewrite He in Hem. rewrite Hem.
  reflexivity.
Qed.

(** X10: if a login request ends with a session for some user, then either
    the browser already had that session, or a user with that id exists whose
    e-mail is the normalised e-mail of the form and whose password hash
    [check_password_hash] accepted for the password of the form. *)
Theorem login_checks_password (site : Site) (s : session)
                              (method : http_method) (form : fields)
                              (uid : Z) :
  fst (login check site s method form) = Some uid ->
  s = Some uid
  \/ exists u, In u (users (store site)) /\ User.id u = uid
               /\ User.email u = email_of form
               /\ check (User.password_hash u)
                        (get_default form "password" "") = true.
Proof.
  unfold login. destruct (is_authenticated site s); [now left|].
  destruct method; [now left|].
  destruct (find_user_by_email _ _) as [u|] eqn:Hu; [|now left].
  destruct (check _ _) eqn:Hc; [|now left].
  cbn [fst]. intros [= <-]. right. exists u.
  apply find_user_by_email_some in Hu. tauto.
Qed.

Lemma with_store_same (site : Site) : with_store site (store site) = site.
Proof. now destruct site. Qed.

Lemma handle_unauthorized (db : Db) (uid : Z) (r : request) :
  current_user db uid = None -> handle db uid r = (db, Unauthorized).
Proof.
  intros H. destruct r; cbn [handle];
    [unfold setup_balance|unfold dashboard|unfold add_transaction
    |unfold edit_transaction|unfold delete_transaction];
    now rewrite H.
Qed.

Lemma protected_refused (site : Site) (s : session) (r : request) :
  is_authenticated site s = false ->
  serve hash check boot site s (Protected r) = (site, s, inr Unauthorized).
Proof.
  intros Ha. cbn [serve]. destruct s as [uid|]; [|reflexivity].
  cbn [is_authenticated] in Ha.
  destruct (current_user (store site) uid) eqn:Hu; [discriminate|].
  rewrite (handle_unauthorized _ _ r Hu). now rewrite with_store_same.
Qed.

(** X11: for a session that names no existing user (or no session at all),
    every route under [login_required] answers with the redirect to the login
    page and leaves the site and the session as they were; so does
    [logout]. *)
Theorem protected_routes_need_login (site : Site) (s : session) (r : request) :
  is_authenticated site s = false ->
  serve hash check boot site s (Protected r) = (site, s, inr Unauthorized)
  /\ serve hash check boot site s Logout = (site, s, inl LoginRequired).
Proof.
  intros Ha. split.
  - now apply protected_refused.
  - cbn [serve]. unfold logout. now rewrite Ha.
Qed.

End AccountFacts.

Lemma register_rejects_witness :
  exists msg,
    register Demo.plain_hash Demo.boot Demo.one_account None POST
             [("name", "Anna"); ("email", "ANNA@example.org ");
              ("password", "other"); ("confirm", "other")]%string "salt2"
    = (Demo.one_account, None,
       Goto (Some (msg, "error"%string)) ViewRegister).
Proof.
  apply (register_rejects Demo.plain_hash Demo.boot Demo.one_account None).
  - reflexivity.
  - right. vm_compute. discriminate.
Defined.

Lemma register_creates_account_witness :
  exists site',
    register Demo.plain_hash Demo.boot Demo.one_account None POST
             [("name", "Boris"); ("email", "boris@example.org");
              ("password", "pw"); ("confirm", "pw")]%string "pepper"
    = (site', Some 2, account_created)
    /\ known_user (store Demo.one_account) 2 = false
    /\ current_user (store site') 2
       = Some (User.mk 2 "Boris" "boris@example.org" "pw" None Demo.boot)
    /\ labels_of (store site') 2 = defaults
    /\ (forall other, other <> 2 ->
          current_user (store site') other
          = current_user (store Demo.one_account) other
          /\ labels_of (store site') other
             = labels_of (store Demo.one_account) other)
    /\ transactions (store site') = transactions (store Demo.one_account).
Proof.
  apply (register_creates_account Demo.plain_hash Demo.boot Demo.one_account
           None
           [("name", "Boris"); ("email", "boris@example.org");
            ("password", "pw"); ("confirm", "pw")]%string "pepper");
    vm_compute; reflexivity.
Defined.

Lemma login_after_register_witness :
  login Demo.plain_check
        (serve_all Demo.plain_hash Demo.plain_check Demo.boot Demo.one_account
                   [(Some 1, Protected (ReqSetupBalance POST
                                          [("initial_balance", "10")]));
                    (Some 1, Logout)]%string)
        None POST
        [("email", " Anna@example.org"); ("password", "s3cret")]%string
  = (Some 1,
     Goto (Some ("Добро пожаловать!", "success"))%string ViewSetupBalance).
Proof.
  apply (login_after_register Demo.plain_hash Demo.plain_check Demo.boot
           Demo.empty Demo.one_account None (Some 1) Demo.anna_form
           [("email", " Anna@example.org"); ("password", "s3cret")]%string
           "salt");
    vm_compute; reflexivity.
Defined.

Lemma email_registered_once_witness :
  let later :=
    serve_all Demo.plain_hash Demo.plain_check Demo.boot Demo.one_account
              [(Some 1, Logout)] in
  register Demo.plain_hash Demo.boot later None POST
           [("name", "Ann"); ("email", "ANNA@EXAMPLE.ORG");
            ("password", "x"); ("confirm", "x")]%string "salt2"
  = (later, None,
     Goto (Some ("Пользователь с таким e-mail уже существует.", "error"))%string
          ViewRegister).
Proof.
  apply (email_registered_once Demo.plain_hash Demo.plain_check Demo.boot
           Demo.empty Demo.one_account None (Some 1) None Demo.anna_form
           [("name", "Ann"); ("email", "ANNA@EXAMPLE.ORG");
            ("password", "x"); ("confirm", "x")]%string "salt" "salt2"
           [(Some 1, Logout)]);
    vm_compute; reflexivity.
Defined.

Lemma login_checks_password_witness :
  None = Some 1
  \/ exists u, In u (users (store Demo.one_account)) /\ User.id u = 1
               /\ User.email u
                  = email_of [("email", "anna@example.org");
                              ("password", "s3cret")]%string
               /\ Demo.plain_check (User.password_hash u)
                    (get_default [("email", "anna@example.org");
                                  ("password", "s3cret")]%string
                                 "password" "") = true.
Proof.
  apply (login_checks_password Demo.plain_check Demo.one_account None POST
           [("email", "anna@example.org"); ("password", "s3cret")]%string 1).
  vm_compute. reflexivity.
Defined.

Lemma protected_routes_need_login_witness :
  serve Demo.plain_hash Demo.plain_check Demo.boot Demo.two_accounts (Some 7)
        (Protected (ReqDeleteTransaction 1))
  = (Demo.two_accounts, Some 7, inr Unauthorized)
  /\ serve Demo.plain_hash Demo.plain_check Demo.boot Demo.two_accounts (Some 7) Logout
     = (Demo.two_accounts, Some 7, inl LoginRequired).
Proof.
  apply (protected_routes_need_login Demo.plain_hash Demo.plain_check Demo.boot Demo.two_accounts
           (Some 7) (ReqDeleteTransaction 1)).
  vm_compute. reflexivity.
Defined.

(** ** The order of timestamps *)

(** One step of a lexicographic comparison of three values. *)
Ltac lex_step x y z :=
  destruct (Z.compare_spec x y), (Z.compare_spec y z), (Z.compare_spec x z);
  try lia; try discriminate; try reflexivity.

Lemma geb_trans (a b c : datetime) :
  Date.geb a b = true -> Date.geb b c = true -> Date.geb a c = true.
Proof.
  unfold Date.geb, Date.datetime_compare, Date.compare, Date.time_compare.
  destruct a as [[ya ma da] ha mia sa ua], b as [[yb mb db] hb mib sb ub],
           c as [[yc mc dc] hc mic sc uc].
  cbn [dt_date year month day hour minute second microsecond].
  lex_step ya yb yc. lex_step ma mb mc. lex_step da db dc.
  lex_step ha hb hc. lex_step mia mib mic. lex_step sa sb sc.
  lex_step ua ub uc.
Qed.

Lemma geb_total (a b : datetime) :
  Date.geb a b = true \/ Date.geb b a = true.
Proof.
  unfold Date.geb, Date.datetime_compare, Date.compare, Date.time_compare.
  destruct a as [[ya ma da] ha mia sa ua], b as [[yb mb db] hb mib sb ub].
  cbn [dt_date year month day hour minute second microsecond].
  destruct (Z.compare_spec ya yb), (Z.compare_spec yb ya); try lia; auto.
  destruct (Z.compare_spec ma mb), (Z.compare_spec mb ma); try lia; auto.
  destruct (Z.compare_spec da db), (Z.compare_spec db da); try lia; auto.
  destruct (Z.compare_spec ha hb), (Z.compare_spec hb ha); try lia; auto.
  destruct (Z.compare_spec mia mib), (Z.compare_spec mib mia); try lia; auto.
  destruct (Z.compare_spec sa sb), (Z.compare_spec sb sa); try lia; auto.
  destruct (Z.compare_spec ua ub), (Z.compare_spec ub ua); try lia; auto.
Qed.

Lemma created_at_desc_total (a b : Transaction.t) :
  created_at_desc a b = true \/ created_at_desc b a = true.
Proof. apply geb_total. Qed.

Lemma created_at_desc_trans (a b c : Transaction.t) :
  created_at_desc a b = true -> created_at_desc b c = true ->
  created_at_desc a c = true.
Proof. unfold created_at_desc. intros H1 H2. eapply geb_trans; eauto. Qed.

(** ** The recent transactions *)

(** X12: for a user whose balance is set, the list of recent transactions
    on the rendered dashboard has at most 50 entries, is sorted by timestamp
    from the newest down, and holds only transactions of that user dated at or
    after the start of the period; together with some remainder it makes up
    all such transactions, nothing in the remainder is newer than an entry,
    and the list has exactly 50 entries as soon as 50 such transactions
    exist. *)
Theorem recent_transactions_newest_fifty
    (db : Db) (uid : Z) (u : User.t) (ib : Numeric.t)
    (args : fields) (d start : date) :
  current_user db uid = Some u ->
  User.initial_balance u = Some ib ->
  period_start (get_default args "period" "month") d = Ok start ->
  let window := rows_in_window db uid (Date.midnight start) in
  exists ctx,
    dashboard db uid args d = (db, Render (DashboardPage ctx))
    /\ (List.length (recent_transactions ctx) <= 50)%nat
    /\ StronglySorted not_older (recent_transactions ctx)
    /\ (forall t, In t (recent_transactions ctx) ->
          In t (transactions db) /\ Transaction.user_id t = uid
          /\ Date.geb (Transaction.created_at t) (Date.midnight start) = true)
    /\ (exists rest,
          Permutation (recent_transactions ctx ++ rest) window
          /\ forall x y, In x (recent_transactions ctx) -> In y rest ->
                         not_older x y)
    /\ List.length (recent_transactions ctx)
       = Nat.min 50 (List.length window).
Proof.
  intros Hu Hb Hs window.
  destruct (dashboard_renders db uid u ib args d start Hu Hb Hs) as [ctx Hd].
  exists ctx. split; [exact Hd|].
  assert (recent_transactions ctx
          = firstn 50 (order_by created_at_desc window)) as Hrec.
  { revert Hd. unfold dashboard. rewrite Hu, Hb, Hs.
    destruct (bind _ _); [|discriminate].
    destruct (chart_values _ _ _) as [[ev iv]|]; [|discriminate].
    intros H. inversion H; subst. reflexivity. }
  rewrite Hrec.
  pose proof (order_by_sorted created_at_desc created_at_desc_total
                created_at_desc_trans window) as Hsorted.
  pose proof (order_by_perm created_at_desc window) as Hperm.
  split; [apply firstn_le_length|].
  split; [now apply (sorted_firstn created_at_desc)|].
  split; [|split].
  - intros t H. apply In_firstn in H.
    apply (Permutation_in _ Hperm) in H. unfold window, rows_in_window in H.
    apply filter_In in H. destruct H as [Hin H].
    apply andb_prop in H. destruct H as [Ho Hg]. apply Z.eqb_eq in Ho. auto.
  - exists (skipn 50 (order_by created_at_desc window)). split.
    + now rewrite firstn_skipn.
    + intros x y Hx Hy.
      exact (sorted_firstn_skipn created_at_desc _ Hsorted 50 x y Hx Hy).
  - rewrite length_firstn. now rewrite (Permutation_length Hperm).
Qed.

(** ** A user's requests and the other users *)

Lemma filter_owner (g : Transaction.t -> bool) (uid : Z)
                   (l : list Transaction.t) :
  filter (fun t => (Transaction.user_id t =? uid) && g t) l
  = filter g (filter (fun t => Transaction.user_id t =? uid) l).
Proof.
  induction l as [|t l IH]; cbn [filter]; auto.
  destruct (Transaction.user_id t =? uid); cbn [andb filter]; auto.
  now rewrite IH.
Qed.

Lemma in_window_rows (db : Db) (uid : Z) (start_dt : datetime) :
  filter (in_window uid start_dt) (transactions db)
  = filter (fun t => Date.geb (Transaction.created_at t) start_dt)
           (rows_of db uid).
Proof. unfold rows_of. now rewrite <- filter_owner. Qed.

Lemma typed_in_window_rows (db : Db) (uid : Z) (ty : string)
                           (start_dt : datetime) :
  filter (typed_in_window uid ty start_dt) (transactions db)
  = filter (fun t => String.eqb (Transaction.type t) ty
                     && Date.geb (Transaction.created_at t) start_dt)
           (rows_of db uid).
Proof.
  unfold rows_of. rewrite <- filter_owner. apply filter_ext.
  intros t. unfold typed_in_window. now rewrite andb_assoc.
Qed.

(** The dashboard of a user is a function of the user's row, the
    categories and the user's transactions. *)
Lemma dashboard_depends (db db' : Db) (uid : Z) (args : fields) (d : date) :
  current_user db' uid = current_user db uid ->
  categories db' = categories db ->
  rows_of db' uid = rows_of db uid ->
  snd (dashboard db' uid args d) = snd (dashboard db uid args d).
Proof.
  intros Hu Hc Hr. unfold dashboard. rewrite Hu.
  destruct (current_user db uid) as [u|]; [|reflexivity].
  destruct (User.initial_balance u) as [ib|]; [|reflexivity].
  destruct (period_start _ d) as [start|]; [|reflexivity].
  unfold total_of, expense_breakdown, categories_of.
  rewrite !typed_in_window_rows, !in_window_rows, Hr, Hc.
  destruct (bind _ _); [|reflexivity].
  destruct (chart_values _ _ _) as [[ev iv]|]; reflexivity.
Qed.

Lemma filter_filter_frame {A : Type} (f g : A -> bool) (l : list A) :
  (forall x, In x l -> g x = false -> f x = false) ->
  filter f (filter g l) = filter f l.
Proof.
  induction l as [|x l IH]; cbn [filter]; auto.
  intros H. specialize (IH (fun y Hy => H y (or_intror Hy))).
  destruct (g x) eqn:Eg; cbn [filter]; rewrite IH; auto.
  now rewrite (H x (or_introl eq_refl) Eg).
Qed.

Lemma same_id_same_row (db : Db) (a b : Transaction.t) :
  db_wf db = true -> In a (transactions db) -> In b (transactions db) ->
  Transaction.id a = Transaction.id b -> a = b.
Proof.
  intros Hwf. apply NoDup_map_id_eq. now apply db_wf_transactions.
Qed.

Lemma write_isolated (db : Db) (uid : Z) (db' : Db) (other : Z) :
  db_wf db = true -> write db uid db' -> other <> uid ->
  current_user db' other = current_user db other
  /\ categories db' = categories db
  /\ rows_of db' other = rows_of db other.
Proof.
  intros Hwf W Hne.
  destruct W as [|u c Hu Hb Hr
                 |u cat raw amount c ty descr at_ Hu Hp Hs Hin Hown Hty Hmax
                 |u old cat raw amount c ty descr at_ Hu Hold Hoown Hp Hs Hin
                    Hown Hty
                 |u old Hu Hold Hoown]; auto;
    apply current_user_spec in Hu; destruct Hu as [_ Hid].
  - split; [|split; reflexivity].
    apply current_user_set_other. congruence.
  - split; [reflexivity|]. split; [reflexivity|].
    unfold rows_of. cbn [transactions]. rewrite filter_app. cbn [filter].
    cbn [Transaction.user_id].
    destruct (Z.eqb_spec (User.id u) other); [congruence|].
    apply app_nil_r.
  - split; [reflexivity|]. split; [reflexivity|].
    unfold rows_of, update_transaction. cbn [transactions Transaction.id].
    rewrite filter_app. cbn [filter Transaction.user_id].
    destruct (Z.eqb_spec (Transaction.user_id old) other); [congruence|].
    rewrite app_nil_r.
    apply filter_filter_frame. intros t Ht E.
    apply negb_false_iff, Z.eqb_eq in E.
    apply (same_id_same_row db t old Hwf Ht Hold) in E. subst t.
    apply Z.eqb_neq. congruence.
  - split; [reflexivity|]. split; [reflexivity|].
    unfold rows_of, remove_transaction. cbn [transactions].
    apply filter_filter_frame. intros t Ht E.
    apply negb_false_iff, Z.eqb_eq in E.
    apply (same_id_same_row db t old Hwf Ht Hold) in E. subst t.
    apply Z.eqb_neq. congruence.
Qed.

Lemma run_isolated (reqs : list (Z * request)) (db : Db) (other : Z) :
  db_wf db = true ->
  forallb (fun p => negb (fst p =? other)) reqs = true ->
  current_user (run db reqs) other = current_user db other
  /\ categories (run db reqs) = categories db
  /\ rows_of (run db reqs) other = rows_of db other.
Proof.
  revert db. induction reqs as [|[uid r] reqs IH]; intros db Hwf Hall.
  - auto.
  - cbn [forallb fst] in Hall. apply andb_prop in Hall.
    destruct Hall as [Hne Hall]. apply negb_true_iff, Z.eqb_neq in Hne.
    cbn [run].
    destruct (write_isolated db uid _ other Hwf (handle_writes db uid r))
      as [H1 [H2 H3]]; [congruence|].
    destruct (IH (fst (handle db uid r)) (handle_wf db uid r Hwf) Hall)
      as [K1 [K2 K3]].
    split; [congruence|]. split; congruence.
Qed.

(** X13: on a store that satisfies its constraints, whatever requests other
    users make (setting a balance, adding, editing, deleting), the dashboard
    of a user answers exactly what it answered before, for every period and
    date. *)
Theorem others_leave_dashboard (db : Db) (reqs : list (Z * request))
                               (uid : Z) (args : fields) (d : date) :
  db_wf db = true ->
  forallb (fun p => negb (fst p =? uid)) reqs = true ->
  snd (dashboard (run db reqs) uid args d) = snd (dashboard db uid args d).
Proof.
  intros Hwf Hall.
  destruct (run_isolated reqs db uid Hwf Hall) as [H1 [H2 H3]].
  now apply dashboard_depends.
Qed.

Lemma recent_transactions_newest_fifty_witness :
  let window :=
    rows_in_window Sample.busy 1 (Date.midnight (mkdate 2026 11 1)) in
  exists ctx,
    dashboard Sample.busy 1 [("period", "month")]%string Sample.today
    = (Sample.busy, Render (DashboardPage ctx))
    /\ (List.length (recent_transactions ctx) <= 50)%nat
    /\ StronglySorted not_older (recent_transactions ctx)
    /\ (forall t, In t (recent_transactions ctx) ->
          In t (transactions Sample.busy) /\ Transaction.user_id t = 1
          /\ Date.geb (Transaction.created_at t)
                      (Date.midnight (mkdate 2026 11 1)) = true)
    /\ (exists rest,
          Permutation (recent_transactions ctx ++ rest) window
          /\ forall x y, In x (recent_transactions ctx) -> In y rest ->
                         not_older x y)
    /\ List.length (recent_transactions ctx)
       = Nat.min 50 (List.length window).
Proof.
  apply (recent_transactions_newest_fifty Sample.busy 1 Sample.anna' 100000
           [("period", "month")]%string Sample.today (mkdate 2026 11 1));
    reflexivity.
Defined.

Lemma others_leave_dashboard_witness :
  snd (dashboard
         (run Sample.shared
              [(2, ReqAddTransaction
                     [("type", "income"); ("amount", "10");
                      ("category_id", "16")]%string Sample.now);
               (2, ReqDeleteTransaction 3)])
         1 [("period", "year")]%string Sample.today)
  = snd (dashboard Sample.shared 1 [("period", "year")]%string Sample.today).
Proof.
  apply (others_leave_dashboard Sample.shared
           [(2, ReqAddTransaction
                  [("type", "income"); ("amount", "10");
                   ("category_id", "16")]%string Sample.now);
            (2, ReqDeleteTransaction 3)]
           1 [("period", "year")]%string Sample.today);
    vm_compute; reflexivity.
Defined.

(** ** Windows and totals *)

Lemma sum_filter_le (f g : Transaction.t -> bool) (l : list Transaction.t) :
  (forall t, In t l -> 0 <= Transaction.amount t) ->
  (forall t, f t = true -> g t = true) ->
  fold_right Z.add 0 (map Transaction.amount (filter f l))
  <= fold_right Z.add 0 (map Transaction.amount (filter g l)).
Proof.
  intros Hnn Hfg. induction l as [|t l IH]; cbn [filter map fold_right].
  - lia.
  - specialize (IH (fun x Hx => Hnn x (or_intror Hx))).
    pose proof (Hnn t (or_introl eq_refl)) as Ht.
    destruct (f t) eqn:Ef.
    + rewrite (Hfg t Ef). cbn [map fold_right]. lia.
    + destruct (g t); cbn [map fold_right]; lia.
Qed.

Lemma amounts_nonneg_spec (db : Db) :
  amounts_nonneg db = true <->
  forall t, In t (transactions db) -> 0 <= Transaction.amount t.
Proof.
  unfold amounts_nonneg. rewrite forallb_forall.
  split; intros H t Ht; specialize (H t Ht); now apply Z.leb_le.
Qed.

(** X14: when no stored amount is negative, the total of a type over a
    window that starts later is at most the total over a window that starts
    earlier; in particular, on any date with a month number of at least
    one, the totals of the month are at most those of the year. *)
Theorem later_window_smaller_total (db : Db) (uid : Z) (ty : string)
                                   (s1 s2 : datetime) (d : date) :
  amounts_nonneg db = true ->
  (Date.geb s2 s1 = true ->
   total_cents db uid ty s2 <= total_cents db uid ty s1)
  /\ (1 <= month d ->
      forall sm sy, period_start "month" d = Ok sm ->
                    period_start "year" d = Ok sy ->
      total_cents db uid ty (Date.midnight sm)
      <= total_cents db uid ty (Date.midnight sy)).
Proof.
  intros Hnn0. pose proof (proj1 (amounts_nonneg_spec db) Hnn0) as Hnn.
  assert (forall a b, Date.geb a b = true ->
            total_cents db uid ty a <= total_cents db uid ty b) as Hmono.
  { intros a b Hab. unfold total_cents. apply sum_filter_le; auto.
    intros t Ht. rewrite !andb_true_iff in *. destruct Ht as [Ht Hg].
    split; auto. eapply geb_trans; eauto. }
  split; [apply Hmono|].
  intros Hm sm sy Hsm Hsy. apply Hmono.
  cbn in Hsm, Hsy. injection Hsm as <-. injection Hsy as <-.
  unfold Date.geb, Date.datetime_compare, Date.compare, Date.midnight,
    Date.replace_day1, Date.replace_month1_day1, Date.time_compare.
  cbn [dt_date year month day hour minute second microsecond].
  rewrite Z.compare_refl.
  destruct (Z.compare_spec (month d) 1); try lia; reflexivity.
Qed.

(** ** The breakdown of expenses *)

Lemma under_group_add (k key : string) (v : Numeric.t)
                      (g : list (string * Numeric.t)) :
  under k (group_add key v g)
  = under k g + (if String.eqb key k then v else 0).
Proof.
  unfold under, sum_of.
  induction g as [|[k0 s] g IH]; cbn [group_add filter fst map snd fold_right].
  - destruct (String.eqb key k); cbn; lia.
  - destruct (String.eqb_spec k0 key) as [->|Hne].
    + cbn [filter fst]. destruct (String.eqb key k); cbn [map snd fold_right];
        lia.
    + cbn [filter fst]. destruct (String.eqb k0 k); cbn [map snd fold_right];
        rewrite IH; lia.
Qed.

Lemma sum_group_add (key : string) (v : Numeric.t)
                    (g : list (string * Numeric.t)) :
  sum_of (group_add key v g) = sum_of g + v.
Proof.
  unfold sum_of.
  induction g as [|[k0 s] g IH]; cbn [group_add map snd fold_right].
  - lia.
  - destruct (String.eqb k0 key); cbn [map snd fold_right]; lia.
Qed.

Lemma keys_group_add (key : string) (v : Numeric.t)
                     (g : list (string * Numeric.t)) (k : string) :
  In k (map fst (group_add key v g)) <-> k = key \/ In k (map fst g).
Proof.
  induction g as [|[k0 s] g IH]; cbn [group_add map fst In].
  - intuition.
  - destruct (String.eqb_spec k0 key) as [->|Hne]; cbn [map fst In].
    + intuition.
    + rewrite IH. intuition.
Qed.

Lemma NoDup_group_add (key : string) (v : Numeric.t)
                      (g : list (string * Numeric.t)) :
  NoDup (map fst g) -> NoDup (map fst (group_add key v g)).
Proof.
  induction g as [|[k0 s] g IH]; cbn [group_add map fst]; intros H.
  - constructor; [intros []|constructor].
  - inversion H as [|? ? Hk0 Hg]; subst.
    destruct (String.eqb_spec k0 key) as [->|Hne]; cbn [map fst].
    + constructor; auto.
    + constructor; auto. rewrite keys_group_add. intuition.
Qed.

Lemma under_NoDup (k : string) (v : Numeric.t)
                  (g : list (string * Numeric.t)) :
  NoDup (map fst g) -> In (k, v) g -> under k g = v.
Proof.
  unfold under, sum_of.
  induction g as [|[k0 s] g IH]; cbn [map fst In filter]; [tauto|].
  intros H Hin. inversion H as [|? ? Hk0 Hg]; subst.
  destruct Hin as [E|Hin].
  - injection E as -> ->. rewrite String.eqb_refl. cbn [map snd fold_right].
    rewrite filter_nil; [cbn; lia|].
    intros [k' v'] Hin'. cbn [fst].
    destruct (String.eqb_spec k' k) as [->|]; auto.
    exfalso. apply Hk0. apply in_map_iff. exists (k, v'). auto.
  - destruct (String.eqb_spec k0 k) as [->|].
    + exfalso. apply Hk0. apply in_map_iff. exists (k, v). auto.
    + auto.
Qed.

(** One row joined and added to its group. *)
Lemma breakdown_fold (db : Db) (l : list Transaction.t)
                     (g : list (string * Numeric.t)) :
  let out :=
    fold_left
      (fun groups t =>
         match find (fun c => Category.id c =? Transaction.category_id t)
                    (categories db) with
         | Some c => group_add (Category.name c) (Transaction.amount t) groups
         | None => groups
         end) l g in
  (NoDup (map fst g) -> NoDup (map fst out))
  /\ (forall k, under k out
                = under k g
                  + fold_right Z.add 0
                      (map Transaction.amount (filter (named db k) l)))
  /\ (forall k, In k (map fst out) <->
                In k (map fst g)
                \/ exists t, In t l /\ category_name db t = Some k)
  /\ ((forall t, In t l -> category_name db t <> None) ->
      sum_of out
      = sum_of g + fold_right Z.add 0 (map Transaction.amount l)).
Proof.
  intros out. subst out. revert g.
  induction l as [|t l IH]; intros g; cbn [fold_left].
  - split; [auto|]. split; [intros k; cbn; lia|].
    split; [|intros _; cbn; lia].
    intros k. split; [auto|]. intros [H|[t [[] _]]]. exact H.
  - unfold named, category_name in *. cbn [filter In].
    destruct (find (fun c => Category.id c =? Transaction.category_id t)
                   (categories db)) as [c|] eqn:Ec; cbn [option_map].
    + destruct (IH (group_add (Category.name c) (Transaction.amount t) g))
        as [I1 [I2 [I3 I4]]].
      split; [intros H; apply I1; now apply NoDup_group_add|].
      split; [|split].
      * intros k. rewrite I2, under_group_add.
        destruct (String.eqb (Category.name c) k); cbn [map fold_right]; lia.
      * intros k. rewrite I3, keys_group_add. split.
        -- intros [[->|H]|[t' [Ht' E]]]; auto.
           ++ right. exists t. split; [now left|]. now rewrite Ec.
           ++ right. exists t'. split; [now right|exact E].
        -- intros [H|[t' [[<-|Ht'] E]]]; auto.
           ++ rewrite Ec in E. cbn in E. injection E as <-. auto.
           ++ right. exists t'. auto.
      * intros Hall. rewrite I4, sum_group_add; [cbn [map fold_right]; lia|].
        intros t' Ht'. apply Hall. now right.
    + destruct (IH g) as [I1 [I2 [I3 I4]]].
      split; [auto|]. split; [|split].
      * intros k. now rewrite I2.
      * intros k. rewrite I3. split.
        -- intros [H|[t' [Ht' E]]]; auto. right. exists t'. auto.
        -- intros [H|[t' [[<-|Ht'] E]]]; auto.
           ++ rewrite Ec in E. discriminate.
           ++ right. exists t'. auto.
      * intros Hall. exfalso. apply (Hall t); [now left|].
        now rewrite Ec.
Qed.

Lemma owned_category_named (db : Db) (t : Transaction.t) :
  owned_category db t = true -> category_name db t <> None.
Proof.
  intros H. apply owned_category_spec in H.
  destruct H as [c [Hin [Hid _]]]. unfold category_name.
  destruct (find _ (categories db)) eqn:E; [discriminate|].
  pose proof (find_none _ _ E c Hin) as N. cbn in N.
  apply Z.eqb_neq in N. contradiction.
Qed.

Lemma breakdown_rows (db : Db) (uid : Z) (start_dt : datetime) :
  let rows := expense_breakdown db uid start_dt in
  let expenses := expenses_in_window db uid start_dt in
  NoDup (map fst rows)
  /\ (forall name v, In (name, v) rows -> v = spent_on db uid start_dt name)
  /\ (forall name, In name (map fst rows) <->
                   exists t, In t expenses /\ category_name db t = Some name)
  /\ (references_ok db = true ->
      sum_of rows = total_cents db uid "expense" start_dt).
Proof.
  intros rows expenses.
  destruct (breakdown_fold db expenses []) as [H1 [H2 [H3 H4]]].
  change (fold_left _ expenses []) with rows in H1, H2, H3, H4.
  assert (NoDup (map fst rows)) as Hnd by (apply H1; constructor).
  split; [exact Hnd|]. split; [|split].
  - intros name v Hin. rewrite <- (under_NoDup name v rows Hnd Hin).
    rewrite H2. unfold spent_on. fold expenses. cbn. lia.
  - intros name. rewrite H3. cbn [map In]. tauto.
  - intros Href. rewrite H4; [reflexivity|].
    intros t Ht. apply owned_category_named.
    apply references_ok_spec in Href. destruct Href as [Href _].
    apply expenses_in_window_spec in Ht. now apply Href.
Qed.

(** ** The values of the charts *)

(** The rounding of [float]: no whole number is nearer to [n / d]. *)
Lemma div_half_even_nearest (n d : Z) :
  0 < d -> 2 * Z.abs (n - d * Float.div_half_even n d) <= d.
Proof.
  intros Hd. unfold Float.div_half_even.
  pose proof (Z.div_mod n d ltac:(lia)) as E.
  pose proof (Z.mod_pos_bound n d Hd) as B.
  destruct (Z.ltb_spec (2 * (n mod d)) d);
    [|destruct (Z.ltb_spec d (2 * (n mod d))); [|destruct (Z.even (n / d))]];
    nia.
Qed.

Lemma pow2_pos (k : Z) : 0 <= k -> 0 < 2 ^ k.
Proof. intros H. apply Z.pow_pos_nonneg; lia. Qed.

Lemma pow2_split (a b : Z) : 0 <= a -> 0 <= b -> 2 ^ (a + b) = 2 ^ a * 2 ^ b.
Proof. intros. now apply Z.pow_add_r. Qed.

Lemma scale_le (x y z : Z) : 0 < z -> x <= y -> x * z <= y * z.
Proof. intros. nia. Qed.

Lemma scale_lt (x y z : Z) : 0 < z -> x < y -> x * z < y * z.
Proof. intros. nia. Qed.

Lemma unscale_le (x y z : Z) : 0 < z -> x * z <= y * z -> x <= y.
Proof. intros. nia. Qed.

Lemma unscale_lt (x y z : Z) : 0 < z -> x * z < y * z -> x < y.
Proof. intros. nia. Qed.

(** [floor_log2 n d] is the exponent of the power of two at or below
    [n / d]; [M] clears the negative exponents. *)
Lemma floor_log2_spec (n d M : Z) :
  0 < n -> 0 < d -> 0 <= M -> 0 <= M + Float.floor_log2 n d ->
  d * 2 ^ (M + Float.floor_log2 n d) <= n * 2 ^ M
  /\ n * 2 ^ M < d * 2 ^ (M + Float.floor_log2 n d + 1).
Proof.
  intros Hn Hd HM. unfold Float.floor_log2.
  destruct (Z.log2_spec n Hn) as [Ha1 Ha2].
  destruct (Z.log2_spec d Hd) as [Hb1 Hb2].
  pose proof (Z.log2_nonneg n) as Ha0. pose proof (Z.log2_nonneg d) as Hb0.
  set (a := Z.log2 n) in *. set (b := Z.log2 d) in *.
  rewrite Z.pow_succ_r in Ha2, Hb2 by lia.
  pose proof (pow2_pos a Ha0) as Pa. pose proof (pow2_pos b Hb0) as Pb.
  pose proof (pow2_pos M HM) as PM.
  (* everything is compared after scaling by [2^b * 2^M] *)
  cbv zeta.
  set (l := if (if 0 <=? a - b then d * 2 ^ (a - b) <=? n
                else d <=? n * 2 ^ (- (a - b)))
            then a - b else a - b - 1).
  intros HMl.
  assert (0 <= M + (a - b)) as H0.
  { subst l. destruct (if 0 <=? a - b then _ else _); lia. }
  pose proof (pow2_pos _ H0) as P0.
  assert (l = a - b /\ d * 2 ^ (M + (a - b)) <= n * 2 ^ M
          \/ l = a - b - 1 /\ n * 2 ^ M < d * 2 ^ (M + (a - b))) as Hl.
  { subst l. destruct (Z.leb_spec 0 (a - b)) as [HL|HL].
    - destruct (Z.leb_spec (d * 2 ^ (a - b)) n) as [T|T].
      + left. split; [reflexivity|]. rewrite pow2_split by lia.
        apply (scale_le _ _ (2 ^ M)) in T; [|exact PM]. lia.
      + right. split; [reflexivity|].
        rewrite pow2_split by lia.
        apply (scale_lt _ _ (2 ^ M)) in T; [|exact PM]. lia.
    - assert (2 ^ M = 2 ^ (M + (a - b)) * 2 ^ (- (a - b))) as EM.
      { rewrite <- pow2_split; [f_equal; lia|lia|lia]. }
      destruct (Z.leb_spec d (n * 2 ^ (- (a - b)))) as [T|T].
      + left. split; [reflexivity|]. rewrite EM.
        apply (scale_le _ _ (2 ^ (M + (a - b)))) in T; [|exact P0]. lia.
      + right. split; [reflexivity|]. rewrite EM.
        apply (scale_lt _ _ (2 ^ (M + (a - b)))) in T; [|exact P0]. lia. }
  clearbody l.
  destruct Hl as [[-> T]|[-> T]].
  - split; [exact T|].
    (* n < 2 * 2^a and 2^b <= d *)
    apply (unscale_lt _ _ (2 ^ b)); [exact Pb|].
    assert (2 ^ (M + (a - b) + 1) * 2 ^ b = 2 * 2 ^ a * 2 ^ M) as E.
    { rewrite <- pow2_split by lia.
      replace (M + (a - b) + 1 + b) with (Z.succ (a + M)) by lia.
      rewrite Z.pow_succ_r by lia. rewrite pow2_split by lia. lia. }
    pose proof (pow2_pos (M + (a - b) + 1) ltac:(lia)) as P1.
    assert (n * 2 ^ M * 2 ^ b < 2 * 2 ^ a * 2 ^ M * 2 ^ b) as S1.
    { apply scale_lt; [exact Pb|]. apply scale_lt; [exact PM|]. exact Ha2. }
    assert (2 ^ (M + (a - b) + 1) * 2 ^ b * 2 ^ b
            <= 2 ^ (M + (a - b) + 1) * 2 ^ b * d) as S2.
    { apply Z.mul_le_mono_nonneg_l; [|exact Hb1].
      apply Z.mul_nonneg_nonneg; lia. }
    rewrite E in S2.
    replace (d * 2 ^ (M + (a - b) + 1) * 2 ^ b)
      with (d * (2 ^ (M + (a - b) + 1) * 2 ^ b)) by ring.
    rewrite E. lia.
  - replace (M + (a - b - 1) + 1) with (M + (a - b)) by lia.
    split; [|exact T].
    (* d < 2 * 2^b and 2^a <= n *)
    apply (unscale_le _ _ 2); [lia|].
    assert (2 ^ (M + (a - b - 1)) * 2 = 2 ^ (M + (a - b))) as E1.
    { rewrite Z.mul_comm, <- Z.pow_succ_r by lia. f_equal. lia. }
    assert (2 ^ (M + (a - b)) * 2 ^ b = 2 ^ a * 2 ^ M) as E2.
    { rewrite <- !pow2_split by lia. f_equal. lia. }
    assert (d * 2 ^ (M + (a - b)) < 2 * 2 ^ b * 2 ^ (M + (a - b))) as S1.
    { apply scale_lt; [exact P0|exact Hb2]. }
    assert (2 ^ a * 2 ^ M <= n * 2 ^ M) as S2.
    { apply scale_le; [exact PM|exact Ha1]. }
    replace (d * 2 ^ (M + (a - b - 1)) * 2)
      with (d * (2 ^ (M + (a - b - 1)) * 2)) by ring.
    rewrite E1.
    apply (unscale_le _ _ (2 ^ b)); [exact Pb|].
    replace (d * 2 ^ (M + (a - b)) * 2 ^ b)
      with (d * 2 ^ (M + (a - b)) * 2 ^ b) by ring.
    assert (d * 2 ^ (M + (a - b)) * 2 ^ b
            < 2 * 2 ^ b * (2 ^ (M + (a - b)) * 2 ^ b)) as S3.
    { replace (2 * 2 ^ b * (2 ^ (M + (a - b)) * 2 ^ b))
        with (2 * 2 ^ b * 2 ^ (M + (a - b)) * 2 ^ b) by ring.
      apply scale_lt; [exact Pb|exact S1]. }
    rewrite E2 in S3.
    assert (2 * 2 ^ b * (2 ^ a * 2 ^ M) <= n * 2 ^ M * 2 * 2 ^ b) as S4.
    { replace (2 * 2 ^ b * (2 ^ a * 2 ^ M))
        with (2 ^ a * 2 ^ M * (2 * 2 ^ b)) by ring.
      replace (n * 2 ^ M * 2 * 2 ^ b) with (n * 2 ^ M * (2 * 2 ^ b)) by ring.
      apply scale_le; [lia|exact S2]. }
    lia.
Qed.

Lemma pow2_le (a b : Z) : 0 <= a <= b -> 2 ^ a <= 2 ^ b.
Proof. intros H. apply Z.pow_le_mono_r; lia. Qed.

Lemma div_half_even_between (n d lo hi : Z) :
  0 < d -> lo * d <= n -> n < hi * d ->
  lo <= Float.div_half_even n d <= hi.
Proof.
  intros Hd Hlo Hhi. unfold Float.div_half_even.
  assert (lo <= n / d) by (apply Z.div_le_lower_bound; lia).
  assert (n / d < hi) by (apply Z.div_lt_upper_bound; lia).
  destruct (2 * (n mod d) <? d); [lia|].
  destruct (d <? 2 * (n mod d)); [lia|].
  destruct (Z.even (n / d)); lia.
Qed.

(** The scaled quotient that [of_ratio] rounds lies below [2^53], and at or
    above [2^52] unless the exponent is the smallest one. *)
Lemma of_ratio_scaled (n d : Z) :
  0 < n -> 0 < d ->
  let l := Float.floor_log2 n d in
  let e := Z.max Float.MIN_EXP (l - 52) in
  let N := if 0 <=? e then n else n * 2 ^ (- e) in
  let D := if 0 <=? e then d * 2 ^ e else d in
  0 < D /\ N < 2 ^ 53 * D
  /\ (e = l - 52 -> 2 ^ 52 * D <= N)
  /\ (l - 52 < e -> N < 2 ^ 52 * D).
Proof.
  intros Hn Hd l e N D.
  set (M := Z.abs l + Z.abs e).
  assert (0 <= M) as HM by lia.
  assert (0 <= M + l) as HMl by lia.
  assert (0 <= M + e) as HMe by lia.
  destruct (floor_log2_spec n d M Hn Hd HM HMl) as [Lo Hi].
  fold l in Lo, Hi.
  pose proof (pow2_pos M HM) as PM.
  pose proof (pow2_pos (M + e) HMe) as PMe.
  assert (l - 52 <= e) as Hle by lia.
  (* the three bounds, scaled by [2^(M + e)] *)
  assert (n * 2 ^ M < d * (2 ^ 53 * 2 ^ (M + e))) as U53.
  { rewrite <- pow2_split by lia.
    assert (2 ^ (M + l + 1) <= 2 ^ (53 + (M + e))) by (apply pow2_le; lia).
    nia. }
  assert (e = l - 52 -> d * (2 ^ 52 * 2 ^ (M + e)) <= n * 2 ^ M) as L52.
  { intros E. rewrite <- pow2_split by lia.
    replace (52 + (M + e)) with (M + l) by lia. exact Lo. }
  assert (l - 52 < e -> n * 2 ^ M < d * (2 ^ 52 * 2 ^ (M + e))) as U52.
  { intros E. rewrite <- pow2_split by lia.
    assert (2 ^ (M + l + 1) <= 2 ^ (52 + (M + e))) by (apply pow2_le; lia).
    nia. }
  subst N D. destruct (Z.leb_spec 0 e) as [He|He].
  - pose proof (pow2_pos e He) as Pe.
    assert (2 ^ (M + e) = 2 ^ M * 2 ^ e) as E by (apply pow2_split; lia).
    rewrite E in U53, L52, U52.
    split; [nia|]. split; [|split].
    + apply (unscale_lt _ _ (2 ^ M)); [exact PM|]. lia.
    + intros H. apply (unscale_le _ _ (2 ^ M)); [exact PM|].
      specialize (L52 H). lia.
    + intros H. apply (unscale_lt _ _ (2 ^ M)); [exact PM|].
      specialize (U52 H). lia.
  - pose proof (pow2_pos (- e) ltac:(lia)) as Pe.
    assert (2 ^ M = 2 ^ (- e) * 2 ^ (M + e)) as E.
    { rewrite <- pow2_split by lia. f_equal. lia. }
    rewrite E in U53, L52, U52.
    split; [exact Hd|]. split; [|split].
    + apply (unscale_lt _ _ (2 ^ (M + e))); [exact PMe|]. lia.
    + intros H. apply (unscale_le _ _ (2 ^ (M + e))); [exact PMe|].
      specialize (L52 H). lia.
    + intros H. apply (unscale_lt _ _ (2 ^ (M + e))); [exact PMe|].
      specialize (U52 H). lia.
Qed.

(** [of_ratio] gives a binary64 number in normal form that no other number
    of its exponent is nearer to [n / d], or an infinity when [n / d] is at
    least half-way between the largest number and [2^1024]. *)
Lemma of_ratio_nearest (neg : bool) (n d : Z) :
  0 < n -> 0 < d ->
  match Float.of_ratio neg n d with
  | Float.Num s m e =>
      s = neg /\ Float.MIN_EXP <= e <= Float.MAX_EXP
      /\ Z.of_N m < 2 ^ 53
      /\ (2 ^ 52 <= Z.of_N m \/ e = Float.MIN_EXP)
      /\ 2 * Z.abs (n * 2 ^ Z.max 0 (- e)
                    - Z.of_N m * (d * 2 ^ Z.max 0 e))
         <= d * 2 ^ Z.max 0 e
  | Float.Inf s => s = neg /\ (2 ^ 1024 - 2 ^ 970) * d <= n
  | Float.Nan => False
  end.
Proof.
  intros Hn Hd.
  destruct (of_ratio_scaled n d Hn Hd) as [HD [U53 [L52 U52]]].
  unfold Float.of_ratio.
  set (l := Float.floor_log2 n d) in *.
  set (e := Z.max Float.MIN_EXP (l - 52)) in *.
  assert (Float.MIN_EXP <= e) as Hmin by lia.
  assert (e = l - 52 \/ (l - 52 < e /\ e = Float.MIN_EXP)) as He by lia.
  clearbody e. clearbody l.
  unfold Float.MIN_EXP, Float.MAX_EXP in *.
  destruct (Z.leb_spec 0 e) as [H0|H0].
  - (* a multiple of [2^e] *)
    pose proof (pow2_pos e H0) as Pe.
    set (D := d * 2 ^ e) in *.
    pose proof (div_half_even_nearest n D HD) as Hnear.
    pose proof (div_half_even_between n D 0 (2 ^ 53) HD ltac:(lia)
                  ltac:(lia)) as [Hm0 Hm1].
    assert (e = l - 52 ->
            2 ^ 52 <= Float.div_half_even n D) as Hm2.
    { intros E. specialize (L52 E).
      now destruct (div_half_even_between n D (2 ^ 52) (2 ^ 53) HD
                      ltac:(lia) ltac:(lia)). }
    set (m := Float.div_half_even n D) in *. clearbody m.
    destruct (Z.eqb_spec m (2 ^ 53)) as [Em|Em].
    + subst m. destruct (Z.ltb_spec 971 (e + 1)) as [Hov|Hov].
      * split; [reflexivity|].
        assert (2 ^ 971 <= 2 ^ e) as Hp by (apply pow2_le; lia).
        assert (d * 2 ^ 971 <= D) as HpD by (subst D; nia).
        lia.
      * split; [reflexivity|]. split; [lia|].
        rewrite Z2N.id by lia. split; [lia|]. split; [left; lia|].
        rewrite !Z.max_l by lia. rewrite Z.max_r by lia.
        rewrite Z.pow_add_r by lia.
        change (2 ^ 0) with 1. change (2 ^ 1) with 2.
        fold D. replace (d * (2 ^ e * 2)) with (2 * D) by (subst D; ring).
        lia.
    + destruct (Z.ltb_spec 971 e) as [Hov|Hov].
      * split; [reflexivity|].
        destruct He as [He|[_ He]]; [|lia].
        specialize (L52 He).
        assert (2 ^ 972 <= 2 ^ e) as Hp by (apply pow2_le; lia).
        assert (d * 2 ^ 972 <= D) as HpD by (subst D; nia).
        lia.
      * split; [reflexivity|]. split; [lia|].
        rewrite Z2N.id by lia. split; [lia|]. split.
        -- destruct He as [He|[_ He]]; [left; auto|now right].
        -- rewrite Z.max_l by lia. rewrite Z.max_r by lia.
           change (2 ^ 0) with 1. fold D.
           replace (n * 1 - m * D) with (n - D * m) by ring. exact Hnear.
  - (* a multiple of [2^e] with [e] negative: the numerator is scaled *)
    pose proof (pow2_pos (- e) ltac:(lia)) as Pe.
    set (N := n * 2 ^ (- e)) in *.
    pose proof (div_half_even_nearest N d HD) as Hnear.
    assert (0 < N) as HN by (subst N; nia).
    pose proof (div_half_even_between N d 0 (2 ^ 53) HD ltac:(lia)
                  ltac:(lia)) as [Hm0 Hm1].
    assert (e = l - 52 ->
            2 ^ 52 <= Float.div_half_even N d) as Hm2.
    { intros E. specialize (L52 E).
      now destruct (div_half_even_between N d (2 ^ 52) (2 ^ 53) HD
                      ltac:(lia) ltac:(lia)). }
    set (m := Float.div_half_even N d) in *. clearbody m.
    destruct (Z.eqb_spec m (2 ^ 53)) as [Em|Em].
    + subst m. destruct (Z.ltb_spec 971 (e + 1)) as [Hov|Hov]; [lia|].
      split; [reflexivity|]. split; [lia|].
      rewrite Z2N.id by lia. split; [lia|]. split; [left; lia|].
      rewrite (Z.max_r 0 (- (e + 1))) by lia.
      rewrite (Z.max_l 0 (e + 1)) by lia.
      change (2 ^ 0) with 1.
      assert (N = 2 * (n * 2 ^ (- (e + 1)))) as EN.
      { subst N. replace (- e) with (Z.succ (- (e + 1))) by lia.
        rewrite Z.pow_succ_r by lia. ring. }
      lia.
    + destruct (Z.ltb_spec 971 e) as [Hov|Hov]; [lia|].
      split; [reflexivity|]. split; [lia|].
      rewrite Z2N.id by lia. split; [lia|]. split.
      * destruct He as [He|[_ He]]; [left; auto|now right].
      * rewrite Z.max_r by lia. rewrite Z.max_l by lia.
        change (2 ^ 0) with 1. fold N.
        replace (N - m * (d * 1)) with (N - d * m) by ring.
        replace (d * 1) with d by ring. exact Hnear.
Qed.

(** The chart value of an amount: the binary64 number in normal form that
    is nearest to [c / 100] (within the precision of the decimal context:
    no sum of stored amounts is larger). *)
Lemma float_of_cents_nearest (c : Z) :
  0 < Z.abs c < PREC_BOUND ->
  exists m e,
    float_of_cents c = Float.Num (c <? 0) m e
    /\ 2 ^ 52 <= Z.of_N m < 2 ^ 53
    /\ 2 * Z.abs (Z.abs c * 2 ^ Z.max 0 (- e)
                  - Z.of_N m * (100 * 2 ^ Z.max 0 e))
       <= 100 * 2 ^ Z.max 0 e.
Proof.
  intros [Hpos Hlt]. unfold float_of_cents, Float.of_finite.
  destruct (N.eqb_spec (Z.abs_N c) 0) as [E|_]; [lia|].
  assert (1 <= Dec.ndigits (Z.abs_N c) <= 28) as [Hd1 Hd2].
  { unfold Dec.ndigits. split; [apply ndigits_pos|].
    apply ndigits_fuel_le; [lia|].
    change (Z.to_N 28) with 28%N. unfold PREC_BOUND in Hlt.
    change (10 ^ Dec.prec) with (10 ^ 28) in Hlt.
    apply N2Z.inj_lt. rewrite N2Z.inj_abs_N, N2Z.inj_pow. exact Hlt. }
  cbv zeta.
  destruct (Z.ltb_spec 310 (-2 + Dec.ndigits (Z.abs_N c))); [lia|].
  destruct (Z.ltb_spec (-2 + Dec.ndigits (Z.abs_N c)) (-323)); [lia|].
  change (0 <=? -2) with false. cbv iota.
  rewrite N2Z.inj_abs_N. change (10 ^ (- -2)) with 100.
  pose proof (of_ratio_nearest (c <? 0) (Z.abs c) 100 Hpos ltac:(lia)) as R.
  unfold PREC_BOUND in Hlt. change (10 ^ Dec.prec) with (10 ^ 28) in Hlt.
  destruct (Float.of_ratio (c <? 0) (Z.abs c) 100) as [|s|s m e];
    [destruct R| |].
  - destruct R as [_ R]. exfalso.
    assert (10 ^ 28 < (2 ^ 1024 - 2 ^ 970) * 100) by reflexivity. lia.
  - destruct R as [-> [[He1 He2] [Hm [Hn Herr]]]].
    exists m, e. split; [reflexivity|]. split; [|exact Herr].
    split; [|exact Hm]. destruct Hn as [Hn| ->]; [exact Hn|].
    exfalso. unfold Float.MIN_EXP in Herr.
    change (Z.max 0 (- -1074)) with 1074 in Herr.
    change (Z.max 0 (-1074)) with 0 in Herr.
    change (2 ^ 0) with 1 in Herr.
    assert (2 ^ 53 * 100 + 100 < 2 ^ 1074) by reflexivity.
    assert (2 ^ 1074 <= Z.abs c * 2 ^ 1074) by nia. lia.
Qed.

(** [float] of [0.1], of [1E+23], of the largest number that does not
    overflow and of the next one, of an odd number above [2^53], and of
    numbers about the smallest positive one. *)
Example float_samples :
  Float.of_decimal (Finite false 1 (-1))
  = Ok (Float.Num false 7205759403792794 (-56))
  /\ Float.of_decimal (Finite false 1 23)
     = Ok (Float.Num false 5960464477539062 24)
  /\ Float.of_decimal (Finite false 17976931348623157 292)
     = Ok (Float.Num false 9007199254740991 971)
  /\ Float.of_decimal (Finite false 17976931348623159 292)
     = Ok (Float.Inf false)
  /\ Float.of_decimal (Finite false 9007199254740993 0)
     = Ok (Float.Num false 4503599627370496 1)
  /\ Float.of_decimal (Finite true 5 (-324))
     = Ok (Float.Num true 1 (-1074))
  /\ Float.of_decimal (Finite false 2 (-324))
     = Ok (Float.Num false 0 (-1074))
  /\ Float.of_decimal (NaN false true 0) = Raise ValueError.
Proof. repeat split; vm_compute; reflexivity. Qed.

(** The float of a total, as the chart receives it. *)
Lemma float_of_total (db : Db) (uid : Z) (ty : string)
                     (start_dt : datetime) :
  Float.of_decimal (Dec.or_else (total_of db uid ty start_dt) (Dec.of_int 0))
  = Ok (float_of_cents (total_cents db uid ty start_dt)).
Proof.
  unfold total_of, total_cents, coalesce_sum, sql_sum.
  fold (typed_in_window uid ty start_dt).
  destruct (map Transaction.amount _) as [|a l]; [reflexivity|].
  set (s := fold_right Z.add 0 (a :: l)).
  unfold Dec.or_else, Numeric.load, Dec.truth.
  destruct (N.eqb_spec (Z.abs_N s) 0) as [E|N]; cbn [negb].
  - assert (s = 0) as -> by lia. reflexivity.
  - reflexivity.
Qed.

Lemma nth_error_paired (rows : list (string * Numeric.t)) (f : Z -> Float.t)
                       (i : nat) (name : string) :
  nth_error (map fst rows) i = Some name ->
  exists v, In (name, v) rows
            /\ nth_error (map (fun row => f (snd row)) rows) i = Some (f v).
Proof.
  revert i. induction rows as [|[k v] rows IH]; intros [|i];
    cbn [map nth_error fst snd]; try discriminate.
  - intros [= <-]. exists v. split; [now left|reflexivity].
  - intros H. destruct (IH i H) as [v' [Hin E]].
    exists v'. split; [now right|exact E].
Qed.

Lemma sum_of_spent (rows : list (string * Numeric.t)) (f : string -> Z) :
  (forall name v, In (name, v) rows -> v = f name) ->
  fold_right Z.add 0 (map f (map fst rows)) = sum_of rows.
Proof.
  unfold sum_of. induction rows as [|[k v] rows IH];
    cbn [map fold_right fst snd]; intros H; [reflexivity|].
  rewrite IH by (intros n w Hin; apply H; now right).
  rewrite <- (H k v (or_introl eq_refl)). reflexivity.
Qed.

(** X15: on the rendered dashboard, the labels of the expense chart list
    each category name once, and the names listed are exactly those of the
    categories of the user's expenses in the window; there are as many values
    as labels, and the value at the place of a name is the float nearest to
    the sum of the user's expenses in the window whose category has that
    name; when every transaction points to an existing category, these sums
    add up to the total expense of the window.  The second chart is labelled
    with income and expenses and holds the floats of the two totals.
    Nothing is stated about the order of the names. *)
Theorem expense_breakdown_by_name
    (db : Db) (uid : Z) (u : User.t) (ib : Numeric.t)
    (args : fields) (d start : date) :
  current_user db uid = Some u ->
  User.initial_balance u = Some ib ->
  period_start (get_default args "period" "month") d = Ok start ->
  let start_dt := Date.midnight start in
  let expenses := expenses_in_window db uid start_dt in
  exists ctx,
    dashboard db uid args d = (db, Render (DashboardPage ctx))
    /\ NoDup (expense_labels ctx)
    /\ (forall name, In name (expense_labels ctx) <->
                     exists t, In t expenses
                               /\ category_name db t = Some name)
    /\ List.length (expense_values ctx) = List.length (expense_labels ctx)
    /\ (forall i name,
          nth_error (expense_labels ctx) i = Some name ->
          nth_error (expense_values ctx) i
          = Some (float_of_cents (spent_on db uid start_dt name)))
    /\ (references_ok db = true ->
        fold_right Z.add 0
          (map (spent_on db uid start_dt) (expense_labels ctx))
        = total_cents db uid "expense" start_dt)
    /\ income_vs_expense_labels ctx = ["Доходы"; "Расходы"]%string
    /\ income_vs_expense_values ctx
       = [float_of_cents (total_cents db uid "income" start_dt);
          float_of_cents (total_cents db uid "expense" start_dt)].
Proof.
  intros Hu Hb Hs start_dt expenses.
  set (ti := Dec.or_else (total_of db uid "income" start_dt) (Dec.of_int 0)).
  set (te := Dec.or_else (total_of db uid "expense" start_dt) (Dec.of_int 0)).
  assert (finite (Dec.or_else (Numeric.load ib) (Finite false 0 0))) as F0.
  { apply or_else_finite; [apply load_finite|apply (of_int_finite 0)]. }
  assert (finite ti) as F1.
  { apply or_else_finite; [apply coalesce_sum_finite|apply of_int_finite]. }
  assert (finite te) as F2.
  { apply or_else_finite; [apply coalesce_sum_finite|apply of_int_finite]. }
  destruct (add_finite _ _ F0 F1) as [r1 [E1 Fr1]].
  destruct (sub_finite _ _ Fr1 F2) as [r2 [E2 _]].
  set (rows := expense_breakdown db uid start_dt).
  destruct (chart_values_finite rows ti te F1 F2) as [fi [fe [Ei [Ee E3]]]].
  unfold ti in Ei. unfold te in Ee.
  rewrite float_of_total in Ei, Ee. injection Ei as <-. injection Ee as <-.
  destruct (breakdown_rows db uid start_dt) as [H1 [H2 [H3 H4]]].
  fold rows in H1, H2, H3, H4. fold expenses in H3.
  unfold dashboard. rewrite Hu, Hb, Hs. fold start_dt. fold ti te rows.
  unfold bind. rewrite E1, E2, E3.
  eexists. split; [reflexivity|].
  cbn [expense_labels expense_values income_vs_expense_labels
       income_vs_expense_values].
  split; [exact H1|]. split; [exact H3|].
  split; [now rewrite !length_map|].
  split; [|split; [|split; reflexivity]].
  - intros i name Hi.
    destruct (nth_error_paired rows float_of_cents i name Hi)
      as [v [Hin E]].
    rewrite E. now rewrite (H2 name v Hin).
  - intros Href. rewrite (sum_of_spent rows _ H2). now apply H4.
Qed.

Lemma later_window_smaller_total_witness :
  (Date.geb (Date.midnight (mkdate 2026 11 2))
            (Date.midnight (mkdate 2026 11 1)) = true ->
   total_cents Sample.busy 1 "expense" (Date.midnight (mkdate 2026 11 2))
   <= total_cents Sample.busy 1 "expense" (Date.midnight (mkdate 2026 11 1)))
  /\ (1 <= month Sample.today ->
      forall sm sy, period_start "month" Sample.today = Ok sm ->
                    period_start "year" Sample.today = Ok sy ->
      total_cents Sample.busy 1 "expense" (Date.midnight sm)
      <= total_cents Sample.busy 1 "expense" (Date.midnight sy)).
Proof.
  apply (later_window_smaller_total Sample.busy 1 "expense"
           (Date.midnight (mkdate 2026 11 1))
           (Date.midnight (mkdate 2026 11 2)) Sample.today).
  vm_compute. reflexivity.
Defined.

Lemma expense_breakdown_by_name_witness :
  let start_dt := Date.midnight (mkdate 2026 11 1) in
  exists ctx,
    dashboard Sample.busy 1 [] Sample.today
    = (Sample.busy, Render (DashboardPage ctx))
    /\ NoDup (expense_labels ctx)
    /\ (forall name, In name (expense_labels ctx) <->
                     exists t, In t (expenses_in_window Sample.busy 1 start_dt)
                               /\ category_name Sample.busy t = Some name)
    /\ List.length (expense_values ctx) = List.length (expense_labels ctx)
    /\ (forall i name,
          nth_error (expense_labels ctx) i = Some name ->
          nth_error (expense_values ctx) i
          = Some (float_of_cents (spent_on Sample.busy 1 start_dt name)))
    /\ (references_ok Sample.busy = true ->
        fold_right Z.add 0
          (map (spent_on Sample.busy 1 start_dt) (expense_labels ctx))
        = total_cents Sample.busy 1 "expense" start_dt)
    /\ income_vs_expense_labels ctx = ["Доходы"; "Расходы"]%string
    /\ income_vs_expense_values ctx
       = [float_of_cents (total_cents Sample.busy 1 "income" start_dt);
          float_of_cents (total_cents Sample.busy 1 "expense" start_dt)].
Proof.
  apply (expense_breakdown_by_name Sample.busy 1 Sample.anna' 100000 []
           Sample.today (mkdate 2026 11 1)); reflexivity.
Defined.

(** ** Adding, editing and deleting a transaction *)

Lemma db_wf_ids (db : Db) (t : Transaction.t) :
  db_wf db = true -> In t (transactions db) ->
  1 <= Transaction.id t <= transactions_id_seq db.
Proof.
  unfold db_wf. rewrite !andb_true_iff.
  intros [[[[[[[_ _] _] Hids] _] _] _] _] Hin.
  rewrite forallb_forall in Hids. specialize (Hids t Hin).
  apply andb_prop in Hids. destruct Hids as [A B].
  apply Z.leb_le in A. apply Z.leb_le in B. lia.
Qed.

Lemma sum_app (l m : list Z) :
  fold_right Z.add 0 (l ++ m) = fold_right Z.add 0 l + fold_right Z.add 0 m.
Proof. induction l as [|x l IH]; cbn [app fold_right]; lia. Qed.

Lemma find_transaction_fresh (db : Db) (tx_id uid : Z) :
  db_wf db = true -> transactions_id_seq db < tx_id ->
  find_transaction db tx_id uid = None.
Proof.
  intros Hwf Hlt. apply find_transaction_none. intros t Ht E.
  pose proof (db_wf_ids db t Hwf Ht). lia.
Qed.

Lemma add_transaction_succeeds (db : Db) (uid : Z) (u : User.t)
                               (form : fields) (utcnow : datetime)
                               (amount : Decimal) (c : Numeric.t) (cid : Z)
                               (cat : Category.t) :
  current_user db uid = Some u ->
  positive_amount (get form "amount") = Ok amount ->
  Numeric.store amount = Some c ->
  Int.of_field (get form "category_id") = Ok cid ->
  find_category db cid uid (get_default form "type" "expense") = Some cat ->
  transactions_id_seq db + 1 <= INT_MAX ->
  add_transaction db uid form utcnow
  = (mkDb (users db) (categories db)
          (transactions db
           ++ [Transaction.mk (transactions_id_seq db + 1) uid cid c
                 (get_default form "type" "expense") (description_of form)
                 (date_of form utcnow)])
          (transactions_id_seq db + 1),
     Redirect flash_added EpDashboard).
Proof.
  intros Hu Hp Hs Hc Hcat Hmax. unfold add_transaction.
  pose proof (current_user_spec db uid u Hu) as [_ Hid].
  rewrite Hu, Hp, Hc, Hid, Hcat, Hs.
  apply find_category_some in Hcat. destruct Hcat as [_ [-> _]].
  destruct (Z.leb_spec (transactions_id_seq db + 1) INT_MAX); [|lia].
  reflexivity.
Qed.

(** X16: on a store that satisfies its constraints, an add request with a
    positive amount that the store accepts and a category of the user and of
    the submitted type succeeds: the new row gets an id that was not in use, is
    found under that id with the rounded amount, the type, the category, the
    description and the date of the form, no other lookup changes, and the
    user's total of that type grows by the stored amount in exactly the
    windows that contain the date. *)
Theorem add_transaction_adds_row (db : Db) (uid : Z) (u : User.t)
                                 (form : fields) (utcnow : datetime)
                                 (amount : Decimal) (c : Numeric.t) (cid : Z)
                                 (cat : Category.t) :
  db_wf db = true ->
  current_user db uid = Some u ->
  positive_amount (get form "amount") = Ok amount ->
  Numeric.store amount = Some c ->
  Int.of_field (get form "category_id") = Ok cid ->
  find_category db cid uid (get_default form "type" "expense") = Some cat ->
  transactions_id_seq db + 1 <= INT_MAX ->
  let new_id := transactions_id_seq db + 1 in
  let ty := get_default form "type" "expense" in
  let tx := Transaction.mk new_id uid cid c ty (description_of form)
              (date_of form utcnow) in
  exists db',
    add_transaction db uid form utcnow
    = (db', Redirect flash_added EpDashboard)
    /\ find_transaction db new_id uid = None
    /\ find_transaction db' new_id uid = Some tx
    /\ (forall tx_id who, tx_id <> new_id ->
          find_transaction db' tx_id who = find_transaction db tx_id who)
    /\ (forall ty' start_dt,
          total_cents db' uid ty' start_dt
          = total_cents db uid ty' start_dt
            + (if String.eqb ty ty'
                  && Date.geb (date_of form utcnow) start_dt
               then c else 0)).
Proof.
  intros Hwf Hu Hp Hs Hc Hcat Hmax new_id ty tx.
  eexists. split; [eapply add_transaction_succeeds; eauto|].
  assert (find_transaction db new_id uid = None) as Hfresh.
  { apply find_transaction_fresh; auto. subst new_id. lia. }
  split; [exact Hfresh|]. split; [|split].
  - unfold find_transaction in *. cbn [transactions].
    rewrite find_app_none by exact Hfresh.
    cbn [find Transaction.id Transaction.user_id].
    now rewrite !Z.eqb_refl.
  - intros tx_id who Hne. unfold find_transaction. cbn [transactions].
    destruct (find _ (transactions db)) as [t|] eqn:E.
    + now apply find_app_some.
    + rewrite find_app_none by exact E.
      cbn [find Transaction.id Transaction.user_id].
      fold new_id. destruct (Z.eqb_spec new_id tx_id); [congruence|].
      reflexivity.
  - intros ty' start_dt. unfold total_cents. cbn [transactions].
    rewrite filter_app, map_app, sum_app. f_equal.
    cbn [filter Transaction.user_id Transaction.type Transaction.created_at].
    rewrite Z.eqb_refl. cbn [andb]. fold ty.
    destruct (String.eqb ty ty' && Date.geb (date_of form utcnow) start_dt);
      cbn; lia.
Qed.

(** X17: on a store that satisfies its constraints, deleting the
    transaction that a successful add request has just created gives back
    the users, categories and transactions as they were; only the serial has
    moved on, so the id is not handed out again. *)
Theorem add_then_delete (db : Db) (uid : Z) (u : User.t)
                        (form : fields) (utcnow : datetime)
                        (amount : Decimal) (c : Numeric.t) (cid : Z)
                        (cat : Category.t) :
  db_wf db = true ->
  current_user db uid = Some u ->
  positive_amount (get form "amount") = Ok amount ->
  Numeric.store amount = Some c ->
  Int.of_field (get form "category_id") = Ok cid ->
  find_category db cid uid (get_default form "type" "expense") = Some cat ->
  transactions_id_seq db + 1 <= INT_MAX ->
  let new_id := transactions_id_seq db + 1 in
  delete_transaction (fst (add_transaction db uid form utcnow)) uid new_id
  = (mkDb (users db) (categories db) (transactions db) new_id,
     Redirect (Some ("Операция удалена.", "info"))%string EpDashboard).
Proof.
  intros Hwf Hu Hp Hs Hc Hcat Hmax new_id.
  rewrite (add_transaction_succeeds db uid u form utcnow amount c cid cat)
    by assumption.
  cbn [fst]. unfold delete_transaction.
  assert (current_user
            (mkDb (users db) (categories db)
               (transactions db
                ++ [Transaction.mk new_id uid cid c
                      (get_default form "type" "expense")
                      (description_of form) (date_of form utcnow)])
               new_id) uid = Some u) as Hu' by exact Hu.
  fold new_id. rewrite Hu'.
  pose proof (current_user_spec db uid u Hu) as [_ Hid]. rewrite Hid.
  assert (find_transaction db new_id uid = None) as Hfresh.
  { apply find_transaction_fresh; auto. subst new_id. lia. }
  unfold find_transaction in *. cbn [transactions].
  rewrite find_app_none by exact Hfresh.
  cbn [find Transaction.id Transaction.user_id]. rewrite !Z.eqb_refl.
  cbn [andb]. unfold remove_transaction.
  cbn [users categories transactions transactions_id_seq Transaction.id].
  rewrite filter_app. cbn [filter Transaction.id]. rewrite Z.eqb_refl.
  cbn [negb]. rewrite app_nil_r. rewrite filter_all; [reflexivity|].
  intros t Ht. apply negb_true_iff, Z.eqb_neq.
  pose proof (db_wf_ids db t Hwf Ht). subst new_id. lia.
Qed.

Lemma find_filter_keeps {A : Type} (p g : A -> bool) (l : list A) :
  (forall x, p x = true -> g x = true) ->
  find p (filter g l) = find p l.
Proof.
  intros H. induction l as [|x l IH]; cbn [filter find]; auto.
  destruct (p x) eqn:Ep.
  - rewrite (H x Ep). cbn [find]. now rewrite Ep.
  - destruct (g x); cbn [find]; [now rewrite Ep|exact IH].
Qed.

Lemma find_map_other (db : Db) (tx' : Transaction.t) (tx_id who : Z) :
  tx_id <> Transaction.id tx' ->
  find_transaction (update_transaction db tx') tx_id who
  = find_transaction db tx_id who.
Proof.
  intros Hne. unfold find_transaction, update_transaction.
  cbn [transactions].
  set (p := fun t => (Transaction.id t =? tx_id)
                     && (Transaction.user_id t =? who)).
  assert (find p (filter (fun t => negb (Transaction.id t
                                          =? Transaction.id tx'))
                         (transactions db))
          = find p (transactions db)) as E.
  { apply find_filter_keeps. intros x Hx. unfold p in Hx.
    apply andb_prop in Hx. destruct Hx as [Hx _]. apply Z.eqb_eq in Hx.
    apply negb_true_iff, Z.eqb_neq. congruence. }
  destruct (find p (transactions db)) as [t|] eqn:F.
  - now apply find_app_some.
  - rewrite find_app_none by exact E. cbn [find]. unfold p.
    destruct (Z.eqb_spec (Transaction.id tx') tx_id); [congruence|].
    reflexivity.
Qed.

Lemma find_map_same (db : Db) (tx' : Transaction.t) :
  find_transaction (update_transaction db tx') (Transaction.id tx')
                   (Transaction.user_id tx') = Some tx'.
Proof.
  unfold find_transaction, update_transaction. cbn [transactions].
  rewrite find_app_none.
  - cbn [find]. now rewrite !Z.eqb_refl.
  - destruct (find _ _) as [t|] eqn:F; [|reflexivity].
    apply find_some in F. destruct F as [F1 F2].
    apply filter_In in F1. destruct F1 as [_ F1].
    apply andb_prop in F2. destruct F2 as [F2 _].
    rewrite F2 in F1. discriminate.
Qed.

Lemma length_remove (l : list Transaction.t) (old : Transaction.t) :
  NoDup (map Transaction.id l) -> In old l ->
  List.length l
  = S (List.length
         (filter (fun t => negb (Transaction.id t =? Transaction.id old)) l)).
Proof.
  induction l as [|t l IH]; [intros _ []|].
  cbn [map]. intros Hnd Hin. inversion Hnd as [|? ? Hnotin Hnd']; subst.
  cbn [filter List.length].
  destruct (Z.eqb_spec (Transaction.id t) (Transaction.id old)) as [E|N];
    cbn [negb].
  - f_equal. rewrite filter_all; [reflexivity|].
    intros x Hx. apply negb_true_iff, Z.eqb_neq. intros E'.
    apply Hnotin. rewrite E, <- E'. now apply in_map.
  - cbn [List.length]. f_equal. apply IH; auto.
    destruct Hin as [->|Hin]; [congruence|auto].
Qed.

(** X18: on a store whose transaction ids are unique, a successful edit
    replaces the row of the given id by one with the same id and owner and
    the submitted amount (rounded), type, category, description and date, the
    date falling back to the one the row had.  The rows of the table are then
    the new row and the rows of every other id, as many as before (in which
    order an unordered read returns them is not stated: the server writes
    the new version of the row elsewhere); every other lookup, the users,
    the categories and the serial are unchanged. *)
Theorem edit_transaction_updates_row (db : Db) (uid tx_id : Z) (u : User.t)
                                     (old : Transaction.t) (form : fields)
                                     (amount : Decimal) (c : Numeric.t)
                                     (cid : Z) (cat : Category.t) :
  NoDup (map Transaction.id (transactions db)) ->
  current_user db uid = Some u ->
  find_transaction db tx_id uid = Some old ->
  positive_amount (get form "amount") = Ok amount ->
  Numeric.store amount = Some c ->
  Int.of_field (get form "category_id") = Ok cid ->
  let ty := get_default form "type" (Transaction.type old) in
  find_category db cid uid ty = Some cat ->
  let tx := Transaction.mk tx_id uid cid c ty (description_of form)
              (date_of form (Transaction.created_at old)) in
  exists db',
    edit_transaction db uid tx_id POST form
    = (db', Redirect flash_updated EpDashboard)
    /\ find_transaction db' tx_id uid = Some tx
    /\ (forall other who, other <> tx_id ->
          find_transaction db' other who = find_transaction db other who)
    /\ (forall t, In t (transactions db') <->
                  t = tx \/ (In t (transactions db)
                             /\ Transaction.id t <> tx_id))
    /\ List.length (transactions db') = List.length (transactions db)
    /\ users db' = users db /\ categories db' = categories db
    /\ transactions_id_seq db' = transactions_id_seq db.
Proof.
  intros Hnd Hu Hold Hp Hs Hc ty Hcat tx.
  pose proof (current_user_spec db uid u Hu) as [_ Hid].
  pose proof (find_transaction_some db tx_id uid old Hold)
    as [Hin [Hoid Hown]].
  pose proof (find_category_some db cid uid ty cat Hcat) as [_ [Hcid _]].
  exists (update_transaction db tx). split.
  - unfold edit_transaction. rewrite Hu, Hid, Hold, Hp, Hc. fold ty.
    rewrite Hcat, Hs, Hoid, Hown, Hcid. reflexivity.
  - split; [|split; [|split; [|split]]].
    + exact (find_map_same db tx).
    + intros other who Hne. now apply find_map_other.
    + intros t. unfold update_transaction. subst tx.
      cbn [transactions Transaction.id].
      rewrite in_app_iff, filter_In, negb_true_iff, Z.eqb_neq. cbn [In].
      split.
      * intros [H|[H|[]]]; [now right|now left].
      * intros [H|H]; [right; now left|now left].
    + unfold update_transaction. subst tx.
      cbn [transactions Transaction.id].
      rewrite length_app. cbn [List.length].
      rewrite (length_remove (transactions db) old Hnd Hin), Hoid. lia.
    + auto.
Qed.

Lemma remove_keeps (db : Db) (old t : Transaction.t) :
  db_wf db = true -> In old (transactions db) ->
  In t (transactions (remove_transaction db (Transaction.id old)))
  <-> In t (transactions db) /\ t <> old.
Proof.
  intros Hwf Hold. unfold remove_transaction. cbn [transactions].
  rewrite filter_In, negb_true_iff, Z.eqb_neq. split.
  - intros [Hin Hne]. split; auto. congruence.
  - intros [Hin Hne]. split; auto. intros E. apply Hne.
    now apply (same_id_same_row db).
Qed.

(** X19: on a store that satisfies its constraints, deleting one's own
    transaction removes exactly that row, so that one row less remains, and
    the id is gone: deleting or editing it again answers not found and changes
    nothing. *)
Theorem delete_transaction_removes_row (db : Db) (uid tx_id : Z) (u : User.t)
                                       (old : Transaction.t) :
  db_wf db = true ->
  current_user db uid = Some u ->
  find_transaction db tx_id uid = Some old ->
  exists db',
    delete_transaction db uid tx_id
    = (db', Redirect (Some ("Операция удалена.", "info"))%string EpDashboard)
    /\ (forall t, In t (transactions db') <->
                  In t (transactions db) /\ t <> old)
    /\ List.length (transactions db) = S (List.length (transactions db'))
    /\ delete_transaction db' uid tx_id = (db', NotFound)
    /\ (forall method form,
          edit_transaction db' uid tx_id method form = (db', NotFound)).
Proof.
  intros Hwf Hu Hold.
  pose proof (current_user_spec db uid u Hu) as [_ Hid].
  pose proof (find_transaction_some db tx_id uid old Hold)
    as [Hin [Hoid Hown]].
  exists (remove_transaction db (Transaction.id old)). split.
  - unfold delete_transaction. now rewrite Hu, Hid, Hold.
  - split; [intros t; now apply remove_keeps|]. split.
    + unfold remove_transaction. cbn [transactions].
      apply length_remove; auto. now apply db_wf_transactions.
    + assert (current_user (remove_transaction db (Transaction.id old)) uid
              = Some u) as Hu' by exact Hu.
      assert (find_transaction (remove_transaction db (Transaction.id old))
                               tx_id uid = None) as Hnone.
      { apply find_transaction_none. intros t Ht E.
        apply remove_keeps in Ht; auto. destruct Ht as [Ht Hne].
        exfalso. apply Hne. apply (same_id_same_row db); auto. congruence. }
      split.
      * unfold delete_transaction. now rewrite Hu', Hid, Hnone.
      * intros method form. unfold edit_transaction.
        now rewrite Hu', Hid, Hnone.
Qed.

Lemma of_field_raises (s : option string) (e : exn) :
  Int.of_field s = Raise e -> e = TypeError \/ e = ValueError.
Proof.
  unfold Int.of_field. destruct s as [s|]; [|intros [= <-]; now left].
  destruct (Dec.parse_sign _) as [neg body].
  destruct (Int.digits body 0 false).
  - destruct (_ <? _); [|discriminate]. intros [= <-]. now right.
  - intros [= <-]. now right.
Qed.

(** X20: with a valid amount, a category field that is missing or is not an
    integer makes add and edit answer that no category was chosen, redirect to
    the dashboard or back to the edit form, and leave the store unchanged. *)
Theorem category_not_chosen (db : Db) (uid : Z) (u : User.t) (form : fields)
                            (amount : Decimal) (e : exn) :
  current_user db uid = Some u ->
  positive_amount (get form "amount") = Ok amount ->
  Int.of_field (get form "category_id") = Raise e ->
  (forall utcnow,
      add_transaction db uid form utcnow
      = (db, Redirect (Some ("Категория не выбрана.", "error"))%string
                      EpDashboard))
  /\ (forall tx_id old,
        find_transaction db tx_id uid = Some old ->
        edit_transaction db uid tx_id POST form
        = (db, Redirect (Some ("Категория не выбрана.", "error"))%string
                        (EpEditTransaction tx_id))).
Proof.
  intros Hu Hp He.
  pose proof (current_user_spec db uid u Hu) as [_ Hid].
  split.
  - intros utcnow. unfold add_transaction. rewrite Hu, Hp, He.
    destruct (of_field_raises _ _ He) as [->| ->]; reflexivity.
  - intros tx_id old Hold.
    pose proof (find_transaction_some db tx_id uid old Hold)
      as [_ [Hoid _]].
    unfold edit_transaction. rewrite Hu, Hid, Hold, Hp, He, Hoid.
    destruct (of_field_raises _ _ He) as [->| ->]; reflexivity.
Qed.

(** X21: on a store that satisfies its constraints and whose references are
    valid, the edit form of one's own transaction is rendered with that
    transaction, the date part of its timestamp and a list of categories, all
    of them the user's own and of type expense exactly when the transaction
    is an expense; the category of an expense or income transaction is among
    them.  The store is unchanged. *)
Theorem edit_form_shows_transaction (db : Db) (uid tx_id : Z) (u : User.t)
                                    (tx : Transaction.t) (form : fields) :
  db_wf db = true -> references_ok db = true ->
  current_user db uid = Some u ->
  find_transaction db tx_id uid = Some tx ->
  exists cats,
    edit_transaction db uid tx_id GET form
    = (db, Render (EditTransactionPage tx cats
                     (dt_date (Transaction.created_at tx))))
    /\ (forall c, In c cats ->
          In c (categories db) /\ Category.user_id c = uid
          /\ (Category.type c = "expense"%string
              <-> Transaction.type tx = "expense"%string))
    /\ (Transaction.type tx = "expense"%string
        \/ Transaction.type tx = "income"%string ->
        exists c, In c cats
                  /\ Category.id c = Transaction.category_id tx
                  /\ Category.type c = Transaction.type tx).
Proof.
  intros Hwf Href Hu Htx.
  pose proof (current_user_spec db uid u Hu) as [_ Hid].
  pose proof (find_transaction_some db tx_id uid tx Htx)
    as [Hin [Hoid Hown]].
  apply references_ok_spec in Href. destruct Href as [Href _].
  destruct (Href tx Hin) as [_ Hoc]. apply owned_category_spec in Hoc.
  destruct Hoc as [cat [Hcin [Hcid [Hcown Hcty]]]].
  assert (find (fun c => Category.id c =? Transaction.category_id tx)
               (categories db) = Some cat) as Hfind.
  { destruct (find _ (categories db)) as [c'|] eqn:E.
    - apply find_some in E. destruct E as [Hc' E]. apply Z.eqb_eq in E.
      f_equal.
      apply (NoDup_map_id_eq Category.id (categories db)); auto;
        [now apply db_wf_categories|congruence].
    - pose proof (find_none _ _ E cat Hcin) as N. cbn in N.
      apply Z.eqb_neq in N. contradiction. }
  unfold edit_transaction. rewrite Hu, Hid, Htx, Hfind.
  eexists. split; [reflexivity|].
  unfold categories_of. rewrite Hcty.
  destruct (String.eqb_spec (Transaction.type tx) "expense") as [E|N].
  - split.
    + intros c Hc. apply filter_In in Hc. destruct Hc as [Hc H].
      apply andb_prop in H. destruct H as [A B].
      apply Z.eqb_eq in A. apply String.eqb_eq in B. tauto.
    + intros _. exists cat. split; [|split; auto].
      apply filter_In. split; auto.
      rewrite Hcown, Hown, Z.eqb_refl, Hcty, E. reflexivity.
  - split.
    + intros c Hc. apply filter_In in Hc. destruct Hc as [Hc H].
      apply andb_prop in H. destruct H as [A B].
      apply Z.eqb_eq in A. apply String.eqb_eq in B.
      split; auto. split; auto. rewrite B. split; [discriminate|tauto].
    + intros [E|E]; [contradiction|]. exists cat. split; [|split; auto].
      apply filter_In. split; auto.
      rewrite Hcown, Hown, Z.eqb_refl, Hcty, E. reflexivity.
Qed.

Lemma add_transaction_adds_row_witness :
  let form :=
    [("type", "expense"); ("amount", "200.00"); ("category_id", "1");
     ("description", "lunch"); ("date", "2026-11-02")]%string in
  let tx := Transaction.mk 1 1 1 20000 "expense" (Some "lunch"%string)
              (Date.midnight (mkdate 2026 11 2)) in
  exists db',
    add_transaction Sample.with_balance 1 form Sample.now
    = (db', Redirect flash_added EpDashboard)
    /\ find_transaction Sample.with_balance 1 1 = None
    /\ find_transaction db' 1 1 = Some tx
    /\ (forall tx_id who, tx_id <> 1 ->
          find_transaction db' tx_id who
          = find_transaction Sample.with_balance tx_id who)
    /\ (forall ty' start_dt,
          total_cents db' 1 ty' start_dt
          = total_cents Sample.with_balance 1 ty' start_dt
            + (if String.eqb "expense" ty'
                  && Date.geb (Date.midnight (mkdate 2026 11 2)) start_dt
               then 20000 else 0)).
Proof.
  apply (add_transaction_adds_row Sample.with_balance 1 Sample.anna'
           [("type", "expense"); ("amount", "200.00"); ("category_id", "1");
            ("description", "lunch"); ("date", "2026-11-02")]%string
           Sample.now (Finite false 20000 (-2)) 20000 1
           (Category.mk 1 "Еда" "expense" 1));
    vm_compute; solve [reflexivity | discriminate].
Defined.

Lemma add_then_delete_witness :
  delete_transaction
    (fst (add_transaction Sample.with_balance 1
            [("type", "expense"); ("amount", "200.00");
             ("category_id", "1")]%string Sample.now)) 1 1
  = (mkDb (users Sample.with_balance) (categories Sample.with_balance)
          (transactions Sample.with_balance) 1,
     Redirect (Some ("Операция удалена.", "info"))%string EpDashboard).
Proof.
  apply (add_then_delete Sample.with_balance 1 Sample.anna'
           [("type", "expense"); ("amount", "200.00");
            ("category_id", "1")]%string
           Sample.now (Finite false 20000 (-2)) 20000 1
           (Category.mk 1 "Еда" "expense" 1));
    vm_compute; solve [reflexivity | discriminate].
Defined.

Lemma edit_transaction_updates_row_witness :
  let form := [("amount", "13,00"); ("category_id", "3")]%string in
  let tx := Transaction.mk 1 1 3 1300 "expense" None
              (Date.midnight (mkdate 2026 11 2)) in
  exists db',
    edit_transaction Sample.after_expense 1 1 POST form
    = (db', Redirect flash_updated EpDashboard)
    /\ find_transaction db' 1 1 = Some tx
    /\ (forall other who, other <> 1 ->
          find_transaction db' other who
          = find_transaction Sample.after_expense other who)
    /\ (forall t, In t (transactions db') <->
                  t = tx \/ (In t (transactions Sample.after_expense)
                             /\ Transaction.id t <> 1))
    /\ List.length (transactions db')
       = List.length (transactions Sample.after_expense)
    /\ users db' = users Sample.after_expense
    /\ categories db' = categories Sample.after_expense
    /\ transactions_id_seq db' = transactions_id_seq Sample.after_expense.
Proof.
  apply (edit_transaction_updates_row Sample.after_expense 1 1 Sample.anna'
           (Transaction.mk 1 1 1 20000 "expense" (Some "lunch"%string)
              (Date.midnight (mkdate 2026 11 2)))
           [("amount", "13,00"); ("category_id", "3")]%string
           (Finite false 1300 (-2)) 1300 3
           (Category.mk 3 "Развлечения" "expense" 1));
    try (vm_compute; reflexivity).
  vm_compute. repeat constructor. intros [].
Defined.

Lemma delete_transaction_removes_row_witness :
  let old := Transaction.mk 1 1 1 20000 "expense" (Some "lunch"%string)
               (Date.midnight (mkdate 2026 11 2)) in
  exists db',
    delete_transaction Sample.after_expense 1 1
    = (db', Redirect (Some ("Операция удалена.", "info"))%string EpDashboard)
    /\ (forall t, In t (transactions db') <->
                  In t (transactions Sample.after_expense) /\ t <> old)
    /\ List.length (transactions Sample.after_expense)
       = S (List.length (transactions db'))
    /\ delete_transaction db' 1 1 = (db', NotFound)
    /\ (forall method form,
          edit_transaction db' 1 1 method form = (db', NotFound)).
Proof.
  apply (delete_transaction_removes_row Sample.after_expense 1 1 Sample.anna'
           (Transaction.mk 1 1 1 20000 "expense" (Some "lunch"%string)
              (Date.midnight (mkdate 2026 11 2))));
    vm_compute; reflexivity.
Defined.

Lemma category_not_chosen_witness :
  let form := [("amount", "5"); ("category_id", "food")]%string in
  (forall utcnow,
      add_transaction Sample.after_expense 1 form utcnow
      = (Sample.after_expense,
         Redirect (Some ("Категория не выбрана.", "error"))%string
                  EpDashboard))
  /\ (forall tx_id old,
        find_transaction Sample.after_expense tx_id 1 = Some old ->
        edit_transaction Sample.after_expense 1 tx_id POST form
        = (Sample.after_expense,
           Redirect (Some ("Категория не выбрана.", "error"))%string
                    (EpEditTransaction tx_id))).
Proof.
  apply (category_not_chosen Sample.after_expense 1 Sample.anna'
           [("amount", "5"); ("category_id", "food")]%string
           (Finite false 5 0) ValueError);
    vm_compute; reflexivity.
Defined.

(** What [int] reads of a category field: white space around the number is
    skipped (tab to carriage return, space, NEL, no-break space), the
    separators [0x1c] to [0x1f] are not, although [str.strip] removes them;
    single underscores between digits are allowed; a number of more than
    [4300] digits is refused. *)
Example category_field_samples :
  Int.of_field (Some " 12 "%string) = Ok 12
  /\ Int.of_field (Some (String (ascii_of_N 160) "3")) = Ok 3
  /\ Int.of_field (Some (String (ascii_of_N 28) "1")) = Raise ValueError
  /\ Int.of_field (Some "-0_7"%string) = Ok (-7)
  /\ Int.of_field (Some "1__2"%string) = Raise ValueError
  /\ Int.of_field (Some "1.0"%string) = Raise ValueError
  /\ Int.of_field None = Raise TypeError
  /\ (forall utcnow,
        add_transaction Sample.after_expense 1
          [("amount", "5"); ("category_id", String (ascii_of_N 28) "1")]%string
          utcnow
        = (Sample.after_expense,
           Redirect (Some ("Категория не выбрана.", "error"))%string
                    EpDashboard)).
Proof. repeat split. Qed.

Lemma edit_form_shows_transaction_witness :
  let tx := Transaction.mk 1 1 1 20000 "expense" (Some "lunch"%string)
              (Date.midnight (mkdate 2026 11 2)) in
  exists cats,
    edit_transaction Sample.after_expense 1 1 GET []
    = (Sample.after_expense,
       Render (EditTransactionPage tx cats (mkdate 2026 11 2)))
    /\ (forall c, In c cats ->
          In c (categories Sample.after_expense) /\ Category.user_id c = 1
          /\ (Category.type c = "expense"%string
              <-> Transaction.type tx = "expense"%string))
    /\ (Transaction.type tx = "expense"%string
        \/ Transaction.type tx = "income"%string ->
        exists c, In c cats
                  /\ Category.id c = Transaction.category_id tx
                  /\ Category.type c = Transaction.type tx).
Proof.
  apply (edit_form_shows_transaction Sample.after_expense 1 1 Sample.anna'
           (Transaction.mk 1 1 1 20000 "expense" (Some "lunch"%string)
              (Date.midnight (mkdate 2026 11 2))) []);
    vm_compute; reflexivity.
Defined.

(** ** The date of a transaction *)

Lemma digit_cases (k : Z) :
  0 <= k <= 9 ->
  k = 0 \/ k = 1 \/ k = 2 \/ k = 3 \/ k = 4 \/ k = 5 \/ k = 6 \/ k = 7
  \/ k = 8 \/ k = 9.
Proof. lia. Qed.

Lemma digit_spec (k : Z) :
  0 <= k <= 9 -> Str.isdigit (digit k) = true /\ Date.dv (digit k) = k.
Proof.
  intros H. destruct (digit_cases k H)
    as [->|[->|[->|[->|[->|[->|[->|[->|[->| ->]]]]]]]]]; split; reflexivity.
Qed.

Lemma parse_Y_digits (y : Z) (r : Str.chars) :
  0 <= y <= 9999 ->
  Date.parse_Y (digit (y / 1000) :: digit (y / 100 mod 10)
                :: digit (y / 10 mod 10) :: digit (y mod 10) :: "-"%char :: r)
  = Some (y, r).
Proof.
  intros H. unfold Date.parse_Y.
  destruct (digit_spec (y / 1000)) as [A1 B1];
    [Z.div_mod_to_equations; lia|].
  destruct (digit_spec (y / 100 mod 10)) as [A2 B2];
    [Z.div_mod_to_equations; lia|].
  destruct (digit_spec (y / 10 mod 10)) as [A3 B3];
    [Z.div_mod_to_equations; lia|].
  destruct (digit_spec (y mod 10)) as [A4 B4];
    [Z.div_mod_to_equations; lia|].
  rewrite A1, A2, A3, A4, B1, B2, B3, B4. cbn [andb].
  clear A1 A2 A3 A4 B1 B2 B3 B4.
  assert (y / 1000 * 1000 + (y / 100) mod 10 * 100 + (y / 10) mod 10 * 10
          + y mod 10 = y) as E by (Z.div_mod_to_equations; lia).
  now rewrite E.
Qed.

Lemma parse_m_digits (m : Z) (r : Str.chars) :
  1 <= m <= 12 ->
  Date.parse_m (digit (m / 10) :: digit (m mod 10) :: "-"%char :: r)
  = Some (m, r).
Proof.
  intros H.
  assert (m = 1 \/ m = 2 \/ m = 3 \/ m = 4 \/ m = 5 \/ m = 6 \/ m = 7
          \/ m = 8 \/ m = 9 \/ m = 10 \/ m = 11 \/ m = 12) as C by lia.
  destruct C as [->|[->|[->|[->|[->|[->|[->|[->|[->|[->|[->| ->]]]]]]]]]]];
    reflexivity.
Qed.

Lemma parse_d_digits (d : Z) :
  1 <= d <= 31 ->
  Date.parse_d [digit (d / 10); digit (d mod 10)] = Some d.
Proof.
  intros H.
  assert (d = 1 \/ d = 2 \/ d = 3 \/ d = 4 \/ d = 5 \/ d = 6 \/ d = 7
          \/ d = 8 \/ d = 9 \/ d = 10 \/ d = 11 \/ d = 12 \/ d = 13
          \/ d = 14 \/ d = 15 \/ d = 16 \/ d = 17 \/ d = 18 \/ d = 19
          \/ d = 20 \/ d = 21 \/ d = 22 \/ d = 23 \/ d = 24 \/ d = 25
          \/ d = 26 \/ d = 27 \/ d = 28 \/ d = 29 \/ d = 30 \/ d = 31)
    as C by lia.
  repeat (destruct C as [->|C]; [reflexivity|]). subst d. reflexivity.
Qed.

Lemma days_in_month_le (y m : Z) : Date.days_in_month y m <= 31.
Proof.
  unfold Date.days_in_month.
  destruct ((m =? 2) && Date.is_leap y); [lia|].
  destruct (Z.to_nat m) as [|[|[|[|[|[|[|[|[|[|[|[|[|[|n]]]]]]]]]]]]]];
    cbn; lia.
Qed.

Lemma strptime_iso (d : date) :
  Date.valid d = true -> Date.strptime_ymd (iso d) = Ok (Date.midnight d).
Proof.
  intros Hv. pose proof (valid_elim d Hv) as [Hy [Hm Hd]].
  pose proof (days_in_month_le (year d) (month d)) as Hle.
  unfold Date.strptime_ymd, iso, Str.of_string.
  rewrite list_ascii_of_string_of_list_ascii.
  rewrite parse_Y_digits by lia. rewrite parse_m_digits by lia.
  rewrite parse_d_digits by lia.
  unfold Date.make. destruct d as [y m dd]. cbn [year month day] in *.
  rewrite Hv. reflexivity.
Qed.

Lemma strptime_midnight (s : string) (dt : datetime) :
  Date.strptime_ymd s = Ok dt ->
  exists d, Date.valid d = true /\ dt = Date.midnight d.
Proof.
  unfold Date.strptime_ymd.
  destruct (Date.parse_Y _) as [[y r1]|]; [|discriminate].
  destruct (Date.parse_m r1) as [[m r2]|]; [|discriminate].
  destruct (Date.parse_d r2) as [d|]; [|discriminate].
  unfold Date.make, bind.
  destruct (Date.valid (mkdate y m d)) eqn:Hv; [|discriminate].
  intros [= <-]. eauto.
Qed.

(** X22: a date field holding a valid date written as YYYY-MM-DD gives the
    midnight of that date; a missing or empty field gives the fallback (the
    current time for add, the stored timestamp for edit); and in every case
    the result is the fallback or the midnight of a valid date. *)
Theorem date_field_honoured (form : fields) (fallback : datetime) :
  (forall d, Date.valid d = true -> get form "date" = Some (iso d) ->
             date_of form fallback = Date.midnight d)
  /\ (get form "date" = None \/ get form "date" = Some ""%string ->
      date_of form fallback = fallback)
  /\ (date_of form fallback = fallback
      \/ exists d, Date.valid d = true
                   /\ date_of form fallback = Date.midnight d).
Proof.
  split; [|split].
  - intros d Hv Hg. unfold date_of. rewrite Hg.
    pose proof (strptime_iso d Hv) as H.
    destruct (iso d) as [|c s] eqn:E; [discriminate E|].
    now rewrite H.
  - intros [H|H]; unfold date_of; now rewrite H.
  - unfold date_of. destruct (get form "date") as [[|c s]|]; auto.
    destruct (Date.strptime_ymd (String c s)) as [dt|e] eqn:E; auto.
    right. apply strptime_midnight in E. destruct E as [d [Hv ->]]. eauto.
Qed.

Lemma date_field_honoured_witness :
  date_of [("date", "2028-02-29")]%string Sample.now
  = Date.midnight (mkdate 2028 2 29).
Proof.
  apply (proj1 (date_field_honoured [("date", "2028-02-29")]%string
                  Sample.now) (mkdate 2028 2 29));
    reflexivity.
Defined.

(** ** The balance form and the categories on offer *)

(** X24: for a user without an initial balance, a balance field that is
    missing or that [parse_decimal] refuses is answered with the
    invalid-balance message and a redirect back to the form; the store is
    unchanged and the dashboard keeps redirecting to the form. *)
Theorem setup_balance_rejects_invalid (db : Db) (uid : Z) (u : User.t)
                                      (form : fields) (e : exn) :
  current_user db uid = Some u -> User.initial_balance u = None ->
  parse_decimal (get form "initial_balance") = Raise e ->
  setup_balance db uid POST form
  = (db, Redirect (Some ("Некорректный баланс.", "error"))%string
                  EpSetupBalance)
  /\ forall args today,
       dashboard db uid args today = (db, Redirect None EpSetupBalance).
Proof.
  intros Hu Hb Hp. split.
  - unfold setup_balance. rewrite Hu, Hb, Hp.
    apply parse_decimal_raises in Hp. now subst e.
  - intros args today. unfold dashboard. now rewrite Hu, Hb.
Qed.

Lemma setup_balance_rejects_invalid_witness :
  setup_balance Sample.registered 1 POST
                [("initial_balance", "1.000,00")]%string
  = (Sample.registered,
     Redirect (Some ("Некорректный баланс.", "error"))%string EpSetupBalance)
  /\ forall args today,
       dashboard Sample.registered 1 args today
       = (Sample.registered, Redirect None EpSetupBalance).
Proof.
  apply (setup_balance_rejects_invalid Sample.registered 1 Sample.anna
           [("initial_balance", "1.000,00")]%string InvalidOperation);
    vm_compute; reflexivity.
Defined.

Lemma offered_iff_found (db : Db) (uid : Z) (ty : string) (c : Category.t) :
  db_wf db = true ->
  In c (categories_of db uid ty)
  <-> find_category db (Category.id c) uid ty = Some c.
Proof.
  intros Hwf. unfold categories_of. rewrite filter_In. split.
  - intros [Hin H]. apply andb_prop in H. destruct H as [Hu Hty].
    destruct (find_category db (Category.id c) uid ty) as [c'|] eqn:E.
    + apply find_category_some in E. destruct E as [Hin' [Hid _]].
      f_equal.
      apply (NoDup_map_id_eq Category.id (categories db)); auto.
      now apply db_wf_categories.
    + unfold find_category in E.
      pose proof (find_none _ _ E c Hin) as N. cbn in N.
      rewrite Z.eqb_refl, Hu, Hty in N. discriminate.
  - intros H. apply find_category_some in H.
    destruct H as [Hin [_ [Hu Hty]]]. split; auto.
    now rewrite Hu, Hty, Z.eqb_refl, String.eqb_refl.
Qed.

(** X25: on a store that satisfies its constraints, the expense and income
    categories listed on the rendered dashboard are exactly the categories
    that the lookup of [add_transaction] finds for that user and type. *)
Theorem offered_categories_accepted
    (db : Db) (uid : Z) (u : User.t) (ib : Numeric.t)
    (args : fields) (d start : date) :
  db_wf db = true ->
  current_user db uid = Some u ->
  User.initial_balance u = Some ib ->
  period_start (get_default args "period" "month") d = Ok start ->
  exists ctx,
    dashboard db uid args d = (db, Render (DashboardPage ctx))
    /\ (forall c, In c (expense_categories ctx)
                  <-> find_category db (Category.id c) uid "expense" = Some c)
    /\ (forall c, In c (income_categories ctx)
                  <-> find_category db (Category.id c) uid "income" = Some c).
Proof.
  intros Hwf Hu Hb Hs.
  destruct (dashboard_renders db uid u ib args d start Hu Hb Hs) as [ctx Hd].
  exists ctx. split; [exact Hd|].
  assert (expense_categories ctx = categories_of db uid "expense"
          /\ income_categories ctx = categories_of db uid "income")
    as [-> ->].
  { revert Hd. unfold dashboard. rewrite Hu, Hb, Hs.
    destruct (bind _ _); [|discriminate].
    destruct (chart_values _ _ _) as [[ev iv]|]; [|discriminate].
    intros H. inversion H; subst. split; reflexivity. }
  split; intros c; now apply offered_iff_found.
Qed.

Lemma offered_categories_accepted_witness :
  exists ctx,
    dashboard Sample.busy 1 [("period", "week")]%string Sample.today
    = (Sample.busy, Render (DashboardPage ctx))
    /\ (forall c, In c (expense_categories ctx)
                  <-> find_category Sample.busy (Category.id c) 1 "expense"
                      = Some c)
    /\ (forall c, In c (income_categories ctx)
                  <-> find_category Sample.busy (Category.id c) 1 "income"
                      = Some c).
Proof.
  apply (offered_categories_accepted Sample.busy 1 Sample.anna' 100000
           [("period", "week")]%string Sample.today (mkdate 2026 10 27));
    vm_compute; reflexivity.
Defined.

(** ** The e-mail as it is stored *)

Lemma lower_char_space (c : ascii) :
  Str.isspace (Text.lower_char c) = Str.isspace c.
Proof.
  destruct c as [[] [] [] [] [] [] [] []]; reflexivity.
Qed.

Lemma lower_char_idem (c : ascii) :
  Text.lower_char (Text.lower_char c) = Text.lower_char c.
Proof.
  destruct c as [[] [] [] [] [] [] [] []]; reflexivity.
Qed.

Lemma lstrip_map_lower (l : Str.chars) :
  Str.lstrip (map Text.lower_char l) = map Text.lower_char (Str.lstrip l).
Proof.
  induction l as [|c l IH]; cbn [map Str.lstrip]; auto.
  rewrite lower_char_space. destruct (Str.isspace c); auto.
Qed.

Lemma strip_map_lower (l : Str.chars) :
  Str.strip (map Text.lower_char l) = map Text.lower_char (Str.strip l).
Proof.
  unfold Str.strip, Str.rstrip.
  now rewrite lstrip_map_lower, <- !map_rev, lstrip_map_lower, map_rev.
Qed.

Lemma lstrip_idem (l : Str.chars) : Str.lstrip (Str.lstrip l) = Str.lstrip l.
Proof.
  induction l as [|c l IH]; cbn [Str.lstrip]; auto.
  destruct (Str.isspace c) eqn:E; auto. cbn [Str.lstrip]. now rewrite E.
Qed.

(** What [lstrip] returns does not start with white space. *)
Lemma lstrip_starts (l : Str.chars) :
  match Str.lstrip l with
  | c :: _ => Str.isspace c = false
  | [] => True
  end.
Proof.
  induction l as [|c l IH]; cbn [Str.lstrip]; auto.
  destruct (Str.isspace c) eqn:E; auto.
Qed.

Lemma lstrip_fixed (l : Str.chars) :
  match l with
  | c :: _ => Str.isspace c = false
  | [] => True
  end -> Str.lstrip l = l.
Proof. destruct l as [|c l]; cbn [Str.lstrip]; auto. now intros ->. Qed.

Lemma last_not_space_lstrip (l : Str.chars) :
  match rev l with
  | c :: _ => Str.isspace c = false
  | [] => True
  end ->
  match rev (Str.lstrip l) with
  | c :: _ => Str.isspace c = false
  | [] => True
  end.
Proof.
  induction l as [|c l IH]; cbn [Str.lstrip]; auto.
  destruct (Str.isspace c) eqn:E; auto.
  intros H. apply IH. cbn [rev] in H.
  destruct (rev l) as [|x r]; [cbn in H; congruence|exact H].
Qed.

Lemma strip_idem (l : Str.chars) : Str.strip (Str.strip l) = Str.strip l.
Proof.
  unfold Str.strip, Str.rstrip.
  set (m := Str.lstrip l).
  pose proof (lstrip_starts (rev m)) as Hend.
  set (k := Str.lstrip (rev m)) in *.
  (* the result is [rev k]; [k] does not start with white space *)
  assert (Str.lstrip (rev k) = rev k) as Hfront.
  { destruct (rev k) as [|c r] eqn:E; [reflexivity|].
    apply lstrip_fixed.
    (* the first character of [rev k] is the first character of [m] *)
    assert (exists r', m = c :: r') as [r' Hm].
    { subst k. clear Hend.
      assert (forall a b, rev (Str.lstrip a) = c :: b ->
                exists b', rev a = c :: b') as Hl.
      { intros a. induction a as [|x a IHa]; cbn [Str.lstrip]; intros b Hb.
        - discriminate.
        - destruct (Str.isspace x).
          + destruct (IHa b Hb) as [b' Hb']. cbn [rev]. rewrite Hb'.
            cbn [app]. eauto.
          + eauto. }
      destruct (Hl (rev m) r E) as [b' Hb']. rewrite rev_involutive in Hb'.
      eauto. }
    pose proof (lstrip_starts l) as Hh. fold m in Hh. rewrite Hm in Hh.
    exact Hh. }
  rewrite Hfront, rev_involutive.
  rewrite (lstrip_fixed k Hend). reflexivity.
Qed.

(** X26: the e-mail that [register] and [login] work with has no white space
    around it and no capital letter: stripping or lower-casing it again, or
    both, changes nothing, so the stored e-mail typed into the login form is
    looked up as itself. *)
Theorem email_normal_form (form : fields) :
  Text.strip (email_of form) = email_of form
  /\ Text.lower (email_of form) = email_of form
  /\ email_of [("email"%string, email_of form)] = email_of form.
Proof.
  assert (Text.strip (email_of form) = email_of form) as Hs.
  { unfold email_of, Text.lower, Text.strip, Str.of_string.
    rewrite !list_ascii_of_string_of_list_ascii, strip_map_lower, strip_idem.
    reflexivity. }
  assert (Text.lower (email_of form) = email_of form) as Hl.
  { unfold email_of, Text.lower, Str.of_string.
    rewrite !list_ascii_of_string_of_list_ascii, map_map.
    f_equal. apply map_ext. intros c. apply lower_char_idem. }
  split; [exact Hs|]. split; [exact Hl|].
  unfold email_of at 1. unfold get_default. cbn [get].
  rewrite String.eqb_refl. now rewrite Hs, Hl.
Qed.

Section AccountFlows.

Variable hash : string -> string -> string.
Variable check : string -> string -> bool.
Variable boot : datetime.

(** X27: after a logout request the site is unchanged and the session that
    remains names no logged-in user, whatever the session was before; a
    request to a protected route that follows is refused. *)
Theorem logout_ends_session (site : Site) (s : session) (r : request) :
  let '(site1, s1, _) := serve hash check boot site s Logout in
  site1 = site
  /\ is_authenticated site s1 = false
  /\ serve hash check boot site1 s1 (Protected r)
     = (site, s1, inr Unauthorized).
Proof.
  cbn [serve]. unfold logout.
  destruct (is_authenticated site s) eqn:Ha.
  - split; [reflexivity|]. split; [reflexivity|reflexivity].
  - split; [reflexivity|]. split; [exact Ha|].
    now apply (protected_refused hash check boot).
Qed.

(** X28: with the session opened by a successful registration on a site
    that satisfies its constraints, the dashboard redirects to the balance
    form and the balance form is rendered; the store is unchanged by both. *)
Theorem new_account_sets_balance_first
    (site site' : Site) (s s' : session) (form : fields) (salt : string)
    (args : fields) (today : date) :
  site_wf site = true ->
  register hash boot site s POST form salt = (site', s', account_created) ->
  serve hash check boot site' s' (Protected (ReqDashboard args today))
  = (site', s', inr (Redirect None EpSetupBalance))
  /\ serve hash check boot site' s'
       (Protected (ReqSetupBalance GET []))
     = (site', s', inr (Render SetupBalancePage)).
Proof.
  intros Hwf Hreg.
  pose proof (register_cases hash boot site s POST form salt) as R.
  rewrite Hreg in R. inversion R as [resp Hne|]; subst.
  { now contradiction Hne. }
  set (user := User.mk uid name email (hash password salt) None boot).
  assert (current_user
            (mkDb (users (store site) ++ [user])
                  (categories (store site) ++ cats)
                  (transactions (store site))
                  (transactions_id_seq (store site))) uid = Some user) as Hu.
  { apply (current_user_app_new _ user). intros x Hx E. cbn in E.
    assert (known_user (store site) uid = true) as K.
    { apply known_user_spec. eauto. }
    apply (known_user_bound site uid Hwf) in K. subst uid. lia. }
  cbn [serve handle store with_store users_id_seq categories_id_seq].
  unfold dashboard, setup_balance. rewrite Hu. cbn [User.initial_balance user].
  split; reflexivity.
Qed.

End AccountFlows.

Lemma new_account_sets_balance_first_witness :
  serve Demo.plain_hash Demo.plain_check Demo.boot Demo.one_account (Some 1)
        (Protected (ReqDashboard [] Sample.today))
  = (Demo.one_account, Some 1, inr (Redirect None EpSetupBalance))
  /\ serve Demo.plain_hash Demo.plain_check Demo.boot Demo.one_account
           (Some 1) (Protected (ReqSetupBalance GET []))
     = (Demo.one_account, Some 1, inr (Render SetupBalancePage)).
Proof.
  apply (new_account_sets_balance_first Demo.plain_hash Demo.plain_check
           Demo.boot Demo.empty Demo.one_account None (Some 1) Demo.anna_form
           "salt" [] Sample.today);
    vm_compute; reflexivity.
Defined.
